(** * prepare_local.py: a shallow embedding and its verified properties

    The script prepares a local MP4 for adaptive streaming: it encodes one
    representation per bitrate, segments each one with MP4Box, merges the
    per-representation manifests and optionally scores every segment with
    VMAF.  Python integers are [Z], Python floats are binary64 primitive
    floats, [str] is [string], dictionaries keyed by integers are [gmap Z],
    JSON objects are association lists in insertion order.  The shell, the
    file system and the XML/JSON libraries are parameters of the model. *)

From Stdlib Require Import ZArith Floats Ascii String.
From stdpp Require Import gmap strings list pretty sorting.

Open Scope Z_scope.
Set Warnings "-register-all,-inexact-float".

(** ** Exceptions and results *)

Inductive exn :=
| KeyError (msg : string)
| IndexError
| TypeError
| ValueError
| OverflowError
| ZeroDivisionError
| RuntimeError (msg : string)
| AttributeError
| ParseError
| CalledProcessError (cmd : string)
| OSError (path : string).

Inductive result (A : Type) :=
| Ok (a : A)
| Raise (e : exn).
Arguments Ok {A} a.
Arguments Raise {A} e.

Definition rbind {A B} (r : result A) (k : A -> result B) : result B :=
  match r with
  | Ok a => k a
  | Raise e => Raise e
  end.

Definition of_option {A} (e : exn) (o : option A) : result A :=
  match o with
  | Some a => Ok a
  | None => Raise e
  end.

Notation "'let?' x := r 'in' k" := (rbind r (fun x => k))
  (at level 10, x pattern, r at level 100, k at level 200).

(** ** Strings *)

(** The double quote character, and a path or word wrapped in double quotes
    as the shell commands of the script write it. *)
Definition dq : string := String "034"%char EmptyString.
Definition quoted (s : string) : string := dq +:+ s +:+ dq.

Definition lower_ascii (c : ascii) : ascii :=
  let n := nat_of_ascii c in
  if ((65 <=? n)%nat && (n <=? 90)%nat)%bool then ascii_of_nat (n + 32) else c.

(** [str.lower], on the ASCII letters.  Strings are UTF-8 byte sequences; no
    character outside ASCII lower-cases to one of the letters of
    [vmaf_score], so the comparison made by [walk] is not affected. *)
Fixpoint lower (s : string) : string :=
  match s with
  | EmptyString => EmptyString
  | String c s' => String (lower_ascii c) (lower s')
  end.

(** [sub in s] *)
Fixpoint contains (sub s : string) : bool :=
  match s with
  | EmptyString => String.prefix sub EmptyString
  | String _ s' => String.prefix sub s || contains sub s'
  end.

(** [s.split(sep)] for a non-empty separator: [skip] counts the characters
    of a separator occurrence that are still to be dropped. *)
Fixpoint split_from (sep s : string) (skip : nat) : list string :=
  match s with
  | EmptyString => [EmptyString]
  | String c s' =>
      match skip with
      | S k => split_from sep s' k
      | O =>
          if String.prefix sep s
          then EmptyString :: split_from sep s' (String.length sep - 1)
          else match split_from sep s' O with
               | p :: ps => String c p :: ps
               | [] => [String c EmptyString]
               end
      end
  end.

Definition split (sep s : string) : list string := split_from sep s O.

(** [sep.join(l)] *)
Fixpoint join (sep : string) (l : list string) : string :=
  match l with
  | [] => EmptyString
  | [s] => s
  | s :: l' => s +:+ sep +:+ join sep l'
  end.

(** The newline character as a string. *)
Definition nl : string := String "010"%char EmptyString.

(** [l[i]] on a list, raising [IndexError] out of range (non-negative
    constant indices only occur in the script). *)
Definition item {A} (l : list A) (i : nat) : result A :=
  of_option IndexError (l !! i).

(** [os.path.join(a, b)] for a relative [b]. *)
Definition ends_with_slash (a : string) : bool :=
  match String.get (String.length a - 1) a with
  | Some c => if decide (c = "/"%char) then true else false
  | None => false
  end.

Definition path_join (a b : string) : string :=
  if decide (a = EmptyString) then b
  else if ends_with_slash a then a +:+ b
  else a +:+ "/" +:+ b.

(** ** Numbers *)

(** [float(z)] for a Python integer: the nearest binary64 value, ties to
    even; [OverflowError] when it is out of range. *)
Definition float_of_Z (z : Z) : result float :=
  let f := SF2Prim (binary_normalize 53 1024 z 0 false) in
  if PrimFloat.is_infinity f then Raise OverflowError else Ok f.

(** [a / b] on Python integers (true division): the correctly rounded
    quotient.  The quotient of the magnitudes is computed with at least 64
    significant bits, the remainder is folded into a sticky last bit, and
    [binary_normalize] rounds once. *)
Definition truediv_mag (a b : Z) : float :=
  let k := Z.max 0 (64 + Z.log2 b - Z.log2 a) in
  let n := a * 2 ^ k in
  let q := n / b in
  let sticky := if decide (n mod b = 0) then 0 else 1 in
  SF2Prim (binary_normalize 53 1024 (2 * q + sticky) (- k - 1) false).

Definition truediv (a b : Z) : result float :=
  if decide (b = 0) then Raise ZeroDivisionError
  else
    let neg := xorb (a <? 0) (b <? 0) in
    let m := if decide (a = 0) then 0%float else truediv_mag (Z.abs a) (Z.abs b) in
    if PrimFloat.is_infinity m then Raise OverflowError
    else Ok (if neg then (- m)%float else m).

(** [max(l)] on integers; [ValueError] on an empty sequence. *)
Definition max_of (l : list Z) : result Z :=
  match l with
  | [] => Raise ValueError
  | x :: l' => Ok (foldl Z.max x l')
  end.

(** [range(1, n + 1)] *)
Definition range1 (n : Z) : list Z := seqZ 1 n.

(** [sorted(l)] on integers. *)
Definition sorted (l : list Z) : list Z := merge_sort Z.le l.

(** [l.index(x)]: the first position of [x]; [ValueError] when absent. *)
Fixpoint index (x : Z) (l : list Z) : result nat :=
  match l with
  | [] => Raise ValueError
  | y :: l' => if decide (y = x) then Ok O else let? i := index x l' in Ok (S i)
  end.

(** ** The Python and library functions the script relies on

    [int(s)] and [float(s)] on strings ([None] is [ValueError]), [repr] of a
    string, the text of a float inside an f-string, the XML and JSON
    readers and writers.  They are parameters: every theorem holds for any
    implementation of them. *)

Inductive json :=
| JNull
| JBool (b : bool)
| JInt (z : Z)
| JFloat (f : float)
| JStr (s : string)
| JList (l : list json)
| JDict (kvs : list (string * json)).

(** An [xml.etree] element: tag, attributes in insertion order, text, tail
    and children. *)
Inductive element :=
| Element (tag : string) (attrib : list (string * string))
          (text tail : string) (children : list element).

Record seg_entry := SegEntry {
  start_time : float;
  vmaf : option float
}.

Record dims := Dims {
  width : Z;
  height : Z
}.

Record PyLib := {
  int_of_str : string -> option Z;
  float_of_str : string -> option float;
  repr_str : string -> string;
  str_float : float -> string;
  xml_parse : string -> option element;
  xml_tostring : element -> string;
  json_loads : string -> option json;
  json_dumps : gmap Z (gmap Z seg_entry) -> string
}.

(** ** JSON values and score extraction *)

Definition is_dict (v : json) : bool :=
  match v with JDict _ => true | _ => false end.

(** [k in d] and [d[k]] on the items of a dictionary. *)
Fixpoint dict_get (k : string) (kvs : list (string * json)) : option json :=
  match kvs with
  | [] => None
  | (k', v) :: kvs' => if decide (k' = k) then Some v else dict_get k kvs'
  end.

(** [isinstance(val, (int, float))]; [bool] is a subclass of [int]. *)
Definition is_number (v : json) : bool :=
  match v with
  | JBool _ | JInt _ | JFloat _ => true
  | _ => false
  end.

Section Extract.
Context (L : PyLib).

(** [float(v)] *)
Definition py_float (v : json) : result float :=
  match v with
  | JFloat f => Ok f
  | JInt z => float_of_Z z
  | JBool b => Ok (if b then 1%float else 0%float)
  | JStr s => of_option ValueError (float_of_str L s)
  | JNull | JList _ | JDict _ => Raise TypeError
  end.

Definition is_score_key (k : string) : bool :=
  let lk := lower k in
  if decide (lk = "vmaf_score") then true
  else if decide (lk = "vmaf") then true else false.

(** The inner function [walk]: [Ok None] is Python's [None].  The recursion
    is structural; a report nested deeper than the interpreter's recursion
    limit, on which Python gives up with [RecursionError], is outside the
    model. *)
Fixpoint walk (x : json) : result (option float) :=
  match x with
  | JDict kvs =>
      (fix items (l : list (string * json)) : result (option float) :=
         match l with
         | [] => Ok None
         | (k, val) :: l' =>
             if is_score_key k && is_number val
             then let? f := py_float val in Ok (Some f)
             else match walk val with
                  | Ok None => items l'
                  | r => r
                  end
         end) kvs
  | JList l =>
      (fix elems (l : list json) : result (option float) :=
         match l with
         | [] => Ok None
         | it :: l' =>
             match walk it with
             | Ok None => elems l'
             | r => r
             end
         end) l
  | _ => Ok None
  end.

(** The three fixed schemas, in the order the function tries them; [None]
    means that the schema does not apply and the next one is tried. *)
Definition schema_aggregate (v : json) : option (result float) :=
  match v with
  | JDict kvs =>
      match dict_get "aggregate" kvs with
      | Some (JDict agg) =>
          match dict_get "VMAF_score" agg with
          | Some x => Some (py_float x)
          | None =>
              match dict_get "VMAF" agg with
              | Some x => Some (py_float x)
              | None => None
              end
          end
      | _ => None
      end
  | _ => None
  end.

Fixpoint first_present (ks : list string) (vv : list (string * json)) : option json :=
  match ks with
  | [] => None
  | k :: ks' =>
      match dict_get k vv with
      | Some x => Some x
      | None => first_present ks' vv
      end
  end.

Definition schema_pooled (v : json) : option (result float) :=
  match v with
  | JDict kvs =>
      match dict_get "pooled_metrics" kvs with
      | Some (JDict pm) =>
          match dict_get "vmaf" pm with
          | Some (JDict vv) =>
              match first_present ["mean"; "harmonic_mean"; "min"; "max"] vv with
              | Some x => Some (py_float x)
              | None => None
              end
          | _ => None
          end
      | _ => None
      end
  | _ => None
  end.

Definition schema_metrics (v : json) : option (result float) :=
  match v with
  | JDict kvs =>
      match dict_get "metrics" kvs with
      | Some (JDict m) =>
          match dict_get "vmaf" m with
          | Some (JDict vv) =>
              match dict_get "mean" vv with
              | Some x => Some (py_float x)
              | None => None
              end
          | _ => None
          end
      | _ => None
      end
  | _ => None
  end.

(** [type(v)] as the f-string prints it. *)
Definition type_repr (v : json) : string :=
  match v with
  | JNull => "<class 'NoneType'>"
  | JBool _ => "<class 'bool'>"
  | JInt _ => "<class 'int'>"
  | JFloat _ => "<class 'float'>"
  | JStr _ => "<class 'str'>"
  | JList _ => "<class 'list'>"
  | JDict _ => "<class 'dict'>"
  end.

(** [list(v.keys())] as the f-string prints it. *)
Definition keys_repr (kvs : list (string * json)) : string :=
  "[" +:+ join ", " (map (fun kv => repr_str L (fst kv)) kvs) +:+ "]".

Definition top_level (v : json) : string :=
  match v with
  | JDict kvs => keys_repr kvs
  | _ => type_repr v
  end.

Definition no_score_message (v : json) : string :=
  "Could not find VMAF score in JSON. Top-level keys: " +:+ top_level v.

Definition extract_vmaf_score (v : json) : result float :=
  match schema_aggregate v with
  | Some r => r
  | None =>
      match schema_pooled v with
      | Some r => r
      | None =>
          match schema_metrics v with
          | Some r => r
          | None =>
              let? r := walk v in
              match r with
              | Some f => Ok f
              | None => Raise (KeyError (no_score_message v))
              end
          end
      end
  end.

End Extract.

(** ** The operating system and the effects of the script

    [sh] runs a shell command with [check_output]: it returns the decoded
    output, or [None] when the command exits with a non-zero status, and the
    world after the command.  The other fields are [os.path.isfile],
    [os.makedirs(p, exist_ok=True)], [os.path.abspath], reading a file and
    writing one ([None] is an [OSError]). *)
Record OS (World : Type) := {
  sh : string -> World -> option string * World;
  isfile : string -> World -> bool;
  makedirs : string -> World -> option World;
  abspath : string -> World -> string;
  read_file : string -> World -> option string;
  write_file : string -> string -> World -> option World
}.
Arguments sh {World} _ _ _.
Arguments isfile {World} _ _ _.
Arguments makedirs {World} _ _ _.
Arguments abspath {World} _ _ _.
Arguments read_file {World} _ _ _.
Arguments write_file {World} _ _ _ _.

(** The state threaded through the script: the world, and the record of
    every shell command run so far with its output, newest first. *)
Record state (World : Type) := State {
  world : World;
  log : list (string * option string)
}.
Arguments State {World} _ _.
Arguments world {World} _.
Arguments log {World} _.

Definition M (World A : Type) : Type := state World -> result A * state World.

Definition ret {World A} (a : A) : M World A := fun s => (Ok a, s).

Definition raise {World A} (e : exn) : M World A := fun s => (Raise e, s).

Definition bind {World A B} (m : M World A) (k : A -> M World B) : M World B :=
  fun s =>
    match m s with
    | (Ok a, s') => k a s'
    | (Raise e, s') => (Raise e, s')
    end.

Definition lift {World A} (r : result A) : M World A := fun s => (r, s).

Notation "'let!' x := m 'in' k" := (bind m (fun x => k))
  (at level 10, x pattern, m at level 100, k at level 200).

(** [for x in l: acc = body(acc, x)] *)
Fixpoint for_each {World A S} (l : list A) (body : S -> A -> M World S) (acc : S)
  : M World S :=
  match l with
  | [] => ret acc
  | x :: l' => let! acc' := body acc x in for_each l' body acc'
  end.

(** [d[k]] on a dictionary keyed by integers. *)
Definition lookup_key {A} (k : Z) (m : gmap Z A) : result A :=
  of_option (KeyError (pretty k)) (m !! k).

(** [d.keys()] *)
Definition keys {A} (m : gmap Z A) : list Z := (map_to_list m).*1.

(** ** XML elements *)

Definition tag_of (e : element) : string :=
  match e with Element t _ _ _ _ => t end.

Definition children_of (e : element) : list element :=
  match e with Element _ _ _ _ cs => cs end.

Definition attrib_of (e : element) : list (string * string) :=
  match e with Element _ a _ _ _ => a end.

(** [e[i]] *)
Definition subelement (e : element) (i : nat) : result element :=
  item (children_of e) i.

Fixpoint assoc_get (k : string) (l : list (string * string)) : option string :=
  match l with
  | [] => None
  | (k', v) :: l' => if decide (k' = k) then Some v else assoc_get k l'
  end.

Fixpoint assoc_set (k v : string) (l : list (string * string)) : list (string * string) :=
  match l with
  | [] => [(k, v)]
  | (k', v') :: l' =>
      if decide (k' = k) then (k, v) :: l' else (k', v') :: assoc_set k v l'
  end.

(** [e.get(k)] and [e.set(k, v)] *)
Definition attr_get (k : string) (e : element) : option string :=
  assoc_get k (attrib_of e).

Definition attr_set (k v : string) (e : element) : element :=
  match e with
  | Element t a tx tl cs => Element t (assoc_set k v a) tx tl cs
  end.

(** In-place change of the child at position [i]. *)
Definition update_child (i : nat) (f : element -> element) (e : element) : element :=
  match e with
  | Element t a tx tl cs => Element t a tx tl (alter f i cs)
  end.

(** [e.append(c)] *)
Definition append_child (c : element) (e : element) : element :=
  match e with
  | Element t a tx tl cs => Element t a tx tl (cs ++ [c])
  end.

Definition is_representation (e : element) : bool :=
  contains "Representation" (tag_of e).

(** The position of the child the loop [for child in root] leaves in
    [representation]: the last one whose tag contains "Representation". *)
Fixpoint find_representation (cs : list element) (i : nat) (found : option nat)
  : option nat :=
  match cs with
  | [] => found
  | c :: cs' =>
      find_representation cs' (S i) (if is_representation c then Some i else found)
  end.

(** ** Segment windows *)

(** The start offset and the duration that [compute_vmaf] cuts for segment
    [seg] of a representation with [segments] segments. *)
Definition window (si : gmap Z seg_entry) (segments seg : Z) : result (float * float) :=
  let? e := lookup_key seg si in
  let ss := start_time e in
  if decide (seg < segments) then
    let? e1 := lookup_key (seg + 1) si in
    Ok (ss, (start_time e1 - ss)%float)
  else
    let? e' := lookup_key seg si in
    let? e0 := lookup_key (seg - 1) si in
    Ok (ss, (start_time e' - start_time e0)%float).

(** Line 137: the position of [rate] among the sorted bitrates; and the
    identifier given to the representation at that position. *)
Definition rank (rates : list Z) (rate : Z) : result nat :=
  index rate (sorted rates).

Definition rep_id (pl : nat) : string := "video" +:+ pretty pl.

Record Args := {
  arg_video : string;
  arg_input : string;
  arg_segment : Z;
  arg_fps : Z;
  arg_rates : list Z;
  arg_vmaf : bool
}.

(** ** The pipeline *)

Section Pipeline.
Context (L : PyLib) {World : Type} (os : OS World).

Local Abbreviation M := (M World).

(** [run_cmd]: the command and its output are recorded; a failing command
    raises [CalledProcessError].  Printing the command (for the verbose
    calls) and decoding the output as UTF-8 are taken to succeed: [sh] gives
    the decoded text. *)
Definition run_cmd (cmd : string) : M string :=
  fun s =>
    let '(out, w) := sh os cmd (world s) in
    let s' := State w ((cmd, out) :: log s) in
    match out with
    | Some o => (Ok o, s')
    | None => (Raise (CalledProcessError cmd), s')
    end.

Definition ensure_dir (p : string) : M unit :=
  fun s =>
    match makedirs os p (world s) with
    | Some w => (Ok tt, State w (log s))
    | None => (Raise (OSError p), s)
    end.

Definition is_file (p : string) : M bool :=
  fun s => (Ok (isfile os p (world s)), s).

Definition read (p : string) : M string :=
  fun s => (of_option (OSError p) (read_file os p (world s)), s).

Definition write (p content : string) : M unit :=
  fun s =>
    match write_file os p content (world s) with
    | Some w => (Ok tt, State w (log s))
    | None => (Raise (OSError p), s)
    end.

Definition abs_path (p : string) : M string :=
  fun s => (Ok (abspath os p (world s)), s).

Definition rm_cmd (p : string) : string := "rm -rf " +:+ quoted p +:+ " || true".

Definition rm (p : string) : M unit :=
  let! _ := run_cmd (rm_cmd p) in ret tt.

Definition get_attr (raw_xml attr : string) : result string :=
  let? rest := item (split attr raw_xml) 1 in
  item (split dq rest) 1.

(** [int(x)] where [x] is a string *)
Definition py_int (s : string) : result Z :=
  of_option ValueError (int_of_str L s).

(** *** transcode_h264_reps *)

Definition encode_cmd (src_mp4 out_mp4 : string) (fps gop r : Z) : string :=
  "ffmpeg -y -i " +:+ quoted src_mp4 +:+ " "
  +:+ "-an -c:v libx264 -preset slow "
  +:+ "-r " +:+ pretty fps +:+ " "
  +:+ "-g " +:+ pretty gop +:+ " -keyint_min " +:+ pretty gop +:+ " -sc_threshold 0 "
  +:+ "-b:v " +:+ pretty r +:+ "k -maxrate " +:+ pretty (2 * r)
  +:+ "k -bufsize " +:+ pretty (4 * r) +:+ "k "
  +:+ quoted out_mp4.

Definition rep_path (out_dir : string) (r : Z) : string :=
  path_join out_dir ("rep_" +:+ pretty r +:+ ".mp4").

Definition transcode_one (src_mp4 out_dir : string) (fps gop : Z)
    (out_map : gmap Z string) (r : Z) : M (gmap Z string) :=
  let out_mp4 := rep_path out_dir r in
  let! present := is_file out_mp4 in
  if present : bool then ret (<[r := out_mp4]> out_map)
  else
    let! _ := run_cmd (encode_cmd src_mp4 out_mp4 fps gop r) in
    ret (<[r := out_mp4]> out_map).

Definition transcode_h264_reps (src_mp4 out_dir : string) (rates_kbps : list Z)
    (fps seg_s : Z) : M (gmap Z string) :=
  let! _ := ensure_dir out_dir in
  let gop := fps * seg_s in
  for_each rates_kbps (transcode_one src_mp4 out_dir fps gop) ∅.

(** *** segment_rep *)

Definition dash_cmd (tmp : string) (seg_ms : Z) (rep_abs : string) : string :=
  "cd " +:+ quoted tmp +:+ " && MP4Box -dash " +:+ pretty seg_ms
  +:+ " -dash-profile live -rap -segment-name " +:+ quoted EmptyString
  +:+ " " +:+ quoted rep_abs.

Definition count_cmd (segment_dir : string) : string :=
  "ls " +:+ quoted segment_dir +:+ " | grep -E " +:+ quoted "^[0-9]+\.m4s$"
  +:+ " | wc -l".

Definition sidx_cmd (segment_dir : string) (seg : Z) : string :=
  "MP4Box -std -diso " +:+ quoted (segment_dir +:+ "/" +:+ pretty seg +:+ ".m4s")
  +:+ " 2>&1 | grep " +:+ quoted "SegmentIndexBox".

(** The start time read from the index box text of one chunk. *)
Definition chunk_start_time (raw : string) : result float :=
  let? ts := get_attr raw "timescale" in
  let? timescale := py_int ts in
  let? ea := get_attr raw "earliest_presentation_time" in
  let? earliest := py_int ea in
  truediv earliest timescale.

Definition segment_one (segment_dir : string) (seg_info : gmap Z seg_entry) (seg : Z)
    : M (gmap Z seg_entry) :=
  let! raw := run_cmd (sidx_cmd segment_dir seg) in
  let! start := lift (chunk_start_time raw) in
  ret (<[seg := SegEntry start None]> seg_info).

Definition segment_dir_of (video_name : string) (rate : Z) : string :=
  "videos/" +:+ video_name +:+ "/tracks/video_" +:+ pretty rate.

Definition segment_rep (video_name rep_mp4 : string) (rate seg_s : Z)
    : M (gmap Z seg_entry) :=
  let segment_dir := segment_dir_of video_name rate in
  let! _ := rm segment_dir in
  let! _ := ensure_dir segment_dir in
  let tmp := "videos/" +:+ video_name +:+ "/tmp/mp4box_" +:+ pretty rate in
  let! _ := rm tmp in
  let! _ := ensure_dir tmp in
  let seg_ms := seg_s * 1000 in
  let! rep_abs := abs_path rep_mp4 in
  let! _ := run_cmd (dash_cmd tmp seg_ms rep_abs) in
  let! _ := run_cmd ("mv " +:+ quoted tmp +:+ "/*_dash.mpd "
                     +:+ quoted (segment_dir +:+ "/intermediate_dash.mpd")) in
  let! _ := run_cmd ("mv " +:+ quoted (tmp +:+ "/init.mp4") +:+ " "
                     +:+ quoted (segment_dir +:+ "/init.mp4")) in
  let! _ := run_cmd ("mv " +:+ quoted tmp +:+ "/*.m4s "
                     +:+ quoted (segment_dir +:+ "/")) in
  let! _ := rm tmp in
  let! out := run_cmd (count_cmd segment_dir) in
  let! segments := lift (py_int out) in
  for_each (range1 segments) (segment_one segment_dir) ∅.

(** *** build_common_manifest *)

Definition strip_initialization (content : string) : string :=
  join nl (List.filter (fun l => negb (contains "Initialization" l)) (split nl content)).

Definition manifest_path (tracks_dir : string) (rate : Z) : string :=
  tracks_dir +:+ "/video_" +:+ pretty rate +:+ "/intermediate_dash.mpd".

(** Lines 121 to 127: the fragment is rewritten without its
    "Initialization" lines and parsed. *)
Definition load_fragment (manifest : string) : M element :=
  let! content := read manifest in
  let! _ := write manifest (strip_initialization content) in
  let! text := read manifest in
  lift (of_option ParseError (xml_parse L text)).

(** [int(representation.get(k))] *)
Definition int_attr (k : string) (e : element) : result Z :=
  match attr_get k e with
  | Some s => py_int s
  | None => Raise TypeError
  end.

(** Lines 128 to 151, on the parsed [tree]: [base] and [info] are the
    loop's variables.  The found node is a child of [tree[1][0]]; its
    update and the update of the segment template [tree[1][0][0]] are
    written as updates of that tree. *)
Definition merge_fragment (rates : list Z) (manifest : string) (rate : Z)
    (tree : element) (st : option element * gmap Z dims)
    : result (option element * gmap Z dims) :=
  let '(base, info) := st in
  let? period := subelement tree 1 in
  let? root := subelement period 0 in
  match find_representation (children_of root) 0 None with
  | None => Raise (RuntimeError ("Could not find Representation in " +:+ manifest))
  | Some i =>
      let? found := item (children_of root) i in
      let? pl := rank rates rate in
      let representation := attr_set "id" (rep_id pl) found in
      let? w := int_attr "width" representation in
      let? h := int_attr "height" representation in
      let info := <[rate := Dims w h]> info in
      match base with
      | None =>
          let tree :=
            update_child 1 (update_child 0 (update_child i (fun _ => representation))) tree in
          let template e :=
            attr_set "media" "$RepresentationID$/$Number$.m4s"
              (attr_set "initialization" "$RepresentationID$/init.mp4" e) in
          Ok (Some (update_child 1 (update_child 0 (update_child 0 template)) tree), info)
      | Some b =>
          let? bp := subelement b 1 in
          let? _ := subelement bp 0 in
          Ok (Some (update_child 1 (update_child 0 (append_child representation)) b), info)
      end
  end.

Definition manifest_one (tracks_dir : string) (rates : list Z)
    (st : option element * gmap Z dims) (rate : Z)
    : M (option element * gmap Z dims) :=
  let manifest := manifest_path tracks_dir rate in
  let! tree := load_fragment manifest in
  lift (merge_fragment rates manifest rate tree st).

(** The loop of [build_common_manifest]: the merged tree and the
    dimensions of every representation. *)
Definition merge_manifests (video_name : string) (rates : list Z)
    : M (option element * gmap Z dims) :=
  let tracks_dir := "videos/" +:+ video_name +:+ "/tracks" in
  for_each rates (manifest_one tracks_dir rates) (None, ∅).

Definition build_common_manifest (video_name : string) (rates : list Z)
    : M (gmap Z dims) :=
  let tracks_dir := "videos/" +:+ video_name +:+ "/tracks" in
  let! st := merge_manifests video_name rates in
  let out_manifest := tracks_dir +:+ "/manifest.mpd" in
  let! _ := rm out_manifest in
  match fst st with
  | Some base =>
      let! _ := write out_manifest (xml_tostring L base) in
      ret (snd st)
  | None =>
      let! _ := write out_manifest EmptyString in
      raise AttributeError
  end.

(** *** compute_vmaf *)

Definition convert_to_yuv (video_name mp4_path : string) (width height : Z)
    (tag : string) : M string :=
  let! _ := ensure_dir ("videos/" +:+ video_name +:+ "/yuv") in
  let out_yuv := "videos/" +:+ video_name +:+ "/yuv/" +:+ tag +:+ ".yuv" in
  let! _ := run_cmd ("ffmpeg -y -i " +:+ quoted mp4_path
                     +:+ " -pix_fmt yuv420p -vsync 0 -vf scale="
                     +:+ pretty width +:+ ":" +:+ pretty height +:+ " "
                     +:+ quoted out_yuv) in
  ret out_yuv.

Definition vmaf_bin : string := "./deps/vmaf/libvmaf/build/tools/vmafossexec".
Definition vmaf_model : string := "./deps/vmaf/model/vmaf_v0.6.1.json".

Definition cut_cmd (w h : Z) (yuv : string) (ss t : float) (out : string) : string :=
  "ffmpeg -y -s:v " +:+ pretty w +:+ "x" +:+ pretty h +:+ " -r 10 -i " +:+ quoted yuv
  +:+ " -ss " +:+ str_float L ss +:+ " -t " +:+ str_float L t
  +:+ " -pix_fmt yuv420p " +:+ out.

Definition vmaf_cmd (w h : Z) : string :=
  vmaf_bin +:+ " yuv420p " +:+ pretty w +:+ " " +:+ pretty h
  +:+ " cut2.yuv cut1.yuv " +:+ quoted vmaf_model +:+ " "
  +:+ "--log vmaf_out.json --log-fmt json".

Definition set_vmaf (score : float) (e : seg_entry) : seg_entry :=
  SegEntry (start_time e) (Some score).

(** The body of the inner loop, lines 267 to 292. *)
Definition score_segment (w h : Z) (cur_yuv ref_yuv : string) (rate segments : Z)
    (seg_info : gmap Z (gmap Z seg_entry)) (seg : Z)
    : M (gmap Z (gmap Z seg_entry)) :=
  let! si := lift (lookup_key rate seg_info) in
  let! sst := lift (window si segments seg) in
  let '(ss, t) := sst in
  let! _ := run_cmd (cut_cmd w h cur_yuv ss t "cut1.yuv") in
  let! _ := run_cmd (cut_cmd w h ref_yuv ss t "cut2.yuv") in
  let! _ := run_cmd (vmaf_cmd w h) in
  let! text := read "vmaf_out.json" in
  let! v := lift (of_option ValueError (json_loads L text)) in
  let! score := lift (extract_vmaf_score L v) in
  let seg_info := <[rate := alter (set_vmaf score) seg si]> seg_info in
  let! _ := run_cmd "rm -f cut1.yuv cut2.yuv vmaf_out.json || true" in
  ret seg_info.

(** The body of the outer loop, lines 263 to 292. *)
Definition score_rate (video_name : string) (reps : gmap Z string) (w h biggest : Z)
    (ref_yuv : string) (seg_info : gmap Z (gmap Z seg_entry)) (rate : Z)
    : M (gmap Z (gmap Z seg_entry)) :=
  let! cur_yuv :=
    (if decide (rate = biggest) then ret ref_yuv
     else
       let! rep := lift (lookup_key rate reps) in
       convert_to_yuv video_name rep w h ("video_" +:+ pretty rate)) in
  let! si := lift (lookup_key rate seg_info) in
  let! segments := lift (max_of (keys si)) in
  for_each (range1 segments) (score_segment w h cur_yuv ref_yuv rate segments) seg_info.

(** [compute_vmaf] returns nothing and updates [seg_info] in place; the
    model returns the updated dictionary. *)
Definition compute_vmaf (video_name : string) (rates : list Z) (reps : gmap Z string)
    (seg_info : gmap Z (gmap Z seg_entry)) (info : gmap Z dims)
    : M (gmap Z (gmap Z seg_entry)) :=
  let out_path := "videos/" +:+ video_name +:+ "/vmaf.json" in
  let! done_before := is_file out_path in
  if done_before : bool then ret seg_info
  else
    let! has_bin := is_file vmaf_bin in
    if negb has_bin
    then raise (RuntimeError ("VMAF binary not found at " +:+ vmaf_bin))
    else
      let! has_model := is_file vmaf_model in
      if negb has_model
      then raise (RuntimeError ("VMAF model not found at " +:+ vmaf_model +:+ ". "
                                +:+ "List models with: ls -la ./deps/vmaf/model"))
      else
        let! biggest := lift (max_of rates) in
        let! d := lift (lookup_key biggest info) in
        let w := width d in
        let h := height d in
        let! ref_rep := lift (lookup_key biggest reps) in
        let! ref_yuv :=
          convert_to_yuv video_name ref_rep w h ("video_" +:+ pretty biggest) in
        let! seg_info :=
          for_each rates (score_rate video_name reps w h biggest ref_yuv) seg_info in
        let! _ := rm ("videos/" +:+ video_name +:+ "/yuv") in
        let! _ := write out_path (json_dumps L seg_info) in
        ret seg_info.

(** *** run *)

Definition segment_all (video_name : string) (seg_s : Z) (reps : gmap Z string)
    (seg_info_all : gmap Z (gmap Z seg_entry)) (r : Z)
    : M (gmap Z (gmap Z seg_entry)) :=
  let! rep := lift (lookup_key r reps) in
  let! si := segment_rep video_name rep r seg_s in
  ret (<[r := si]> seg_info_all).

Definition run (args : Args) : M unit :=
  let video_name := arg_video args in
  let! _ := ensure_dir "videos" in
  let! _ := ensure_dir ("videos/" +:+ video_name +:+ "/tmp") in
  let! _ := ensure_dir ("videos/" +:+ video_name +:+ "/tracks") in
  let! reps :=
    transcode_h264_reps (arg_input args) ("videos/" +:+ video_name +:+ "/tmp")
      (arg_rates args) (arg_fps args) (arg_segment args) in
  let! seg_info_all :=
    for_each (arg_rates args) (segment_all video_name (arg_segment args) reps) ∅ in
  let! info := build_common_manifest video_name (arg_rates args) in
  if arg_vmaf args
  then
    let! _ := compute_vmaf video_name (arg_rates args) reps seg_info_all info in
    ret tt
  else ret tt.

End Pipeline.

(** ** Declarative readings used by the statements *)

(** The numeric values stored under a score key, in depth-first order: the
    items of a dictionary in their order, the elements of a list in
    theirs. *)
Fixpoint score_values (x : json) : list json :=
  match x with
  | JDict kvs =>
      (fix items (l : list (string * json)) : list json :=
         match l with
         | [] => []
         | (k, val) :: l' =>
             (if is_score_key k && is_number val then [val] else score_values val)
             ++ items l'
         end) kvs
  | JList l =>
      (fix elems (l : list json) : list json :=
         match l with
         | [] => []
         | it :: l' => score_values it ++ elems l'
         end) l
  | _ => []
  end.

(** Whether some key, at any depth, is spelled like a score key. *)
Fixpoint has_score_key (x : json) : bool :=
  match x with
  | JDict kvs =>
      (fix items (l : list (string * json)) : bool :=
         match l with
         | [] => false
         | (k, val) :: l' => is_score_key k || has_score_key val || items l'
         end) kvs
  | JList l =>
      (fix elems (l : list json) : bool :=
         match l with
         | [] => false
         | it :: l' => has_score_key it || elems l'
         end) l
  | _ => false
  end.

(** What [walk] returns, read off the depth-first list of candidates. *)
Definition first_score (L : PyLib) (x : json) : result (option float) :=
  match score_values x with
  | [] => Ok None
  | c :: _ => let? f := py_float L c in Ok (Some f)
  end.

(** ** A sample library and a sample world

    A small concrete instance of the parameters, on which the statements
    below are exercised: every path is a file whose text is its own name,
    the segmenter reports two chunks per representation, and the fragment
    of a representation carries its frame size. *)

(** Reads the decimal digits at the head of a string. *)
Fixpoint sample_digits (s : string) (acc : option Z) : option Z :=
  match s with
  | EmptyString => acc
  | String c s' =>
      let n := nat_of_ascii c in
      if ((48 <=? n)%nat && (n <=? 57)%nat)%bool
      then sample_digits s' (Some (10 * default 0 acc + (Z.of_nat n - 48)))
      else acc
  end.

(** The text of a float with one digit after the point, the further digits
    cut off: for a multiple of 0.5 below 10^16 this is the text that Python
    prints. *)
Definition sample_str_float (f : float) : string :=
  match Prim2SF f with
  | S754_zero sign => if sign then "-0.0" else "0.0"
  | S754_infinity sign => if sign then "-inf" else "inf"
  | S754_nan => "nan"
  | S754_finite sign m e =>
      let tenths :=
        if decide (0 <= e) then 10 * Z.pos m * 2 ^ e else (10 * Z.pos m) / 2 ^ (- e) in
      (if sign then "-" else EmptyString)
      +:+ pretty (tenths / 10) +:+ "." +:+ pretty (tenths mod 10)
  end.

Definition sample_fragment (w h : string) : element :=
  Element "MPD" [] EmptyString EmptyString
    [ Element "ProgramInformation" [] EmptyString EmptyString [];
      Element "Period" [] EmptyString EmptyString
        [ Element "AdaptationSet" [("segmentAlignment", "true")] EmptyString EmptyString
            [ Element "SegmentTemplate" [("media", "$Number$.m4s"); ("startNumber", "1")] EmptyString EmptyString [];
              Element "Representation" [("id", "1"); ("width", w); ("height", h)] EmptyString EmptyString [] ] ] ].

Definition sample_tree (text : string) : element :=
  if contains "video_600" text then sample_fragment "1280" "720"
  else sample_fragment "640" "360".

Definition sample_lib : PyLib := {|
  int_of_str := fun s => sample_digits s None;
  float_of_str := fun _ => None;
  repr_str := fun s => "'" +:+ s +:+ "'";
  str_float := sample_str_float;
  xml_parse := fun text => Some (sample_tree text);
  xml_tostring := fun e => tag_of e;
  json_loads := fun _ => Some (JDict [("aggregate", JDict [("VMAF_score", JFloat 87.5)])]);
  json_dumps := fun _ => "{}"
|}.

Definition sample_sidx (cmd : string) : string :=
  "<SegmentIndexBox timescale=" +:+ quoted "1000"
  +:+ " earliest_presentation_time="
  +:+ quoted (if contains "/2.m4s" cmd then "5000" else "0") +:+ ">".

Definition sample_shell (cmd : string) : string :=
  if contains "wc -l" cmd then "2"
  else if contains "SegmentIndexBox" cmd then sample_sidx cmd
  else EmptyString.

(** The world is the list of the regular files that exist. *)
Definition sample_os : OS (list string) := {|
  sh := fun cmd w => (Some (sample_shell cmd), w);
  isfile := fun p w => bool_decide (p ∈ w);
  makedirs := fun _ w => Some w;
  abspath := fun p _ => "/work/" +:+ p;
  read_file := fun p _ => Some p;
  write_file := fun _ _ w => Some w
|}.

(** A world that is the list of the files with their text: a file can be
    absent, and reading gives what was written last. *)
Definition sample_fs_os : OS (list (string * string)) := {|
  sh := fun cmd w => (Some (sample_shell cmd), w);
  isfile := fun p w => bool_decide (p ∈ w.*1);
  makedirs := fun _ w => Some w;
  abspath := fun p _ => "/work/" +:+ p;
  read_file := fun p w => assoc_get p w;
  write_file := fun p c w => Some (assoc_set p c w)
|}.

(** The text of a fragment as MP4Box leaves it, with a line to remove. *)
Definition sample_mpd (rate : string) : string :=
  "<MPD video_" +:+ rate +:+ ">" +:+ nl
  +:+ "<Initialization sourceURL=init.mp4/>" +:+ nl +:+ "</MPD>".

(** The fragments of video [v] at 300 and 600 kbps after segmentation. *)
Definition sample_tracks : state (list (string * string)) :=
  State [ ("videos/v/tracks/video_300/intermediate_dash.mpd", sample_mpd "300");
          ("videos/v/tracks/video_600/intermediate_dash.mpd", sample_mpd "600") ] [].

(** The file named by the last quoted word of a command. *)
Definition sample_output (cmd : string) : option string :=
  let pieces := split dq cmd in
  pieces !! (length pieces - 2)%nat.

(** A world, again the list of the files that exist, in which an [ffmpeg]
    command creates its output file. *)
Definition sample_encoding_os : OS (list string) := {|
  sh := fun cmd w =>
          (Some (sample_shell cmd),
           if String.prefix "ffmpeg " cmd
           then match sample_output cmd with
                | Some out => out :: w
                | None => w
                end
           else w);
  isfile := isfile sample_os;
  makedirs := makedirs sample_os;
  abspath := abspath sample_os;
  read_file := read_file sample_os;
  write_file := write_file sample_os
|}.


(** A world in which nothing has been produced yet. *)
Definition sample_fresh : state (list string) :=
  State [ "./deps/vmaf/libvmaf/build/tools/vmafossexec";
          "./deps/vmaf/model/vmaf_v0.6.1.json" ] [].


Definition sample_starts (l : list (Z * float)) : gmap Z seg_entry :=
  list_to_map (map (fun kf => (fst kf, SegEntry (snd kf) None)) l).

(** The identifiers of the representation nodes among [cs], in document
    order. *)
Definition representation_ids (cs : list element) : list (option string) :=
  map (attr_get "id") (List.filter is_representation cs).

(** [logs P m]: whatever the state, the commands that [m] runs are recorded
    in front of the earlier ones and all satisfy [P]. *)
Definition logs {World A} (P : string * option string -> Prop) (m : M World A) : Prop :=
  forall s, exists new, log (m s).2 = new ++ log s /\ Forall P new.

(** [chunk_read L dir lg n e]: the record [lg] holds the index box text of
    chunk [n], and the entry [e] is the quotient of the two integers parsed
    from it. *)
Definition chunk_read (L : PyLib) (segment_dir : string)
    (lg : list (string * option string)) (n : Z) (e : seg_entry) : Prop :=
  exists raw ts ea timescale earliest,
    (sidx_cmd segment_dir n, Some raw) ∈ lg
    /\ get_attr raw "timescale" = Ok ts
    /\ int_of_str L ts = Some timescale
    /\ get_attr raw "earliest_presentation_time" = Ok ea
    /\ int_of_str L ea = Some earliest
    /\ truediv earliest timescale = Ok (start_time e)
    /\ vmaf e = None.

(** The representation at bitrate [r] has exactly one segment, numbered 1. *)
Definition single_segment (r : Z) (seg_info : gmap Z (gmap Z seg_entry)) : Prop :=
  exists si a,
    seg_info !! r = Some si /\ si !! 1 = Some a /\ forall k, k <> 1 -> si !! k = None.

(** A well-formed fragment: [tree[1][0]] exists and has exactly one child
    whose tag contains "Representation", with integer [width] and [height]
    attributes. *)
Definition fragment_ok (L : PyLib) (tree : element) : Prop :=
  exists period root rep w h,
    subelement tree 1 = Ok period
    /\ subelement period 0 = Ok root
    /\ List.filter is_representation (children_of root) = [rep]
    /\ int_attr L "width" rep = Ok w
    /\ int_attr L "height" rep = Ok h.

(** The identifier that the bitrate [r] gets among [rates]. *)
Definition has_rank_id (rates : list Z) (r : Z) (id : option string) : Prop :=
  exists k, rank rates r = Ok k /\ id = Some (rep_id k).

(** [merged_ok rates done base]: the representation nodes under
    [base[1][0]] are those of the bitrates [done], in that order, each with
    its rank identifier, and the first child of [base[1][0]] carries the
    representation-relative segment template. *)
Definition merged_ok (rates done : list Z) (base : element) : Prop :=
  exists period aset template,
    subelement base 1 = Ok period
    /\ subelement period 0 = Ok aset
    /\ Forall2 (has_rank_id rates) done (representation_ids (children_of aset))
    /\ children_of aset !! 0%nat = Some template
    /\ attr_get "initialization" template = Some "$RepresentationID$/init.mp4"
    /\ attr_get "media" template = Some "$RepresentationID$/$Number$.m4s".

(** [fragments_loaded L os tracks_dir P l s]: starting in state [s], the
    fragments of the bitrates [l] can be loaded one after the other, each
    load starting in the state that the previous one left, and every tree
    obtained satisfies [P]. *)
Fixpoint fragments_loaded {World : Type} (L : PyLib) (os : OS World) (tracks_dir : string)
    (P : element -> Prop) (l : list Z) (s : state World) : Prop :=
  match l with
  | [] => True
  | r :: l' =>
      exists tree s1,
        load_fragment L os (manifest_path tracks_dir r) s = (Ok tree, s1)
        /\ P tree
        /\ fragments_loaded L os tracks_dir P l' s1
  end.

(** ** Readings of the string functions *)

(** [s[n:]] *)
Fixpoint string_drop (n : nat) (s : string) : string :=
  match n, s with
  | O, _ => s
  | S n', String _ s' => string_drop n' s'
  | S _, EmptyString => EmptyString
  end.

(** The first occurrence of [sep] in [s]: the text before it and the text
    after it, as [s.partition(sep)] gives them; [None] when [sep] does not
    occur. *)
Fixpoint partition (sep s : string) : option (string * string) :=
  match s with
  | EmptyString => None
  | String c s' =>
      if String.prefix sep s
      then Some (EmptyString, string_drop (String.length sep) s)
      else match partition sep s' with
           | Some (a, b) => Some (String c a, b)
           | None => None
           end
  end.

(** The text of [s] before the first occurrence of [sep], all of [s] when
    there is none. *)
Definition before (sep s : string) : string :=
  match partition sep s with
  | Some (a, _) => a
  | None => s
  end.

(** What [get_attr] reads: after the first occurrence of [attr], and before
    the next one, the text between the first two double quotes. *)
Definition scan_attr (raw attr : string) : option string :=
  match partition attr raw with
  | None => None
  | Some (_, rest) =>
      match partition dq (before attr rest) with
      | None => None
      | Some (_, tail) => Some (before dq tail)
      end
  end.


(** A world like the sample one in which the encoder fails at 600 kbps. *)
Definition sample_os_failing : OS (list string) := {|
  sh := fun cmd w =>
          (if contains "-b:v 600k" cmd then None else Some (sample_shell cmd), w);
  isfile := isfile sample_os;
  makedirs := makedirs sample_os;
  abspath := abspath sample_os;
  read_file := read_file sample_os;
  write_file := write_file sample_os
|}.

(** ** Readings of the quality step *)

(** The command of [convert_to_yuv]. *)
Definition convert_cmd (video_name mp4_path : string) (width height : Z) (tag : string)
    : string :=
  "ffmpeg -y -i " +:+ quoted mp4_path
  +:+ " -pix_fmt yuv420p -vsync 0 -vf scale="
  +:+ pretty width +:+ ":" +:+ pretty height +:+ " "
  +:+ quoted ("videos/" +:+ video_name +:+ "/yuv/" +:+ tag +:+ ".yuv").

(** The raw video of a representation, as [convert_to_yuv] names it. *)
Definition yuv_path (video_name : string) (rate : Z) : string :=
  "videos/" +:+ video_name +:+ "/yuv/" +:+ ("video_" +:+ pretty rate) +:+ ".yuv".

(** The four commands that [compute_vmaf] runs for one segment, for the
    window [win] (start offset and duration). *)
Definition segment_commands (L : PyLib) (w h : Z) (cur_yuv ref_yuv : string)
    (win : float * float) : list string :=
  [ cut_cmd L w h cur_yuv win.1 win.2 "cut1.yuv";
    cut_cmd L w h ref_yuv win.1 win.2 "cut2.yuv";
    vmaf_cmd w h;
    "rm -f cut1.yuv cut2.yuv vmaf_out.json || true" ].

(** [seg_info[rate][seg]] when both keys are present. *)
Definition seg_entry_at (seg_info : gmap Z (gmap Z seg_entry)) (rate seg : Z)
    : option seg_entry :=
  match seg_info !! rate with
  | Some si => si !! seg
  | None => None
  end.

(** The segment has a score. *)
Definition scored (seg_info : gmap Z (gmap Z seg_entry)) (rate seg : Z) : Prop :=
  exists e, seg_entry_at seg_info rate seg = Some e /\ is_Some (vmaf e).

(** [keeps a b]: [b] has the bitrates, the segments and the start times of
    [a], and every score of [a] is still a score in [b]. *)
Definition keeps (a b : gmap Z (gmap Z seg_entry)) : Prop :=
  (forall rate seg,
     start_time <$> seg_entry_at b rate seg = start_time <$> seg_entry_at a rate seg)
  /\ (forall rate, is_Some (b !! rate) <-> is_Some (a !! rate))
  /\ (forall rate seg, scored a rate seg -> scored b rate seg).

(** The commands that a run without quality scoring may issue. *)
Definition preparation_command (src_mp4 out_dir : string) (rates : list Z) (fps gop : Z)
    (e : string * option string) : Prop :=
  (exists r, r ∈ rates /\ e.1 = encode_cmd src_mp4 (rep_path out_dir r) fps gop r)
  \/ String.prefix "rm -rf " e.1 = true
  \/ String.prefix "cd " e.1 = true
  \/ String.prefix "mv " e.1 = true
  \/ String.prefix "ls " e.1 = true
  \/ String.prefix "MP4Box -std -diso " e.1 = true.

(** * Properties *)

(** ** The helper functions on concrete inputs *)

Example split_on_separator :
  split "," "a,b," = ["a"; "b"; EmptyString]
  /\ split "aa" "aaa" = [EmptyString; "a"]
  /\ split "ab" "xxabyyabab" = ["xx"; "yy"; EmptyString; EmptyString].
Proof. repeat split; reflexivity. Qed.

Example get_attr_of_index_box :
  get_attr (sample_sidx "x/2.m4s") "timescale" = Ok "1000"
  /\ get_attr (sample_sidx "x/2.m4s") "earliest_presentation_time" = Ok "5000"
  /\ get_attr (sample_sidx "x/2.m4s") "duration" = Raise IndexError.
Proof. repeat split; reflexivity. Qed.

Example truediv_values :
  truediv 61440 12288 = Ok 5%float
  /\ truediv 1 3 = Ok (1 / 3)%float
  /\ truediv 7 (-2) = Ok (-3.5)%float
  /\ truediv (2 ^ 54 + 2) 2 = Ok 9007199254740992%float
  /\ truediv (2 ^ 54 + 6) 2 = Ok 9007199254740996%float
  /\ truediv 5 0 = Raise ZeroDivisionError
  /\ truediv (10 ^ 400) 1 = Raise OverflowError.
Proof. repeat split; reflexivity. Qed.

Example float_of_Z_values :
  float_of_Z 77 = Ok 77%float
  /\ float_of_Z (2 ^ 53 + 1) = Ok 9007199254740992%float
  /\ float_of_Z (2 ^ 1024) = Raise OverflowError.
Proof. repeat split; reflexivity. Qed.

Example lower_and_contains :
  lower "VMAF_Score" = "vmaf_score"
  /\ contains "Representation" "{urn:mpeg:dash:schema:mpd:2011}Representation" = true
  /\ contains "Representation" "SegmentTemplate" = false.
Proof. repeat split; reflexivity. Qed.

Example path_join_values :
  path_join "videos/v/tmp" "rep_300.mp4" = "videos/v/tmp/rep_300.mp4"
  /\ path_join "videos/v/tmp/" "rep_300.mp4" = "videos/v/tmp/rep_300.mp4"
  /\ path_join EmptyString "rep_300.mp4" = "rep_300.mp4".
Proof. repeat split; reflexivity. Qed.

Example strip_initialization_lines :
  strip_initialization ("<a>" +:+ nl +:+ " <Initialization x/>" +:+ nl +:+ "</a>")
  = "<a>" +:+ nl +:+ "</a>".
Proof. reflexivity. Qed.

Example sorted_index_values :
  sorted [600; 300; 1200; 300] = [300; 300; 600; 1200]
  /\ index 600 [300; 300; 600; 1200] = Ok 2%nat
  /\ index 900 [300; 300; 600; 1200] = Raise ValueError.
Proof. repeat split; reflexivity. Qed.

Example walk_is_depth_first :
  walk sample_lib
    (JDict [("a", JList [JDict [("vmaf", JDict [("VMAF", JInt 1)])]; JDict [("vmaf", JInt 2)]]);
            ("vmaf_score", JInt 3)])
  = Ok (Some 1%float)
  /\ walk sample_lib (JDict [("vmaf", JBool true)]) = Ok (Some 1%float)
  /\ walk sample_lib (JDict [("vmaf", JInt (10 ^ 400))]) = Raise OverflowError
  /\ walk sample_lib (JDict [("vmaf", JStr "90")]) = Ok None.
Proof. repeat split; reflexivity. Qed.

(** ** Score extraction *)

Section JsonInduction.
Variable P : json -> Prop.
Hypothesis Hnull : P JNull.
Hypothesis Hbool : forall b, P (JBool b).
Hypothesis Hint : forall z, P (JInt z).
Hypothesis Hfloat : forall f, P (JFloat f).
Hypothesis Hstr : forall s, P (JStr s).
Hypothesis Hlist : forall l, Forall P l -> P (JList l).
Hypothesis Hdict : forall kvs, Forall (fun kv => P (snd kv)) kvs -> P (JDict kvs).

Fixpoint json_nested_ind (x : json) : P x :=
  match x with
  | JNull => Hnull
  | JBool b => Hbool b
  | JInt z => Hint z
  | JFloat f => Hfloat f
  | JStr s => Hstr s
  | JList l =>
      Hlist l
        ((fix go (l : list json) : Forall P l :=
            match l with
            | [] => @List.Forall_nil _ P
            | y :: l' => @List.Forall_cons _ P y l' (json_nested_ind y) (go l')
            end) l)
  | JDict kvs =>
      Hdict kvs
        ((fix go (l : list (string * json)) : Forall (fun kv => P (snd kv)) l :=
            match l with
            | [] => @List.Forall_nil _ _
            | kv :: l' =>
                @List.Forall_cons _ (fun kv => P (snd kv)) kv l' (json_nested_ind (snd kv)) (go l')
            end) kvs)
  end.
End JsonInduction.

Section ExtractProps.
Context (L : PyLib).


Lemma walk_first_score (x : json) : walk L x = first_score L x.
Proof.
  unfold first_score.
  induction x as [| b | z | f | s | l IH | kvs IH] using json_nested_ind; try reflexivity.
  - simpl. induction IH as [| y l' Hy _ IHl]; [reflexivity |].
    rewrite Hy. destruct (score_values y) as [| c cs] eqn:E.
    + simpl. apply IHl.
    + simpl. destruct (py_float L c); reflexivity.
  - simpl. induction IH as [| [k val] l' Hy _ IHl]; [reflexivity |].
    simpl in Hy.
    destruct (is_score_key k && is_number val) eqn:Hk.
    + simpl. reflexivity.
    + rewrite Hy. destruct (score_values val) as [| c cs] eqn:E.
      * simpl. apply IHl.
      * simpl. destruct (py_float L c); reflexivity.
Qed.

Lemma dict_get_In (k : string) (kvs : list (string * json)) (x : json) :
  dict_get k kvs = Some x -> In (k, x) kvs.
Proof.
  induction kvs as [| [k' v] kvs IH]; simpl; [discriminate |].
  destruct (decide (k' = k)) as [-> | _].
  - intros [= ->]. now left.
  - intros H. right. now apply IH.
Qed.

Lemma has_score_key_items (kvs : list (string * json)) (k : string) (x : json) :
  has_score_key (JDict kvs) = false -> In (k, x) kvs ->
  is_score_key k = false /\ has_score_key x = false.
Proof.
  induction kvs as [| [k' v] kvs IH]; simpl; [intros _ [] |].
  intros H [Hin | Hin].
  - injection Hin as -> ->.
    apply orb_false_iff in H as [H _]. apply orb_false_iff in H. exact H.
  - apply orb_false_iff in H as [_ H]. now apply IH.
Qed.

Lemma no_score_key_no_candidates (x : json) :
  has_score_key x = false -> score_values x = [].
Proof.
  induction x as [| b | z | f | s | l IH | kvs IH] using json_nested_ind; try reflexivity.
  - simpl. induction IH as [| y l' Hy _ IHl]; [reflexivity |].
    intros H. apply orb_false_iff in H as [H1 H2].
    rewrite (Hy H1). simpl. now apply IHl.
  - simpl. induction IH as [| [k val] l' Hy _ IHl]; [reflexivity |].
    simpl in Hy. intros H.
    apply orb_false_iff in H as [H H3]. apply orb_false_iff in H as [H1 H2].
    rewrite H1. simpl. rewrite (Hy H2). simpl. now apply IHl.
Qed.

Lemma no_score_key_get (kvs : list (string * json)) (k : string) (x : json) :
  has_score_key (JDict kvs) = false -> is_score_key k = true ->
  dict_get k kvs = Some x -> False.
Proof.
  intros H Hk Hg. apply dict_get_In in Hg.
  destruct (has_score_key_items kvs k x H Hg) as [Hk' _]. congruence.
Qed.

Lemma no_score_key_sub (kvs : list (string * json)) (k : string) (x : json) :
  has_score_key (JDict kvs) = false -> dict_get k kvs = Some x ->
  has_score_key x = false.
Proof.
  intros H Hg. apply dict_get_In in Hg.
  now destruct (has_score_key_items kvs k x H Hg).
Qed.

Lemma no_score_key_no_schema (v : json) :
  has_score_key v = false ->
  schema_aggregate L v = None /\ schema_pooled L v = None /\ schema_metrics L v = None.
Proof.
  intros H. destruct v as [| | | | | l | kvs]; try (repeat split; reflexivity).
  repeat split.
  - unfold schema_aggregate.
    destruct (dict_get "aggregate" kvs) as [[| | | | | | agg] |] eqn:E; try reflexivity.
    pose proof (no_score_key_sub _ _ _ H E) as Hagg.
    destruct (dict_get "VMAF_score" agg) eqn:E1.
    { exfalso. now apply (no_score_key_get agg "VMAF_score" j Hagg). }
    destruct (dict_get "VMAF" agg) eqn:E2.
    { exfalso. now apply (no_score_key_get agg "VMAF" j Hagg). }
    reflexivity.
  - unfold schema_pooled.
    destruct (dict_get "pooled_metrics" kvs) as [[| | | | | | pm] |] eqn:E; try reflexivity.
    pose proof (no_score_key_sub _ _ _ H E) as Hpm.
    destruct (dict_get "vmaf" pm) eqn:E1; [| reflexivity].
    exfalso. now apply (no_score_key_get pm "vmaf" j Hpm).
  - unfold schema_metrics.
    destruct (dict_get "metrics" kvs) as [[| | | | | | m] |] eqn:E; try reflexivity.
    pose proof (no_score_key_sub _ _ _ H E) as Hm.
    destruct (dict_get "vmaf" m) eqn:E1; [| reflexivity].
    exfalso. now apply (no_score_key_get m "vmaf" j Hm).
Qed.

End ExtractProps.

(** C1: [extract_vmaf_score] tries the schemas in a fixed order and returns
    the matched scalar.  The three reports of the specification yield 87.5,
    90.1 and 77.0.  In general: an [aggregate] object with a [VMAF_score]
    key, else a [VMAF] key, decides first; then [pooled_metrics.vmaf] with
    the first of mean, harmonic_mean, min, max that is present; then
    [metrics.vmaf.mean]; and when no schema applies the result is the first
    numeric value under a key that lower-cases to [vmaf_score] or [vmaf], in
    depth-first order (dictionary items in their order, list elements in
    theirs). *)
Theorem extract_vmaf_score_schema_order (L : PyLib) :
  extract_vmaf_score L (JDict [("aggregate", JDict [("VMAF_score", JFloat 87.5)])])
    = Ok 87.5%float
  /\ extract_vmaf_score L
       (JDict [("pooled_metrics",
                JDict [("vmaf", JDict [("mean", JFloat 90.1);
                                       ("harmonic_mean", JFloat 88.0)])])])
     = Ok 90.1%float
  /\ extract_vmaf_score L (JDict [("foo", JDict [("bar", JList [JDict [("VMAF", JFloat 77.0)]])])])
     = Ok 77.0%float
  /\ (forall kvs agg x,
        dict_get "aggregate" kvs = Some (JDict agg) ->
        first_present ["VMAF_score"; "VMAF"] agg = Some x ->
        extract_vmaf_score L (JDict kvs) = py_float L x)
  /\ (forall kvs pm vv x,
        schema_aggregate L (JDict kvs) = None ->
        dict_get "pooled_metrics" kvs = Some (JDict pm) ->
        dict_get "vmaf" pm = Some (JDict vv) ->
        first_present ["mean"; "harmonic_mean"; "min"; "max"] vv = Some x ->
        extract_vmaf_score L (JDict kvs) = py_float L x)
  /\ (forall kvs m vv x,
        schema_aggregate L (JDict kvs) = None ->
        schema_pooled L (JDict kvs) = None ->
        dict_get "metrics" kvs = Some (JDict m) ->
        dict_get "vmaf" m = Some (JDict vv) ->
        dict_get "mean" vv = Some x ->
        extract_vmaf_score L (JDict kvs) = py_float L x)
  /\ (forall v c cs,
        schema_aggregate L v = None ->
        schema_pooled L v = None ->
        schema_metrics L v = None ->
        score_values v = c :: cs ->
        is_number c = true /\ extract_vmaf_score L v = py_float L c).
Proof.
  split; [reflexivity |]. split; [reflexivity |]. split; [reflexivity |].
  split; [| split; [| split]].
  - intros kvs agg x Hagg Hx. unfold extract_vmaf_score, schema_aggregate.
    rewrite Hagg. simpl in Hx.
    destruct (dict_get "VMAF_score" agg); [now inversion Hx |].
    destruct (dict_get "VMAF" agg); [now inversion Hx | discriminate].
  - intros kvs pm vv x Hno Hpm Hvv Hx. unfold extract_vmaf_score.
    rewrite Hno. unfold schema_pooled. rewrite Hpm, Hvv, Hx. reflexivity.
  - intros kvs m vv x Hno1 Hno2 Hm Hvv Hx. unfold extract_vmaf_score.
    rewrite Hno1, Hno2. unfold schema_metrics. rewrite Hm, Hvv, Hx. reflexivity.
  - intros v c cs H1 H2 H3 Hc. split.
    + clear H1 H2 H3. revert c cs Hc.
      induction v as [| b | z | f | s | l IH | kvs IH] using json_nested_ind;
        try discriminate.
      * simpl. induction IH as [| y l' Hy _ IHl]; [discriminate |].
        intros c cs Hc. destruct (score_values y) as [| c' cs'] eqn:E.
        -- simpl in Hc. now apply (IHl c cs).
        -- simpl in Hc. injection Hc as -> _. now apply (Hy c cs').
      * simpl. induction IH as [| [k val] l' Hy _ IHl]; [discriminate |].
        intros c cs Hc. simpl in Hy.
        destruct (is_score_key k && is_number val) eqn:Hk.
        -- simpl in Hc. injection Hc as -> _.
           now apply andb_true_iff in Hk as [_ Hk].
        -- destruct (score_values val) as [| c' cs'] eqn:E.
           ++ simpl in Hc. now apply (IHl c cs).
           ++ simpl in Hc. injection Hc as -> _. now apply (Hy c cs').
    + unfold extract_vmaf_score. rewrite H1, H2, H3, walk_first_score.
      unfold first_score. rewrite Hc. simpl. destruct (py_float L c); reflexivity.
Qed.

Lemma extract_vmaf_score_schema_order_witness :
  extract_vmaf_score sample_lib
    (JDict [("aggregate", JDict [("note", JNull); ("VMAF", JInt 70)])]) = Ok 70%float
  /\ extract_vmaf_score sample_lib
       (JDict [("aggregate", JDict []);
               ("pooled_metrics", JDict [("vmaf", JDict [("max", JInt 99); ("min", JInt 12)])])])
     = Ok 12%float
  /\ extract_vmaf_score sample_lib
       (JDict [("metrics", JDict [("vmaf", JDict [("mean", JFloat 55.5)])])]) = Ok 55.5%float
  /\ extract_vmaf_score sample_lib
       (JList [JDict [("vmaf", JStr "n/a"); ("x", JList [JDict [("Vmaf_Score", JInt 3)]])];
               JDict [("VMAF", JInt 4)]])
     = Ok 3%float.
Proof.
  destruct (extract_vmaf_score_schema_order sample_lib)
    as (_ & _ & _ & Hagg & Hpooled & Hmetrics & Hwalk).
  split; [| split; [| split]].
  - apply (Hagg _ [("note", JNull); ("VMAF", JInt 70)] (JInt 70)); reflexivity.
  - apply (Hpooled _ [("vmaf", JDict [("max", JInt 99); ("min", JInt 12)])]
             [("max", JInt 99); ("min", JInt 12)] (JInt 12)); reflexivity.
  - apply (Hmetrics _ [("vmaf", JDict [("mean", JFloat 55.5)])]
             [("mean", JFloat 55.5)] (JFloat 55.5)); reflexivity.
  - apply (Hwalk _ (JInt 3) [JInt 4]); reflexivity.
Defined.

(** C5: when no schema applies and no numeric value sits under a score key,
    [extract_vmaf_score] raises a [KeyError] whose message lists the
    top-level keys of a dictionary, or gives the type of any other value.
    This is in particular the case of a report in which no key at all is
    spelled like a score key. *)
Theorem extract_vmaf_score_not_found (L : PyLib) (v : json) :
  (schema_aggregate L v = None /\ schema_pooled L v = None /\ schema_metrics L v = None
   /\ score_values v = [])
  \/ has_score_key v = false ->
  extract_vmaf_score L v =
    Raise (KeyError
             ("Could not find VMAF score in JSON. Top-level keys: "
              +:+ match v with
                  | JDict kvs =>
                      "[" +:+ join ", " (map (fun kv => repr_str L (fst kv)) kvs) +:+ "]"
                  | _ => type_repr v
                  end)).
Proof.
  intros H.
  assert (schema_aggregate L v = None /\ schema_pooled L v = None
          /\ schema_metrics L v = None /\ score_values v = [])
    as (H1 & H2 & H3 & H4).
  { destruct H as [H | H]; [exact H |].
    destruct (no_score_key_no_schema L v H) as (? & ? & ?).
    repeat split; try assumption. now apply no_score_key_no_candidates. }
  unfold extract_vmaf_score. rewrite H1, H2, H3, walk_first_score.
  unfold first_score. rewrite H4. simpl.
  unfold no_score_message, top_level, keys_repr. destruct v; reflexivity.
Qed.

Lemma extract_vmaf_score_not_found_witness :
  extract_vmaf_score sample_lib (JDict [("frames", JList [JDict [("psnr", JFloat 40)]]);
                                        ("version", JStr "2.3")])
    = Raise (KeyError
               "Could not find VMAF score in JSON. Top-level keys: ['frames', 'version']")
  /\ extract_vmaf_score sample_lib (JList [JInt 1; JDict [("vmaf", JStr "high")]])
     = Raise (KeyError "Could not find VMAF score in JSON. Top-level keys: <class 'list'>").
Proof.
  split.
  - apply (extract_vmaf_score_not_found sample_lib
             (JDict [("frames", JList [JDict [("psnr", JFloat 40)]]); ("version", JStr "2.3")])).
    right. reflexivity.
  - apply (extract_vmaf_score_not_found sample_lib
             (JList [JInt 1; JDict [("vmaf", JStr "high")]])).
    left. repeat split; reflexivity.
Defined.

(** ** Rank identifiers *)

Section RankProps.
Implicit Types (l s rates : list Z) (x y r : Z) (k : nat).

Lemma index_lookup x l k : index x l = Ok k -> l !! k = Some x.
Proof.
  revert k. induction l as [| y l IH]; simpl; [discriminate |].
  intros k. destruct (decide (y = x)) as [-> | Hne].
  - now intros [= <-].
  - destruct (index x l) as [i |]; simpl; [| discriminate].
    intros [= <-]. now apply IH.
Qed.

Lemma index_absent x l : x ∉ l -> index x l = Raise ValueError.
Proof.
  induction l as [| y l IH]; simpl; [reflexivity |].
  intros Hx. apply not_elem_of_cons in Hx as [Hne Hx].
  destruct (decide (y = x)); [congruence |]. now rewrite IH.
Qed.

Lemma index_present x l : x ∈ l -> exists k, index x l = Ok k.
Proof.
  induction l as [| y l IH]; [intros H; inversion H |].
  intros Hx. simpl. destruct (decide (y = x)) as [-> | Hne]; [now exists O |].
  apply elem_of_cons in Hx as [-> | Hx]; [congruence |].
  destruct (IH Hx) as [k ->]. now exists (S k).
Qed.

Lemma filter_below_none x s :
  Forall (Z.le x) s -> filter (fun y => y < x) s = [].
Proof.
  induction 1 as [| y s Hy _ IH]; [reflexivity |].
  rewrite filter_cons_False by lia. exact IH.
Qed.

(** In a sorted list the first position of [x] is the number of elements
    below [x]. *)
Lemma index_sorted_count x s :
  StronglySorted Z.le s -> x ∈ s ->
  index x s = Ok (length (filter (fun y => y < x) s)).
Proof.
  induction 1 as [| y s Hs IH Hy]; [intros H; inversion H |].
  intros Hx. simpl. destruct (decide (y = x)) as [-> | Hne].
  - rewrite filter_cons_False by lia. now rewrite filter_below_none.
  - apply elem_of_cons in Hx as [-> | Hx]; [congruence |].
    assert (y <= x) as Hle.
    { rewrite Forall_forall in Hy. now apply Hy. }
    rewrite filter_cons_True by lia. rewrite (IH Hx). reflexivity.
Qed.

Lemma sorted_perm rates : sorted rates ≡ₚ rates.
Proof. apply merge_sort_Permutation. Qed.

Lemma sorted_strongly rates : StronglySorted Z.le (sorted rates).
Proof.
  apply StronglySorted_merge_sort.
  - intros a b c. apply Z.le_trans.
  - intros a b. apply Z.le_ge_cases.
Qed.

(** The rank of a requested bitrate is the number of requested bitrates
    below it. *)
Lemma rank_count rates r :
  r ∈ rates -> rank rates r = Ok (length (filter (fun y => y < r) rates)).
Proof.
  intros Hr. unfold rank.
  rewrite index_sorted_count.
  - f_equal. apply Permutation_length. now rewrite sorted_perm.
  - apply sorted_strongly.
  - now rewrite sorted_perm.
Qed.

Lemma rank_absent rates r : r ∉ rates -> rank rates r = Raise ValueError.
Proof. intros Hr. apply index_absent. now rewrite sorted_perm. Qed.

Lemma rank_permutation rates rates' r :
  rates' ≡ₚ rates -> rank rates' r = rank rates r.
Proof.
  intros Hp. destruct (decide (r ∈ rates)) as [Hr | Hr].
  - rewrite !rank_count by (try rewrite Hp; assumption).
    f_equal. apply Permutation_length. now rewrite Hp.
  - rewrite !rank_absent by (try rewrite Hp; assumption). reflexivity.
Qed.

Lemma index_nodup_lookup l k x : NoDup l -> l !! k = Some x -> index x l = Ok k.
Proof.
  intros Hnd. revert k. induction Hnd as [| y l Hy Hnd IH]; intros k; [discriminate |].
  destruct k as [| k]; simpl.
  - intros [= ->]. now destruct (decide (x = x)).
  - intros Hk. destruct (decide (y = x)) as [-> | Hne].
    + exfalso. apply Hy. apply list_elem_of_lookup. eauto.
    + now rewrite (IH k Hk).
Qed.

Lemma rep_id_inj k1 k2 : rep_id k1 = rep_id k2 -> k1 = k2.
Proof.
  unfold rep_id. intros H. apply String.app_inj in H. now apply pretty_nat_inj in H.
Qed.

End RankProps.

(** ** The state and error monad *)

Section MonadProps.
Context {World : Type} (os : OS World).
Implicit Types (s : state World) (P : string * option string -> Prop).

Lemma bind_ok_inv {A B} (m : M World A) (k : A -> M World B) s b s' :
  bind m k s = (Ok b, s') ->
  exists a s1, m s = (Ok a, s1) /\ k a s1 = (Ok b, s').
Proof.
  unfold bind. destruct (m s) as [[a | e] s1]; [| discriminate].
  intros H. now exists a, s1.
Qed.

Lemma lift_ok_inv {A} (r : result A) s a s' :
  lift r s = (Ok a, s') -> r = Ok a /\ s' = s.
Proof. unfold lift. now intros [= -> ->]. Qed.

Lemma run_cmd_ok_inv cmd s out s' :
  run_cmd os cmd s = (Ok out, s') ->
  log s' = (cmd, Some out) :: log s.
Proof.
  unfold run_cmd. destruct (sh os cmd (world s)) as [[o |] w]; [| discriminate].
  now intros [= <- <-].
Qed.

Lemma logs_weaken {A} P Q (m : M World A) :
  (forall e, P e -> Q e) -> logs P m -> logs Q m.
Proof.
  intros HPQ Hm s. destruct (Hm s) as (new & Hlog & Hall).
  exists new. split; [exact Hlog |]. eapply Forall_impl; eauto.
Qed.

Lemma logs_ret {A} P (a : A) : logs P (ret (World := World) a).
Proof. intros s. now exists []. Qed.

Lemma logs_raise {A} P e : logs P (raise (World := World) (A := A) e).
Proof. intros s. now exists []. Qed.

Lemma logs_lift {A} P (r : result A) : logs P (lift (World := World) r).
Proof. intros s. now exists []. Qed.

Lemma logs_bind {A B} P (m : M World A) (k : A -> M World B) :
  logs P m -> (forall a, logs P (k a)) -> logs P (bind m k).
Proof.
  intros Hm Hk s. unfold bind.
  destruct (Hm s) as (n1 & H1 & F1).
  destruct (m s) as [[a | e] s1]; simpl in H1.
  - destruct (Hk a s1) as (n2 & H2 & F2).
    exists (n2 ++ n1). split.
    + now rewrite H2, H1, app_assoc.
    + now apply Forall_app.
  - now exists n1.
Qed.

Lemma logs_run_cmd P cmd : (forall out, P (cmd, out)) -> logs P (run_cmd os cmd).
Proof.
  intros HP s. unfold run_cmd.
  destruct (sh os cmd (world s)) as [[o |] w]; simpl;
    (eexists [_]; split; [reflexivity | repeat constructor; apply HP]).
Qed.

Lemma logs_ensure_dir P p : logs P (ensure_dir os p).
Proof.
  intros s. unfold ensure_dir. exists [].
  destruct (makedirs os p (world s)); now split.
Qed.

Lemma logs_is_file P p : logs P (is_file os p).
Proof. intros s. now exists []. Qed.

Lemma logs_read P p : logs P (read os p).
Proof. intros s. now exists []. Qed.

Lemma logs_write P p c : logs P (write os p c).
Proof.
  intros s. unfold write. exists [].
  destruct (write_file os p c (world s)); now split.
Qed.

Lemma logs_abs_path P p : logs P (abs_path os p).
Proof. intros s. now exists []. Qed.

Lemma logs_rm P p : (forall out, P (rm_cmd p, out)) -> logs P (rm os p).
Proof.
  intros HP. apply logs_bind; [now apply logs_run_cmd | intros _; apply logs_ret].
Qed.

Lemma logs_for_each {A S} P (l : list A) (body : S -> A -> M World S) :
  (forall acc x, x ∈ l -> logs P (body acc x)) ->
  forall acc, logs P (for_each l body acc).
Proof.
  induction l as [| x l IH]; intros Hbody acc; simpl.
  - apply logs_ret.
  - apply logs_bind.
    + apply Hbody. left.
    + intros acc'. apply IH. intros acc0 y Hy. apply Hbody. now right.
Qed.


End MonadProps.

(** Splits a goal [logs P m] along the structure of [m]. *)
Ltac logs_step :=
  first
    [ apply logs_ret
    | apply logs_raise
    | apply logs_lift
    | apply logs_ensure_dir
    | apply logs_is_file
    | apply logs_read
    | apply logs_write
    | apply logs_abs_path
    | apply logs_bind; [| intros ?] ].

(** ** Segment windows *)

Section WindowProps.
Implicit Types (si : gmap Z seg_entry) (a b : seg_entry).

Lemma foldl_max_reaches (l : list Z) (x m : Z) :
  x <= m -> Forall (fun y => y <= m) l -> x = m \/ m ∈ l -> foldl Z.max x l = m.
Proof.
  revert x. induction l as [| y l IH]; intros x Hx Hall Hm; simpl.
  - destruct Hm as [-> | Hm]; [reflexivity | inversion Hm].
  - inversion Hall as [| ? ? Hy Hl]; subst. apply IH; [lia | exact Hl |].
    destruct Hm as [-> | Hm]; [left; lia |].
    apply elem_of_cons in Hm as [-> | Hm]; [left; lia | now right].
Qed.

Lemma max_of_reaches (l : list Z) (m : Z) :
  m ∈ l -> (forall y, y ∈ l -> y <= m) -> max_of l = Ok m.
Proof.
  destruct l as [| x l]; [intros H; inversion H |].
  intros Hm Hall. simpl. f_equal. apply foldl_max_reaches.
  - apply Hall. left.
  - apply Forall_forall. intros y Hy. apply Hall. now right.
  - apply elem_of_cons in Hm as [-> | Hm]; [now left | now right].
Qed.

Lemma elem_of_keys {A} (m : gmap Z A) (k : Z) : k ∈ keys m <-> is_Some (m !! k).
Proof.
  unfold keys. rewrite list_elem_of_fmap. split.
  - intros ([k' v] & -> & Hin). apply elem_of_map_to_list in Hin. simpl. eauto.
  - intros [v Hv]. exists (k, v). split; [reflexivity |]. now apply elem_of_map_to_list.
Qed.

(** The segment count read by [compute_vmaf] is the number of chunks when
    the keys are 1..s, as [segment_rep] numbers them. *)
Lemma max_of_keys_count si (s : Z) :
  1 <= s -> (forall k, is_Some (si !! k) <-> 1 <= k <= s) -> max_of (keys si) = Ok s.
Proof.
  intros Hs Hdom. apply max_of_reaches.
  - apply elem_of_keys, Hdom. lia.
  - intros y Hy. apply elem_of_keys, Hdom in Hy. lia.
Qed.

Lemma window_inner si (s n : Z) a b :
  1 <= n < s -> si !! n = Some a -> si !! (n + 1) = Some b ->
  window si s n = Ok (start_time a, (start_time b - start_time a)%float).
Proof.
  intros Hn Ha Hb. unfold window, lookup_key. rewrite Ha. simpl.
  destruct (decide (n < s)); [| lia]. rewrite Hb. reflexivity.
Qed.

Lemma window_last si (s : Z) a b :
  si !! s = Some a -> si !! (s - 1) = Some b ->
  window si s s = Ok (start_time a, (start_time a - start_time b)%float).
Proof.
  intros Ha Hb. unfold window, lookup_key. rewrite Ha. simpl.
  destruct (decide (s < s)); [lia |]. simpl. rewrite Hb. reflexivity.
Qed.

Lemma window_single si a :
  si !! 1 = Some a -> si !! 0 = None -> window si 1 1 = Raise (KeyError "0").
Proof.
  intros Ha H0. unfold window, lookup_key. rewrite Ha. simpl.
  change (1 - 1) with 0. rewrite H0. reflexivity.
Qed.

End WindowProps.

Lemma bind_lift_ok {World A B} (a : A) (k : A -> M World B) :
  bind (lift (Ok a)) k = k a.
Proof. reflexivity. Qed.

Lemma bind_ret_ok {World A B} (a : A) (k : A -> M World B) :
  bind (ret a) k = k a.
Proof. reflexivity. Qed.

(** C6 (amended): the duration given to the final segment is
    [start(last) - start(last-1)], where [last] is the largest segment
    number; it is computed from the start times alone, and the total
    duration of the stream plays no part. *)
Theorem last_segment_duration (si : gmap Z seg_entry) (s : Z) (a b : seg_entry) :
  2 <= s ->
  (forall k, is_Some (si !! k) <-> 1 <= k <= s) ->
  si !! s = Some a -> si !! (s - 1) = Some b ->
  (let? last := max_of (keys si) in window si last last)
  = Ok (start_time a, (start_time a - start_time b)%float).
Proof.
  intros Hs Hdom Ha Hb.
  rewrite (max_of_keys_count si s) by (try lia; exact Hdom).
  simpl. now apply window_last.
Qed.

Lemma sample_starts_dom3 (x y z : float) (k : Z) :
  is_Some (sample_starts [(1, x); (2, y); (3, z)] !! k) <-> 1 <= k <= 3.
Proof.
  unfold sample_starts. simpl. split.
  - intros [e He].
    destruct (decide (k = 1)) as [-> | ?]; [lia |].
    destruct (decide (k = 2)) as [-> | ?]; [lia |].
    destruct (decide (k = 3)) as [-> | ?]; [lia |].
    rewrite !lookup_insert_ne in He by congruence. now rewrite lookup_empty in He.
  - intros Hk.
    assert (k = 1 \/ k = 2 \/ k = 3) as [-> | [-> | ->]] by lia;
      eexists; reflexivity.
Qed.

Lemma last_segment_duration_witness :
  (let? last := max_of (keys (sample_starts [(1, 0%float); (2, 5%float); (3, 10%float)])) in
   window (sample_starts [(1, 0%float); (2, 5%float); (3, 10%float)]) last last)
  = Ok (10%float, 5%float).
Proof.
  apply (last_segment_duration
           (sample_starts [(1, 0%float); (2, 5%float); (3, 10%float)]) 3
           (SegEntry 10%float None) (SegEntry 5%float None)).
  - lia.
  - apply sample_starts_dom3.
  - reflexivity.
  - reflexivity.
Defined.

(** C6, as stated, fails: for chunks starting at 0, 5 and 10 seconds in a
    stream that lasts 12 seconds, the final segment gets the duration
    10 - 5 = 5, not 12 - 10 = 2. *)
Lemma last_segment_not_total_minus_start :
  let si := sample_starts [(1, 0%float); (2, 5%float); (3, 10%float)] in
  let total := 12%float in
  window si 3 3 = Ok (10%float, 5%float)
  /\ (total - 10)%float = 2%float
  /\ window si 3 3 <> Ok (10%float, (total - 10)%float).
Proof.
  split; [reflexivity |]. split; [reflexivity |].
  intros H.
  apply (f_equal (fun r => match r with
                           | Ok (_, t) => PrimFloat.eqb t 2
                           | Raise _ => false
                           end)) in H.
  vm_compute in H. discriminate.
Qed.

(** ** Encoding *)

Section TranscodeProps.
Context {World : Type} (os : OS World).
Implicit Types (s : state World) (rates : list Z) (out_map : gmap Z string).

Lemma logs_transcode_one src out_dir fps gop out_map r :
  logs (fun e => e.1 = encode_cmd src (rep_path out_dir r) fps gop r)
    (transcode_one os src out_dir fps gop out_map r).
Proof.
  unfold transcode_one. apply logs_bind; [apply logs_is_file | intros present].
  destruct present; [apply logs_ret |].
  apply logs_bind; [now apply logs_run_cmd | intros _; apply logs_ret].
Qed.

Lemma transcode_one_present src out_dir fps gop out_map r s :
  isfile os (rep_path out_dir r) (world s) = true ->
  transcode_one os src out_dir fps gop out_map r s
  = (Ok (<[r := rep_path out_dir r]> out_map), s).
Proof. intros H. unfold transcode_one, bind, is_file. now rewrite H. Qed.


Lemma logs_transcode_loop P src out_dir fps gop rates out_map :
  (forall r out, r ∈ rates -> P (encode_cmd src (rep_path out_dir r) fps gop r, out)) ->
  logs P (for_each rates (transcode_one os src out_dir fps gop) out_map).
Proof.
  intros HP. apply logs_for_each. intros acc r Hr.
  eapply logs_weaken; [| apply logs_transcode_one].
  intros [cmd out] He. simpl in He. subst cmd. now apply HP.
Qed.

Lemma logs_transcode_h264_reps P src out_dir rates fps seg_s :
  (forall r out, r ∈ rates ->
     P (encode_cmd src (rep_path out_dir r) fps (fps * seg_s) r, out)) ->
  logs P (transcode_h264_reps os src out_dir rates fps seg_s).
Proof.
  intros HP. unfold transcode_h264_reps.
  apply logs_bind; [apply logs_ensure_dir | intros _].
  now apply logs_transcode_loop.
Qed.

(** The bitrates whose file exists are passed without a change of state; the
    first one whose file is missing gets the encoder command. *)
Lemma transcode_first_missing src out_dir fps gop done r rest out_map s :
  (forall x, x ∈ done -> isfile os (rep_path out_dir x) (world s) = true) ->
  isfile os (rep_path out_dir r) (world s) = false ->
  exists out tail,
    log (for_each (done ++ r :: rest) (transcode_one os src out_dir fps gop) out_map s).2
    = tail ++ (encode_cmd src (rep_path out_dir r) fps gop r, out) :: log s.
Proof.
  intros Hdone Hr. revert out_map.
  induction done as [| x done IH]; intros out_map.
  - cbn [app for_each]. unfold bind at 1, transcode_one, bind at 1, is_file.
    rewrite Hr. unfold bind at 1, run_cmd.
    destruct (sh os _ (world s)) as [[o |] w].
    + cbn [ret].
      destruct (logs_transcode_loop (fun _ => True) src out_dir fps gop rest
                  (<[r := rep_path out_dir r]> out_map) (fun _ _ _ => I)
                  (State w ((encode_cmd src (rep_path out_dir r) fps gop r, Some o)
                            :: log s)))
        as (new & Hnew & _).
      exists (Some o), new. exact Hnew.
    + now exists None, [].
  - cbn [app for_each]. unfold bind at 1.
    rewrite transcode_one_present by (apply Hdone; left).
    apply IH. intros y Hy. apply Hdone. now right.
Qed.

(** When encoding one bitrate leaves the files of the other bitrates as they
    are, the commands of a loop that completes are those of the bitrates
    whose file was missing at its start. *)
Lemma transcode_loop_frame src out_dir fps gop l out_map s out_map' s' :
  (forall r r' w, r ∈ l -> r' ∈ l -> r <> r' ->
     isfile os (rep_path out_dir r)
       (sh os (encode_cmd src (rep_path out_dir r') fps gop r') w).2
     = isfile os (rep_path out_dir r) w) ->
  for_each l (transcode_one os src out_dir fps gop) out_map s = (Ok out_map', s') ->
  exists new,
    log s' = new ++ log s
    /\ (forall r, r ∈ l -> isfile os (rep_path out_dir r) (world s) = false ->
          exists out, (encode_cmd src (rep_path out_dir r) fps gop r, Some out) ∈ new)
    /\ (forall e, e ∈ new ->
          exists r, r ∈ l /\ isfile os (rep_path out_dir r) (world s) = false
                    /\ e.1 = encode_cmd src (rep_path out_dir r) fps gop r).
Proof.
  revert out_map s. induction l as [| x l IH]; intros out_map s Hframe H.
  - injection H as _ <-. exists []. split; [reflexivity |].
    split; [intros r Hr; inversion Hr | intros e He; inversion He].
  - cbn [for_each] in H. apply bind_ok_inv in H as (m1 & s1 & Hone & Hrest).
    assert (forall r r' w, r ∈ l -> r' ∈ l -> r <> r' ->
              isfile os (rep_path out_dir r)
                (sh os (encode_cmd src (rep_path out_dir r') fps gop r') w).2
              = isfile os (rep_path out_dir r) w) as Hframe'.
    { intros r r' w Hr Hr'. apply Hframe; now right. }
    destruct (IH _ _ Hframe' Hrest) as (new & Hnew & Hrun & Honly).
    unfold transcode_one, bind, is_file in Hone.
    destruct (isfile os (rep_path out_dir x) (world s)) eqn:Hx.
    + injection Hone as _ <-. exists new. split; [exact Hnew |]. split.
      * intros r Hr Hmiss. apply elem_of_cons in Hr as [-> | Hr]; [congruence |].
        now apply Hrun.
      * intros e He. destruct (Honly e He) as (r & Hr & Hmiss & Hcmd).
        exists r. split; [now right | now split].
    + unfold run_cmd, ret in Hone.
      destruct (sh os (encode_cmd src (rep_path out_dir x) fps gop x) (world s))
        as [[o |] w] eqn:Hsh; [| discriminate].
      injection Hone as _ <-. cbn [log world] in *.
      assert (forall r, r ∈ l -> r <> x ->
                isfile os (rep_path out_dir r) w = isfile os (rep_path out_dir r) (world s))
        as Hsame.
      { intros r Hr Hne.
        rewrite <- (Hframe r x (world s)); [now rewrite Hsh | now right | left | exact Hne]. }
      exists (new ++ [(encode_cmd src (rep_path out_dir x) fps gop x, Some o)]).
      split; [now rewrite Hnew, <- app_assoc |]. split.
      * intros r Hr Hmiss. destruct (decide (r = x)) as [-> | Hne].
        { exists o. apply elem_of_app. right. left. }
        apply elem_of_cons in Hr as [-> | Hr]; [contradiction |].
        destruct (Hrun r Hr) as (out & Hout); [now rewrite Hsame |].
        exists out. apply elem_of_app. now left.
      * intros e He. apply elem_of_app in He as [He | He].
        { destruct (Honly e He) as (r & Hr & Hmiss & Hcmd).
          exists r. split; [now right |]. split; [| exact Hcmd].
          destruct (decide (r = x)) as [-> | Hne]; [exact Hx |].
          now rewrite <- Hsame. }
        apply list_elem_of_singleton in He. subst e.
        exists x. split; [left | now split].
Qed.

End TranscodeProps.

(** C8: every command that [transcode_h264_reps] runs is the encoder command
    of a requested bitrate with [-g] and [-keyint_min] both equal to
    [fps * seg_s] and with [-sc_threshold 0].  The function does run it: the
    first requested bitrate whose output is missing gets that command before
    any other command; and when encoding one bitrate leaves the files of the
    others alone, a call that returns has encoded exactly the bitrates whose
    output was missing.  At 24 frames per second and 5 second segments the
    interval is 120 frames. *)
Theorem transcode_keyframe_interval {World : Type} (os : OS World)
    (src_mp4 out_dir : string) (rates : list Z) (fps seg_s : Z) :
  logs (fun e => exists r, r ∈ rates
                 /\ e.1 = encode_cmd src_mp4 (rep_path out_dir r) fps (fps * seg_s) r)
    (transcode_h264_reps os src_mp4 out_dir rates fps seg_s)
  /\ (forall s w done r rest,
        rates = done ++ r :: rest ->
        makedirs os out_dir (world s) = Some w ->
        (forall x, x ∈ done -> isfile os (rep_path out_dir x) w = true) ->
        isfile os (rep_path out_dir r) w = false ->
        exists out tail,
          log (transcode_h264_reps os src_mp4 out_dir rates fps seg_s s).2
          = tail ++ (encode_cmd src_mp4 (rep_path out_dir r) fps (fps * seg_s) r, out)
                    :: log s)
  /\ (forall s w out_map s',
        makedirs os out_dir (world s) = Some w ->
        (forall r r' w', r ∈ rates -> r' ∈ rates -> r <> r' ->
           isfile os (rep_path out_dir r)
             (sh os (encode_cmd src_mp4 (rep_path out_dir r') fps (fps * seg_s) r') w').2
           = isfile os (rep_path out_dir r) w') ->
        transcode_h264_reps os src_mp4 out_dir rates fps seg_s s = (Ok out_map, s') ->
        exists new,
          log s' = new ++ log s
          /\ (forall r, r ∈ rates -> isfile os (rep_path out_dir r) w = false ->
                exists out,
                  (encode_cmd src_mp4 (rep_path out_dir r) fps (fps * seg_s) r, Some out)
                  ∈ new)
          /\ (forall e, e ∈ new ->
                exists r, r ∈ rates /\ isfile os (rep_path out_dir r) w = false
                          /\ e.1 = encode_cmd src_mp4 (rep_path out_dir r) fps
                                     (fps * seg_s) r))
  /\ (forall out_mp4 r,
        encode_cmd src_mp4 out_mp4 fps (fps * seg_s) r
        = "ffmpeg -y -i " +:+ quoted src_mp4
          +:+ " -an -c:v libx264 -preset slow -r " +:+ pretty fps
          +:+ " -g " +:+ pretty (fps * seg_s)
          +:+ " -keyint_min " +:+ pretty (fps * seg_s)
          +:+ " -sc_threshold 0 -b:v " +:+ pretty r
          +:+ "k -maxrate " +:+ pretty (2 * r)
          +:+ "k -bufsize " +:+ pretty (4 * r) +:+ "k " +:+ quoted out_mp4)
  /\ encode_cmd "in.mp4" "videos/v/tmp/rep_300.mp4" 24 (24 * 5) 300
     = "ffmpeg -y -i " +:+ quoted "in.mp4"
       +:+ " -an -c:v libx264 -preset slow -r 24 -g 120 -keyint_min 120"
       +:+ " -sc_threshold 0 -b:v 300k -maxrate 600k -bufsize 1200k "
       +:+ quoted "videos/v/tmp/rep_300.mp4".
Proof.
  split; [| split; [| split; [| split]]].
  - apply logs_transcode_h264_reps. intros r out Hr. now exists r.
  - intros s w done r rest -> Hmk Hdone Hr.
    unfold transcode_h264_reps, bind at 1, ensure_dir. rewrite Hmk.
    apply (transcode_first_missing os src_mp4 out_dir fps (fps * seg_s) done r rest ∅
             (State w (log s))); assumption.
  - intros s w out_map s' Hmk Hframe H.
    unfold transcode_h264_reps in H.
    apply bind_ok_inv in H as (u & s1 & Hdir & H).
    unfold ensure_dir in Hdir. rewrite Hmk in Hdir. injection Hdir as _ <-.
    exact (transcode_loop_frame os src_mp4 out_dir fps (fps * seg_s) rates ∅
             (State w (log s)) out_map s' Hframe H).
  - intros out_mp4 r. reflexivity.
  - vm_compute. reflexivity.
Qed.

Lemma sample_encoding_frame (r r' : Z) (w : list string) :
  r ∈ [300; 600] -> r' ∈ [300; 600] -> r <> r' ->
  isfile sample_encoding_os (rep_path "videos/v/tmp" r)
    (sh sample_encoding_os
       (encode_cmd "in.mp4" (rep_path "videos/v/tmp" r') 24 (24 * 5) r') w).2
  = isfile sample_encoding_os (rep_path "videos/v/tmp" r) w.
Proof.
  intros Hr Hr' Hne.
  assert ((r = 300 /\ r' = 600) \/ (r = 600 /\ r' = 300)) as [[-> ->] | [-> ->]].
  { apply elem_of_cons in Hr as [-> | Hr]; apply elem_of_cons in Hr' as [-> | Hr'];
      try contradiction.
    - apply list_elem_of_singleton in Hr'. subst r'. now left.
    - apply list_elem_of_singleton in Hr. subst r. now right.
    - apply list_elem_of_singleton in Hr, Hr'. congruence. }
  - change (sh sample_encoding_os
              (encode_cmd "in.mp4" (rep_path "videos/v/tmp" 600) 24 (24 * 5) 600) w).2
      with ("videos/v/tmp/rep_600.mp4" :: w).
    change (rep_path "videos/v/tmp" 300) with "videos/v/tmp/rep_300.mp4".
    apply bool_decide_ext. rewrite elem_of_cons.
    split; [intros [H | H]; [discriminate H | exact H] | now right].
  - change (sh sample_encoding_os
              (encode_cmd "in.mp4" (rep_path "videos/v/tmp" 300) 24 (24 * 5) 300) w).2
      with ("videos/v/tmp/rep_300.mp4" :: w).
    change (rep_path "videos/v/tmp" 600) with "videos/v/tmp/rep_600.mp4".
    apply bool_decide_ext. rewrite elem_of_cons.
    split; [intros [H | H]; [discriminate H | exact H] | now right].
Qed.

Lemma transcode_keyframe_interval_witness :
  (exists out tail,
      log (transcode_h264_reps sample_encoding_os "in.mp4" "videos/v/tmp" [300; 600] 24 5
             (State ["videos/v/tmp/rep_300.mp4"] [])).2
      = tail ++ [(encode_cmd "in.mp4" "videos/v/tmp/rep_600.mp4" 24 120 600, out)])
  /\ (exists new,
        log (transcode_h264_reps sample_encoding_os "in.mp4" "videos/v/tmp" [300; 600] 24 5
               sample_fresh).2 = new ++ []
        /\ (exists out,
              (encode_cmd "in.mp4" "videos/v/tmp/rep_300.mp4" 24 120 300, Some out) ∈ new)
        /\ (exists out,
              (encode_cmd "in.mp4" "videos/v/tmp/rep_600.mp4" 24 120 600, Some out) ∈ new))
  /\ isfile sample_encoding_os "videos/v/tmp/rep_600.mp4"
       (world (transcode_h264_reps sample_encoding_os "in.mp4" "videos/v/tmp" [300; 600]
                 24 5 sample_fresh).2) = true.
Proof.
  destruct (transcode_keyframe_interval sample_encoding_os "in.mp4" "videos/v/tmp"
              [300; 600] 24 5) as (_ & Hfirst & Hall & _).
  split; [| split; [| vm_compute; reflexivity]].
  - apply (Hfirst (State ["videos/v/tmp/rep_300.mp4"] []) ["videos/v/tmp/rep_300.mp4"]
             [300] 600 []); [reflexivity | reflexivity | | reflexivity].
    intros x Hx. apply list_elem_of_singleton in Hx. subst x. reflexivity.
  - destruct (transcode_h264_reps sample_encoding_os "in.mp4" "videos/v/tmp" [300; 600] 24 5
                sample_fresh) as [[m | e] s'] eqn:E; [| vm_compute in E; discriminate E].
    destruct (Hall sample_fresh (world sample_fresh) m s' eq_refl
                (fun r r' w' => sample_encoding_frame r r' w') E)
      as (new & Hnew & Hrun & _).
    exists new. split; [exact Hnew |]. split.
    + apply (Hrun 300); [left | reflexivity].
    + apply (Hrun 600); [right; left | reflexivity].
Defined.

(** ** Segment start times *)

Section SegmentProps.
Context (L : PyLib) {World : Type} (os : OS World).
Implicit Types (s : state World) (si acc : gmap Z seg_entry).

Lemma rbind_ok_inv {A B} (r : result A) (k : A -> result B) (b : B) :
  rbind r k = Ok b -> exists a, r = Ok a /\ k a = Ok b.
Proof. destruct r as [a | e]; [| discriminate]. intros H. now exists a. Qed.

Lemma of_option_ok_inv {A} (e : exn) (o : option A) (a : A) :
  of_option e o = Ok a -> o = Some a.
Proof. destruct o; [| discriminate]. now intros [= ->]. Qed.

Lemma chunk_start_time_inv (raw : string) (start : float) :
  chunk_start_time L raw = Ok start ->
  exists ts ea timescale earliest,
    get_attr raw "timescale" = Ok ts
    /\ int_of_str L ts = Some timescale
    /\ get_attr raw "earliest_presentation_time" = Ok ea
    /\ int_of_str L ea = Some earliest
    /\ truediv earliest timescale = Ok start.
Proof.
  unfold chunk_start_time, py_int. intros H.
  apply rbind_ok_inv in H as (ts & Hts & H).
  apply rbind_ok_inv in H as (timescale & Htimescale & H).
  apply rbind_ok_inv in H as (ea & Hea & H).
  apply rbind_ok_inv in H as (earliest & Hearliest & H).
  apply of_option_ok_inv in Htimescale, Hearliest.
  now exists ts, ea, timescale, earliest.
Qed.




Lemma segment_loop dir (l : list Z) acc s si s' :
  for_each l (segment_one L os dir) acc s = (Ok si, s') ->
  (exists new, log s' = new ++ log s)
  /\ (forall n, is_Some (si !! n) <-> is_Some (acc !! n) \/ n ∈ l)
  /\ (forall n e, si !! n = Some e -> acc !! n = Some e \/ chunk_read L dir (log s') n e).
Proof.
  revert acc s. induction l as [| x l IH]; intros acc s Hrun.
  - simpl in Hrun. injection Hrun as <- <-. split; [now exists [] |]. split.
    + intros n. split; [now left | intros [H | H]; [exact H | inversion H]].
    + intros n e He. now left.
  - simpl in Hrun. apply bind_ok_inv in Hrun as (acc1 & s1 & Hone & Hrest).
    destruct (IH _ _ Hrest) as ((new & Hnew) & Hdom & Hread).
    unfold segment_one in Hone.
    apply bind_ok_inv in Hone as (raw & s0 & Hraw & Hone).
    apply bind_ok_inv in Hone as (start & s0' & Hstart & Hone).
    apply lift_ok_inv in Hstart as [Hstart ->].
    injection Hone as <- <-.
    apply run_cmd_ok_inv in Hraw.
    split; [| split].
    + exists (new ++ [(sidx_cmd dir x, Some raw)]).
      rewrite Hnew, Hraw, <- app_assoc. reflexivity.
    + intros n. rewrite Hdom, elem_of_cons.
      destruct (decide (n = x)) as [-> | Hne].
      * rewrite lookup_insert_eq. split; [intros _; right; now left | eauto].
      * rewrite lookup_insert_ne by congruence. tauto.
    + intros n e He. destruct (Hread n e He) as [Hacc | Hchunk]; [| now right].
      destruct (decide (n = x)) as [-> | Hne].
      * rewrite lookup_insert_eq in Hacc. injection Hacc as <-.
        right. apply chunk_start_time_inv in Hstart
          as (ts & ea & timescale & earliest & H1 & H2 & H3 & H4 & H5).
        exists raw, ts, ea, timescale, earliest.
        split; [| now repeat split].
        rewrite Hnew, Hraw. apply elem_of_app. right. left.
      * rewrite lookup_insert_ne in Hacc by congruence. now left.
Qed.

End SegmentProps.

(** C7: when [segment_rep] returns, it holds one entry for every chunk
    number from 1 to the count printed by the listing command, and the start
    time of chunk [n] is exactly [earliest_presentation_time / timescale],
    both integers being parsed out of the index box text that MP4Box printed
    for that chunk. *)
Theorem segment_rep_start_times (L : PyLib) {World : Type} (os : OS World)
    (video_name rep_mp4 : string) (rate seg_s : Z) (s s' : state World)
    (si : gmap Z seg_entry) :
  segment_rep L os video_name rep_mp4 rate seg_s s = (Ok si, s') ->
  exists count segments,
    (count_cmd (segment_dir_of video_name rate), Some count) ∈ log s'
    /\ int_of_str L count = Some segments
    /\ (forall n, is_Some (si !! n) <-> 1 <= n <= segments)
    /\ (forall n e, si !! n = Some e ->
          exists raw ts ea timescale earliest,
            (sidx_cmd (segment_dir_of video_name rate) n, Some raw) ∈ log s'
            /\ get_attr raw "timescale" = Ok ts
            /\ int_of_str L ts = Some timescale
            /\ get_attr raw "earliest_presentation_time" = Ok ea
            /\ int_of_str L ea = Some earliest
            /\ truediv earliest timescale = Ok (start_time e)
            /\ vmaf e = None).
Proof.
  unfold segment_rep. intros H.
  do 10 (apply bind_ok_inv in H as (? & ? & _ & H)).
  apply bind_ok_inv in H as (count & s1 & Hcount & H).
  apply bind_ok_inv in H as (segments & s2 & Hseg & H).
  apply lift_ok_inv in Hseg as [Hseg ->].
  apply of_option_ok_inv in Hseg.
  apply run_cmd_ok_inv in Hcount.
  destruct (segment_loop L os _ _ _ _ _ _ H) as ((new & Hnew) & Hdom & Hread).
  exists count, segments. split; [| split; [exact Hseg | split]].
  - rewrite Hnew, Hcount. apply elem_of_app. right. left.
  - intros n. rewrite Hdom. unfold range1. rewrite elem_of_seqZ, lookup_empty.
    split.
    + intros [[e He] | Hn]; [discriminate | lia].
    + intros Hn. right. lia.
  - intros n e He. destruct (Hread n e He) as [Hempty | Hchunk].
    + now rewrite lookup_empty in Hempty.
    + exact Hchunk.
Qed.

Lemma segment_rep_start_times_witness :
  let run := segment_rep sample_lib sample_os "v" "videos/v/tmp/rep_300.mp4" 300 5
               sample_fresh in
  run.1 = Ok (sample_starts [(1, 0%float); (2, 5%float)])
  /\ forall n e, sample_starts [(1, 0%float); (2, 5%float)] !! n = Some e ->
       exists raw ts ea timescale earliest,
         (sidx_cmd "videos/v/tracks/video_300" n, Some raw) ∈ log run.2
         /\ get_attr raw "timescale" = Ok ts
         /\ int_of_str sample_lib ts = Some timescale
         /\ get_attr raw "earliest_presentation_time" = Ok ea
         /\ int_of_str sample_lib ea = Some earliest
         /\ truediv earliest timescale = Ok (start_time e)
         /\ vmaf e = None.
Proof.
  cbv zeta. split; [vm_compute; reflexivity |].
  destruct (segment_rep_start_times sample_lib sample_os "v" "videos/v/tmp/rep_300.mp4"
              300 5 sample_fresh
              (segment_rep sample_lib sample_os "v" "videos/v/tmp/rep_300.mp4" 300 5
                 sample_fresh).2
              (sample_starts [(1, 0%float); (2, 5%float)]))
    as (count & segments & _ & _ & _ & Hread).
  - vm_compute. reflexivity.
  - exact Hread.
Defined.

(** ** Representations with a single segment *)

Section SingleSegment.
Context (L : PyLib) {World : Type} (os : OS World).
Implicit Types (s : state World) (seg_info : gmap Z (gmap Z seg_entry)).

Lemma for_each_preserves {A S} (I : S -> Prop) (l : list A) (body : S -> A -> M World S) :
  (forall acc x s acc' s', x ∈ l -> I acc -> body acc x s = (Ok acc', s') -> I acc') ->
  forall acc s acc' s', I acc -> for_each l body acc s = (Ok acc', s') -> I acc'.
Proof.
  induction l as [| x l IH]; intros Hbody acc s acc' s' Hacc Hrun; simpl in Hrun.
  - now injection Hrun as <- _.
  - apply bind_ok_inv in Hrun as (acc1 & s1 & Hone & Hrest).
    apply (IH (fun acc0 y s0 acc0' s0' Hy => Hbody acc0 y s0 acc0' s0' (list_elem_of_further _ _ _ Hy))
              acc1 s1 acc' s'); [| exact Hrest].
    apply (Hbody acc x s acc1 s1); [left | exact Hacc | exact Hone].
Qed.

Lemma score_segment_single w h cur_yuv ref_yuv rate segments seg_info seg s seg_info' s' r :
  score_segment L os w h cur_yuv ref_yuv rate segments seg_info seg s = (Ok seg_info', s') ->
  single_segment r seg_info -> single_segment r seg_info'.
Proof.
  unfold score_segment. intros H (si & a & Hsi & Ha & Hnone).
  apply bind_ok_inv in H as (si0 & s0 & Hlk & H).
  apply lift_ok_inv in Hlk as [Hlk ->]. apply of_option_ok_inv in Hlk.
  apply bind_ok_inv in H as ([ss t] & s0 & _ & H).
  do 5 (apply bind_ok_inv in H as (? & ? & _ & H)).
  apply bind_ok_inv in H as (score & ? & _ & H).
  apply bind_ok_inv in H as (? & ? & _ & H). injection H as <- _.
  destruct (decide (r = rate)) as [-> | Hne].
  - rewrite Hsi in Hlk. injection Hlk as <-.
    exists (alter (set_vmaf score) seg si), (if decide (seg = 1) then set_vmaf score a else a).
    split; [apply lookup_insert_eq |]. split.
    + destruct (decide (seg = 1)) as [-> | Hseg].
      * rewrite lookup_alter_eq, Ha. reflexivity.
      * now rewrite lookup_alter_ne.
    + intros k Hk. destruct (decide (seg = k)) as [-> | Hseg].
      * rewrite lookup_alter_eq, (Hnone k Hk). reflexivity.
      * rewrite lookup_alter_ne by exact Hseg. now apply Hnone.
  - exists si, a. split; [| now split]. now rewrite lookup_insert_ne.
Qed.

Lemma single_segment_count (si : gmap Z seg_entry) (a : seg_entry) :
  si !! 1 = Some a -> (forall k, k <> 1 -> si !! k = None) -> max_of (keys si) = Ok 1.
Proof.
  intros Ha Hnone. apply max_of_keys_count; [lia |].
  intros k. split.
  - intros [e He]. destruct (decide (k = 1)) as [-> | Hk]; [lia |].
    now rewrite (Hnone k Hk) in He.
  - intros Hk. assert (k = 1) as -> by lia. eauto.
Qed.

Lemma score_segments_single w h cur_yuv ref_yuv rate seg_info s :
  single_segment rate seg_info ->
  for_each (range1 1) (score_segment L os w h cur_yuv ref_yuv rate 1) seg_info s
  = (Raise (KeyError "0"), s).
Proof.
  intros (si & a & Hsi & Ha & Hnone).
  change (range1 1) with [1]. simpl. unfold score_segment, bind, lift, lookup_key.
  rewrite Hsi. simpl.
  assert (window si 1 1 = Raise (KeyError "0")) as Hw.
  { apply (window_single si a Ha). apply Hnone. lia. }
  unfold lookup_key in Hw. now rewrite Hw.
Qed.

Lemma score_rate_single video_name reps w h biggest ref_yuv seg_info rate s :
  single_segment rate seg_info ->
  (rate = biggest ->
   score_rate L os video_name reps w h biggest ref_yuv seg_info rate s
   = (Raise (KeyError "0"), s))
  /\ forall seg_info' s',
       score_rate L os video_name reps w h biggest ref_yuv seg_info rate s
       <> (Ok seg_info', s').
Proof.
  intros Hsingle. pose proof Hsingle as (si & a & Hsi & Ha & Hnone).
  assert (lookup_key rate seg_info = Ok si) as Hlk.
  { unfold lookup_key. now rewrite Hsi. }
  pose proof (single_segment_count si a Ha Hnone) as Hmax.
  split.
  - intros Hbig. unfold score_rate.
    destruct (decide (rate = biggest)); [| contradiction].
    rewrite bind_ret_ok, Hlk, bind_lift_ok, Hmax, bind_lift_ok.
    exact (score_segments_single w h ref_yuv ref_yuv rate seg_info s Hsingle).
  - intros seg_info' s' H. unfold score_rate in H.
    apply bind_ok_inv in H as (cur_yuv & s1 & _ & H).
    rewrite Hlk, bind_lift_ok, Hmax, bind_lift_ok in H.
    rewrite (score_segments_single w h cur_yuv ref_yuv rate seg_info s1 Hsingle) in H.
    discriminate.
Qed.

Lemma score_rate_keeps_single video_name reps w h biggest ref_yuv seg_info rate s
    seg_info' s' r :
  score_rate L os video_name reps w h biggest ref_yuv seg_info rate s = (Ok seg_info', s') ->
  single_segment r seg_info -> single_segment r seg_info'.
Proof.
  unfold score_rate. intros H Hr.
  apply bind_ok_inv in H as (cur_yuv & s1 & _ & H).
  apply bind_ok_inv in H as (si & s2 & _ & H).
  apply bind_ok_inv in H as (segments & s3 & _ & H).
  revert H. apply for_each_preserves; [| exact Hr].
  intros acc x s0 acc' s0' _ Hacc Hbody. eapply score_segment_single; eauto.
Qed.

Lemma score_rates_single video_name reps w h biggest ref_yuv rates r :
  r ∈ rates ->
  forall seg_info s seg_info' s',
    single_segment r seg_info ->
    for_each rates (score_rate L os video_name reps w h biggest ref_yuv) seg_info s
    <> (Ok seg_info', s').
Proof.
  induction rates as [| x rates IH]; intros Hr seg_info s seg_info' s' Hsingle Hrun.
  - inversion Hr.
  - simpl in Hrun. apply bind_ok_inv in Hrun as (acc1 & s1 & Hone & Hrest).
    destruct (decide (r = x)) as [-> | Hne].
    + now apply (proj2 (score_rate_single video_name reps w h biggest ref_yuv
                          seg_info x s Hsingle) acc1 s1).
    + apply elem_of_cons in Hr as [-> | Hr]; [contradiction |].
      apply (IH Hr acc1 s1 seg_info' s'); [| exact Hrest].
      eapply score_rate_keeps_single; eauto.
Qed.

End SingleSegment.

(** C10: quality scoring needs at least two segments per representation.
    With a single segment the window of segment 1 looks up segment 0, which
    is not in the map, and raises [KeyError]; scoring the reference
    representation then stops with that error before any command is run for
    the segment, and [compute_vmaf] as a whole never returns normally when
    [vmaf.json] is absent and some requested representation has exactly one
    segment. *)
Theorem single_segment_lookup_error (L : PyLib) {World : Type} (os : OS World)
    (video_name : string) (rates : list Z) (reps : gmap Z string)
    (seg_info : gmap Z (gmap Z seg_entry)) (info : gmap Z dims)
    (s : state World) (r : Z) :
  (forall si a, si !! 1 = Some a -> si !! 0 = None ->
                window si 1 1 = Raise (KeyError "0"))
  /\ (single_segment r seg_info ->
      forall w h ref_yuv,
        score_rate L os video_name reps w h r ref_yuv seg_info r s
        = (Raise (KeyError "0"), s))
  /\ (isfile os ("videos/" +:+ video_name +:+ "/vmaf.json") (world s) = false ->
      r ∈ rates -> single_segment r seg_info ->
      exists e, (compute_vmaf L os video_name rates reps seg_info info s).1 = Raise e).
Proof.
  split; [exact window_single |]. split.
  - intros Hsingle w h ref_yuv.
    now apply (proj1 (score_rate_single L os video_name reps w h r ref_yuv
                        seg_info r s Hsingle)).
  - intros Hfile Hr Hsingle.
    destruct (compute_vmaf L os video_name rates reps seg_info info s)
      as [[x | e] s'] eqn:E; [exfalso | now exists e].
    unfold compute_vmaf in E.
    apply bind_ok_inv in E as (d & s1 & Hd & E).
    unfold is_file in Hd. injection Hd as <- <-. rewrite Hfile in E.
    apply bind_ok_inv in E as (has_bin & s1 & _ & E).
    destruct has_bin; [| discriminate E]. simpl negb in E. cbv iota in E.
    apply bind_ok_inv in E as (has_model & s2 & _ & E).
    destruct has_model; [| discriminate E]. simpl negb in E. cbv iota in E.
    do 4 (apply bind_ok_inv in E as (? & ? & _ & E)).
    apply bind_ok_inv in E as (seg_info' & s3 & Hloop & E).
    exact (score_rates_single L os _ _ _ _ _ _ rates r Hr _ _ _ _ Hsingle Hloop).
Qed.

Lemma single_segment_lookup_error_witness :
  let seg_info : gmap Z (gmap Z seg_entry) := {[ 600 := sample_starts [(1, 0%float)] ]} in
  window (sample_starts [(1, 0%float)]) 1 1 = Raise (KeyError "0")
  /\ score_rate sample_lib sample_os "v" {[ 600 := "videos/v/tmp/rep_600.mp4" ]}
       1280 720 600 "videos/v/yuv/video_600.yuv" seg_info 600 sample_fresh
     = (Raise (KeyError "0"), sample_fresh)
  /\ exists e,
       (compute_vmaf sample_lib sample_os "v" [600]
          {[ 600 := "videos/v/tmp/rep_600.mp4" ]} seg_info
          {[ 600 := Dims 1280 720 ]} sample_fresh).1 = Raise e.
Proof.
  intros seg_info.
  assert (single_segment 600 seg_info) as Hsingle.
  { exists (sample_starts [(1, 0%float)]), (SegEntry 0%float None).
    split; [reflexivity |]. split; [reflexivity |].
    intros k Hk. unfold sample_starts. simpl.
    rewrite lookup_insert_ne by congruence. apply lookup_empty. }
  destruct (single_segment_lookup_error sample_lib sample_os "v" [600]
              {[ 600 := "videos/v/tmp/rep_600.mp4" ]} seg_info
              {[ 600 := Dims 1280 720 ]} sample_fresh 600)
    as (Hwindow & Hrate & Hall).
  split; [| split].
  - apply (Hwindow _ (SegEntry 0%float None)); reflexivity.
  - apply (Hrate Hsingle).
  - apply Hall; [reflexivity | left | exact Hsingle].
Defined.

(** ** The merged manifest *)

Section ManifestProps.
Context (L : PyLib).
Implicit Types (e c rep : element) (cs : list element) (k v : string).

Lemma assoc_get_set_eq k v (l : list (string * string)) :
  assoc_get k (assoc_set k v l) = Some v.
Proof.
  induction l as [| [k' v'] l IH]; simpl.
  - now destruct (decide (k = k)).
  - destruct (decide (k' = k)) as [-> | Hne]; simpl.
    + now destruct (decide (k = k)).
    + now destruct (decide (k' = k)).
Qed.

Lemma assoc_get_set_ne k k' v (l : list (string * string)) :
  k <> k' -> assoc_get k' (assoc_set k v l) = assoc_get k' l.
Proof.
  intros Hne. induction l as [| [k0 v0] l IH]; simpl.
  - now destruct (decide (k = k')).
  - destruct (decide (k0 = k)) as [-> | Hk0]; simpl.
    + destruct (decide (k = k')); [contradiction | reflexivity].
    + destruct (decide (k0 = k')); [reflexivity | exact IH].
Qed.

Lemma attr_get_set_eq k v e : attr_get k (attr_set k v e) = Some v.
Proof. destruct e. apply assoc_get_set_eq. Qed.

Lemma attr_get_set_ne k k' v e : k <> k' -> attr_get k' (attr_set k v e) = attr_get k' e.
Proof. destruct e. apply assoc_get_set_ne. Qed.

Lemma is_representation_set k v e :
  is_representation (attr_set k v e) = is_representation e.
Proof. now destruct e. Qed.

Lemma int_attr_set_id v k e : k <> "id" -> int_attr L k (attr_set "id" v e) = int_attr L k e.
Proof.
  intros Hk. unfold int_attr. rewrite attr_get_set_ne by congruence. reflexivity.
Qed.

Lemma children_update_child i f e :
  children_of (update_child i f e) = alter f i (children_of e).
Proof. now destruct e. Qed.

Lemma subelement_update_child i f e c :
  subelement e i = Ok c -> subelement (update_child i f e) i = Ok (f c).
Proof.
  unfold subelement, item. rewrite children_update_child.
  destruct (children_of e !! i) as [c' |] eqn:E; [| discriminate].
  intros [= ->]. now rewrite list_lookup_alter_eq, E.
Qed.

Lemma find_representation_none cs i found :
  List.filter is_representation cs = [] -> find_representation cs i found = found.
Proof.
  revert i found. induction cs as [| c cs IH]; intros i found H; [reflexivity |].
  simpl in *. destruct (is_representation c); [discriminate |]. now apply IH.
Qed.

Lemma find_representation_unique cs rep i found :
  List.filter is_representation cs = [rep] ->
  exists j, find_representation cs i found = Some (i + j)%nat /\ cs !! j = Some rep.
Proof.
  revert i found. induction cs as [| c cs IH]; intros i found H; [discriminate |].
  simpl in *. destruct (is_representation c) eqn:Hc.
  - injection H as -> H. exists O. split; [| reflexivity].
    rewrite find_representation_none by exact H. f_equal. lia.
  - destruct (IH (S i) found H) as (j & Hj & Hlk).
    exists (S j). split; [| exact Hlk]. rewrite Hj. f_equal. lia.
Qed.

Lemma filter_representation_elem cs rep :
  In rep (List.filter is_representation cs) -> is_representation rep = true.
Proof. intros H. now apply List.filter_In in H as [_ H]. Qed.

Lemma representation_ids_alter f i cs :
  (forall x, is_representation (f x) = is_representation x) ->
  (forall x, attr_get "id" (f x) = attr_get "id" x) ->
  representation_ids (alter f i cs) = representation_ids cs.
Proof.
  intros Htag Hid. unfold representation_ids.
  revert i. induction cs as [| c cs IH]; intros i; [reflexivity |].
  destruct i as [| i]; simpl.
  - rewrite Htag. destruct (is_representation c); simpl; [now rewrite Hid | reflexivity].
  - specialize (IH i). destruct (is_representation c); simpl; [f_equal |]; exact IH.
Qed.

Lemma representation_ids_set cs rep i v :
  List.filter is_representation cs = [rep] -> cs !! i = Some rep ->
  representation_ids (alter (fun _ => attr_set "id" v rep) i cs) = [Some v].
Proof.
  unfold representation_ids.
  revert i. induction cs as [| c cs IH]; intros i Hf Hi; [discriminate |].
  assert (is_representation rep = true) as Hrep.
  { apply (filter_representation_elem (c :: cs)). rewrite Hf. now left. }
  destruct i as [| i]; simpl in *.
  - injection Hi as ->. rewrite is_representation_set, Hrep in *.
    injection Hf as Hf. rewrite Hf. simpl. now rewrite attr_get_set_eq.
  - destruct (is_representation c) eqn:Hc.
    + injection Hf as -> Hf. exfalso.
      assert (In rep (List.filter is_representation cs)) as Hin.
      { apply List.filter_In. split; [| exact Hrep].
        apply list_elem_of_In, list_elem_of_lookup. eauto. }
      now rewrite Hf in Hin.
    + now apply IH.
Qed.

Lemma representation_ids_app cs rep v :
  is_representation rep = true ->
  representation_ids (cs ++ [attr_set "id" v rep])
  = representation_ids cs ++ [Some v].
Proof.
  intros Hrep. unfold representation_ids.
  rewrite List.filter_app, map_app. simpl.
  rewrite is_representation_set, Hrep. simpl. now rewrite attr_get_set_eq.
Qed.

Lemma merge_first (rates : list Z) manifest rate tree info pl :
  fragment_ok L tree -> rank rates rate = Ok pl ->
  exists base info',
    merge_fragment L rates manifest rate tree (None, info) = Ok (Some base, info')
    /\ merged_ok rates [rate] base.
Proof.
  intros (period & root & rep & w & h & Hperiod & Hroot & Hfilter & Hw & Hh) Hrank.
  destruct (find_representation_unique _ _ O None Hfilter) as (i & Hfind & Hi).
  simpl in Hfind.
  unfold merge_fragment. rewrite Hperiod. simpl. rewrite Hroot. simpl.
  rewrite Hfind. unfold item at 1. rewrite Hi. simpl. rewrite Hrank. simpl.
  rewrite !int_attr_set_id by discriminate. rewrite Hw, Hh. simpl.
  eexists _, _. split; [reflexivity |].
  set (rep' := attr_set "id" (rep_id pl) rep).
  set (template := fun e => attr_set "media" "$RepresentationID$/$Number$.m4s"
                              (attr_set "initialization" "$RepresentationID$/init.mp4" e)).
  assert (exists c0, alter (fun _ => rep') i (children_of root) !! 0%nat = Some c0)
    as [c0 Hc0].
  { apply lookup_lt_is_Some_2. rewrite length_alter.
    apply lookup_lt_Some in Hi. lia. }
  exists (update_child 0 (update_child 0 template)
            (update_child 0 (update_child i (fun _ => rep')) period)),
         (update_child 0 template (update_child i (fun _ => rep') root)),
         (template c0).
  split; [| split; [| split; [| split; [| split]]]].
  - apply subelement_update_child. now apply subelement_update_child.
  - apply subelement_update_child. now apply subelement_update_child.
  - rewrite !children_update_child.
    rewrite representation_ids_alter.
    + unfold rep'. rewrite (representation_ids_set _ rep i _ Hfilter Hi).
      constructor; [| constructor]. now exists pl.
    + intros x. unfold template. now rewrite !is_representation_set.
    + intros x. unfold template. now rewrite !attr_get_set_ne by discriminate.
  - rewrite !children_update_child, list_lookup_alter_eq, Hc0. reflexivity.
  - unfold template. rewrite attr_get_set_ne by discriminate. apply attr_get_set_eq.
  - unfold template. apply attr_get_set_eq.
Qed.

Lemma merge_next (rates done : list Z) manifest rate tree base info pl :
  merged_ok rates done base -> fragment_ok L tree -> rank rates rate = Ok pl ->
  exists base' info',
    merge_fragment L rates manifest rate tree (Some base, info) = Ok (Some base', info')
    /\ merged_ok rates (done ++ [rate]) base'.
Proof.
  intros (bperiod & aset & template & Hbp & Haset & Hids & Ht & Hinit & Hmedia)
         (period & root & rep & w & h & Hperiod & Hroot & Hfilter & Hw & Hh) Hrank.
  destruct (find_representation_unique _ _ O None Hfilter) as (i & Hfind & Hi).
  simpl in Hfind.
  assert (is_representation rep = true) as Hrep.
  { apply (filter_representation_elem (children_of root)). rewrite Hfilter. now left. }
  unfold merge_fragment. rewrite Hperiod. simpl. rewrite Hroot. simpl.
  rewrite Hfind. unfold item at 1. rewrite Hi. simpl. rewrite Hrank. simpl.
  rewrite !int_attr_set_id by discriminate. rewrite Hw, Hh. simpl.
  rewrite Hbp. simpl. rewrite Haset. simpl.
  eexists _, _. split; [reflexivity |].
  set (rep' := attr_set "id" (rep_id pl) rep).
  exists (update_child 0 (append_child rep') bperiod), (append_child rep' aset), template.
  split; [| split; [| split; [| split; [| split]]]].
  - now apply subelement_update_child.
  - now apply subelement_update_child.
  - replace (children_of (append_child rep' aset)) with (children_of aset ++ [rep'])
      by now destruct aset.
    unfold rep'. rewrite representation_ids_app by exact Hrep.
    apply Forall2_app; [exact Hids |]. constructor; [| constructor]. now exists pl.
  - replace (children_of (append_child rep' aset)) with (children_of aset ++ [rep'])
      by now destruct aset.
    rewrite lookup_app_l; [exact Ht |]. now apply lookup_lt_Some in Ht.
  - exact Hinit.
  - exact Hmedia.
Qed.

End ManifestProps.

Section ManifestLoop.
Context (L : PyLib) {World : Type} (os : OS World).
Implicit Types (s : state World) (rates done l : list Z).

Lemma rank_defined rates r : r ∈ rates -> exists pl, rank rates r = Ok pl.
Proof. intros Hr. apply index_present. now rewrite sorted_perm. Qed.

Lemma merge_loop tracks_dir rates l :
  (forall r, r ∈ l -> r ∈ rates) ->
  forall done acc s,
    fragments_loaded L os tracks_dir (fragment_ok L) l s ->
    match acc.1 with
    | None => done = []
    | Some b => merged_ok rates done b
    end ->
    exists st s',
      for_each l (manifest_one L os tracks_dir rates) acc s = (Ok st, s')
      /\ match st.1 with
         | None => done ++ l = []
         | Some b => merged_ok rates (done ++ l) b
         end.
Proof.
  induction l as [| x l IH]; intros Hin done acc s Hload Hacc.
  - exists acc, s. split; [reflexivity |]. now rewrite app_nil_r.
  - destruct Hload as (tree & s1 & Hs1 & Htree & Hrest).
    destruct (rank_defined rates x (Hin x (list_elem_of_here _ _))) as (pl & Hpl).
    assert (exists base' info',
               merge_fragment L rates (manifest_path tracks_dir x) x tree acc
               = Ok (Some base', info')
               /\ merged_ok rates (done ++ [x]) base') as (base' & info' & Hstep & Hmerged).
    { destruct acc as [[b |] info]; simpl in Hacc.
      - eapply merge_next; eauto.
      - subst done. eapply merge_first; eauto. }
    destruct (IH (fun r Hr => Hin r (list_elem_of_further _ _ _ Hr))
                 (done ++ [x]) (Some base', info') s1 Hrest Hmerged)
      as (st & s' & Hrun & Hst).
    exists st, s'. split.
    + simpl. unfold bind at 1, manifest_one at 1, bind at 1. rewrite Hs1.
      unfold lift. rewrite Hstep. exact Hrun.
    + now rewrite <- app_assoc in Hst.
Qed.

End ManifestLoop.

(** C2 (amended): the identifier of a representation is "video<k>" with [k]
    the first 0-based position of its bitrate in the ascending-sorted
    bitrate list, that is the number of requested bitrates below it.  The
    assignment is injective on the requested bitrates, stays inside
    [0..n-1] for a list of [n] bitrates, and does not change when the input
    list is reordered; when no bitrate is repeated it reaches every rank of
    [0..n-1]. *)
Theorem rank_identifiers (L : PyLib) (rates : list Z) :
  (forall r, r ∈ rates ->
     exists k, rank rates r = Ok k /\ sorted rates !! k = Some r
               /\ k = length (filter (fun y => y < r) rates)
               /\ (k < length rates)%nat)
  /\ (forall r1 r2 k1 k2,
        rank rates r1 = Ok k1 -> rank rates r2 = Ok k2 ->
        rep_id k1 = rep_id k2 -> r1 = r2)
  /\ (forall rates' r, rates' ≡ₚ rates -> rank rates' r = rank rates r)
  /\ (NoDup rates ->
      forall k, (k < length rates)%nat -> exists r, r ∈ rates /\ rank rates r = Ok k)
  /\ (forall manifest tree info r,
        r ∈ rates -> fragment_ok L tree ->
        exists base info' period aset pl,
          merge_fragment L rates manifest r tree (None, info) = Ok (Some base, info')
          /\ subelement base 1 = Ok period
          /\ subelement period 0 = Ok aset
          /\ rank rates r = Ok pl
          /\ representation_ids (children_of aset) = [Some (rep_id pl)]).
Proof.
  split; [| split; [| split; [| split]]].
  - intros r Hr. pose proof (rank_count rates r Hr) as Hk.
    eexists. split; [exact Hk |]. split; [| split; [reflexivity |]].
    + now apply index_lookup.
    + apply index_lookup, lookup_lt_Some in Hk.
      now rewrite (Permutation_length (sorted_perm rates)) in Hk.
  - intros r1 r2 k1 k2 H1 H2 Hid. apply rep_id_inj in Hid. subst k2.
    apply index_lookup in H1, H2. congruence.
  - intros rates' r Hp. now apply rank_permutation.
  - intros Hnd k Hk.
    rewrite <- (Permutation_length (sorted_perm rates)) in Hk.
    destruct (lookup_lt_is_Some_2 _ _ Hk) as [r Hr].
    exists r. split.
    + rewrite <- (sorted_perm rates). apply list_elem_of_lookup. eauto.
    + apply index_nodup_lookup; [| exact Hr]. now rewrite sorted_perm.
  - intros manifest tree info r Hr Htree.
    destruct (rank_defined rates r Hr) as (pl & Hpl).
    destruct (merge_first L rates manifest r tree info pl Htree Hpl)
      as (base & info' & Hmerge & period & aset & template & Hp & Ha & Hids & _).
    exists base, info', period, aset, pl.
    repeat (split; [assumption |]).
    inversion Hids as [| ? id ? ids (pl' & Hpl' & ->) Hnil]; subst.
    inversion Hnil; subst. congruence.
Qed.

Lemma rank_identifiers_witness :
  (exists k, rank [600; 300; 1200] 600 = Ok k /\ k = 1%nat)
  /\ rank [1200; 600; 300] 600 = rank [600; 300; 1200] 600
  /\ (exists r, r ∈ [600; 300; 1200] /\ rank [600; 300; 1200] r = Ok 2%nat)
  /\ (exists base info' period aset,
        merge_fragment sample_lib [600; 300; 1200] "m.mpd" 600
          (sample_fragment "1280" "720") (None, ∅) = Ok (Some base, info')
        /\ subelement base 1 = Ok period
        /\ subelement period 0 = Ok aset
        /\ representation_ids (children_of aset) = [Some "video1"]).
Proof.
  destruct (rank_identifiers sample_lib [600; 300; 1200])
    as (Hpos & _ & Hperm & Honto & Hmerge).
  split; [| split; [| split]].
  - destruct (Hpos 600) as (k & Hk & _ & Hcount & _).
    { refine (bool_decide_unpack _ _). vm_compute. exact I. }
    exists k. split; [exact Hk |]. rewrite Hcount. reflexivity.
  - apply Hperm.
    apply (Permutation_trans (l' := [600; 1200; 300])).
    + apply perm_swap.
    + apply perm_skip. apply perm_swap.
  - apply Honto.
    + refine (bool_decide_unpack _ _). vm_compute. exact I.
    + simpl. lia.
  - destruct (Hmerge "m.mpd" (sample_fragment "1280" "720") ∅ 600)
      as (base & info' & period & aset & pl & H1 & H2 & H3 & H4 & H5).
    + refine (bool_decide_unpack _ _). vm_compute. exact I.
    + do 5 eexists. repeat split; reflexivity.
    + exists base, info', period, aset. repeat (split; [assumption |]).
      rewrite H5. injection H4 as <-. reflexivity.
Defined.

(** C2, as stated, fails for a list with a repeated bitrate: for
    300, 300, 600 the two distinct bitrates get the ranks 0 and 2, and no
    representation gets rank 1. *)
Lemma rank_gap_with_repeated_bitrate :
  rank [300; 300; 600] 300 = Ok 0%nat
  /\ rank [300; 300; 600] 600 = Ok 2%nat
  /\ ~ (exists r, r ∈ [300; 300; 600] /\ rank [300; 300; 600] r = Ok 1%nat).
Proof.
  split; [reflexivity |]. split; [reflexivity |].
  intros (r & Hr & Hk).
  repeat (apply elem_of_cons in Hr as [-> | Hr]); try discriminate Hk.
  inversion Hr.
Qed.

(** C3 (amended): when the fragments load one after the other, each in the
    state the previous load left, and each holds exactly one representation
    node, the merged manifest contains exactly one representation node per
    entry of the input bitrate list; the nodes follow the order of the input
    list (the first fragment is the base, the others are appended as they
    are processed), each with the identifier of its rank, so they are in
    rank order when the input list is ascending; the first child of their
    parent carries the templates [$RepresentationID$/init.mp4] and
    [$RepresentationID$/$Number$.m4s].  [build_common_manifest] writes the
    serialisation of that tree. *)
Theorem merged_manifest_representations (L : PyLib) {World : Type} (os : OS World)
    (video_name : string) (rates : list Z) (s : state World) :
  rates <> [] ->
  fragments_loaded L os ("videos/" +:+ video_name +:+ "/tracks") (fragment_ok L) rates s ->
  exists base info s' period aset template,
    merge_manifests L os video_name rates s = (Ok (Some base, info), s')
    /\ subelement base 1 = Ok period
    /\ subelement period 0 = Ok aset
    /\ length (List.filter is_representation (children_of aset)) = length rates
    /\ Forall2 (fun r id => exists pl, rank rates r = Ok pl /\ id = Some (rep_id pl))
         rates (representation_ids (children_of aset))
    /\ children_of aset !! 0%nat = Some template
    /\ attr_get "initialization" template = Some "$RepresentationID$/init.mp4"
    /\ attr_get "media" template = Some "$RepresentationID$/$Number$.m4s"
    /\ (forall info' s'',
          build_common_manifest L os video_name rates s = (Ok info', s'') ->
          info' = info
          /\ exists w,
               write_file os (("videos/" +:+ video_name +:+ "/tracks") +:+ "/manifest.mpd")
                 (xml_tostring L base) w = Some (world s'')).
Proof.
  intros Hne Hload.
  destruct (merge_loop L os _ rates rates (fun r Hr => Hr) [] (None, ∅) s Hload eq_refl)
    as ([base info] & s' & Hrun & Hst).
  simpl in Hst. destruct base as [base |]; [| contradiction].
  destruct Hst as (period & aset & template & Hp & Ha & Hids & Ht & Hinit & Hmedia).
  exists base, info, s', period, aset, template.
  split; [exact Hrun |]. split; [exact Hp |]. split; [exact Ha |].
  split; [| split; [exact Hids |]].
  { apply Forall2_length in Hids. unfold representation_ids in Hids.
    now rewrite length_map in Hids. }
  split; [exact Ht |]. split; [exact Hinit |]. split; [exact Hmedia |].
  intros info' s'' Hbuild. unfold build_common_manifest in Hbuild.
  apply bind_ok_inv in Hbuild as (st & s1 & Hst & Hbuild).
  unfold merge_manifests in Hrun. unfold merge_manifests in Hst.
  rewrite Hrun in Hst. injection Hst as <- <-.
  apply bind_ok_inv in Hbuild as (? & s2 & _ & Hbuild). simpl in Hbuild.
  apply bind_ok_inv in Hbuild as (? & s3 & Hwrite & Hbuild).
  injection Hbuild as <- <-. split; [reflexivity |].
  unfold write in Hwrite.
  destruct (write_file os _ _ (world s2)) as [w |] eqn:E; [| discriminate].
  injection Hwrite as _ <-. exists (world s2). exact E.
Qed.

Lemma merged_manifest_representations_witness :
  exists base info s' period aset,
    merge_manifests sample_lib sample_fs_os "v" [300; 600] sample_tracks
    = (Ok (Some base, info), s')
    /\ subelement base 1 = Ok period
    /\ subelement period 0 = Ok aset
    /\ length (List.filter is_representation (children_of aset)) = 2%nat
    /\ Forall2 (fun r id => exists pl, rank [300; 600] r = Ok pl /\ id = Some (rep_id pl))
         [300; 600] (representation_ids (children_of aset)).
Proof.
  destruct (merged_manifest_representations sample_lib sample_fs_os "v" [300; 600]
              sample_tracks)
    as (base & info & s' & period & aset & template & H1 & H2 & H3 & H4 & H5 & _).
  - discriminate.
  - cbn [fragments_loaded].
    eexists _, _. split; [vm_compute; reflexivity |].
    split; [do 5 eexists; repeat split; reflexivity |].
    eexists _, _. split; [vm_compute; reflexivity |].
    split; [do 5 eexists; repeat split; reflexivity | exact I].
  - now exists base, info, s', period, aset.
Defined.

(** C3, as stated, fails when the input list is not ascending: for the
    bitrates 600, 300 the node of the 600 kbps representation (rank 1)
    comes before the node of the 300 kbps representation (rank 0). *)
Lemma merged_manifest_follows_input_order :
  exists base info s' period aset,
    merge_manifests sample_lib sample_fs_os "v" [600; 300] sample_tracks
    = (Ok (Some base, info), s')
    /\ subelement base 1 = Ok period
    /\ subelement period 0 = Ok aset
    /\ representation_ids (children_of aset) = [Some "video1"; Some "video0"]
    /\ representation_ids (children_of aset) <> [Some "video0"; Some "video1"].
Proof.
  do 5 eexists. split; [vm_compute; reflexivity |].
  split; [reflexivity |]. split; [reflexivity |].
  split; [reflexivity | discriminate].
Qed.

(** * Further properties of the script *)

(** ** Splitting and reading attributes *)

Section SplitProps.
Implicit Types (sep s a b raw attr : string) (c : ascii) (k : nat).

Lemma string_drop_empty k : string_drop k EmptyString = EmptyString.
Proof. now destruct k. Qed.

Lemma split_skip sep s k : split_from sep s k = split_from sep (string_drop k s) O.
Proof.
  revert k. induction s as [| c s IH]; intros k.
  - now rewrite string_drop_empty.
  - destruct k as [| k]; [reflexivity |]. simpl. apply IH.
Qed.


(** [split] cuts at the first occurrence and goes on with the rest. *)
Lemma split_partition sep s :
  sep <> EmptyString ->
  split sep s = match partition sep s with
                | None => [s]
                | Some (a, b) => a :: split sep b
                end.
Proof.
  intros Hsep. unfold split. induction s as [| c s IH]; [reflexivity |].
  cbn [split_from partition].
  destruct (String.prefix sep (String c s)) eqn:Hp.
  - f_equal. rewrite split_skip.
    destruct sep as [| c0 sep]; [contradiction |]. simpl.
    now rewrite Nat.sub_0_r.
  - rewrite IH. destruct (partition sep s) as [[a b] |]; reflexivity.
Qed.

Lemma prefix_drop sep s :
  String.prefix sep s = true -> s = sep +:+ string_drop (String.length sep) s.
Proof.
  revert s. induction sep as [| c0 sep IH]; intros s H; [reflexivity |].
  destruct s as [| c s]; [discriminate |]. simpl in H.
  destruct (ascii_dec c0 c) as [-> | _]; [| discriminate].
  change (String c s = String c (sep +:+ string_drop (String.length sep) s)).
  f_equal. now apply IH.
Qed.

Lemma partition_sound sep s a b :
  partition sep s = Some (a, b) -> s = a +:+ sep +:+ b.
Proof.
  revert a. induction s as [| c s IH]; intros a; [discriminate |].
  cbn [partition]. destruct (String.prefix sep (String c s)) eqn:Hp.
  - intros [= <- <-]. now apply prefix_drop.
  - destruct (partition sep s) as [[a' b'] |]; [| discriminate].
    intros [= <- <-].
    change (String c s = String c (a' +:+ sep +:+ b')).
    f_equal. now apply IH.
Qed.

Lemma partition_none sep s :
  sep <> EmptyString -> (partition sep s = None <-> contains sep s = false).
Proof.
  intros Hsep. induction s as [| c s IH].
  - simpl. destruct sep; [contradiction | tauto].
  - cbn [partition contains]. destruct (String.prefix sep (String c s)).
    + simpl. split; discriminate.
    + simpl. rewrite <- IH. destruct (partition sep s) as [[a b] |]; split; congruence.
Qed.

Lemma split_head sep s :
  sep <> EmptyString -> item (split sep s) 0 = Ok (before sep s).
Proof.
  intros Hsep. rewrite split_partition by exact Hsep. unfold before.
  destruct (partition sep s) as [[a b] |]; reflexivity.
Qed.

Lemma dq_nonempty : dq <> EmptyString.
Proof. discriminate. Qed.

End SplitProps.

(** X1: [get_attr] looks at the text between the first occurrence of the
    attribute name and its next occurrence (or the end).  It returns what
    follows the first double quote there, up to the second double quote, or
    up to the end of that text when there is no second one.  It raises
    [IndexError] exactly when the name does not occur, or when no double
    quote follows it there. *)
Theorem get_attr_scan (raw attr : string) :
  attr <> EmptyString ->
  get_attr raw attr = of_option IndexError (scan_attr raw attr)
  /\ (forall a rest, partition attr raw = Some (a, rest) -> raw = a +:+ attr +:+ rest)
  /\ (forall a rest b tail,
        partition attr raw = Some (a, rest) ->
        partition dq (before attr rest) = Some (b, tail) ->
        before attr rest = b +:+ dq +:+ tail
        /\ get_attr raw attr = Ok (before dq tail))
  /\ (get_attr raw attr = Raise IndexError <->
      contains attr raw = false
      \/ exists a rest,
           partition attr raw = Some (a, rest) /\ contains dq (before attr rest) = false).
Proof.
  intros Hattr.
  assert (get_attr raw attr = of_option IndexError (scan_attr raw attr)) as Hscan.
  { unfold get_attr, scan_attr. rewrite (split_partition attr raw Hattr).
    destruct (partition attr raw) as [[a rest] |]; [| reflexivity].
    change (item (a :: split attr rest) 1) with (item (split attr rest) 0).
    rewrite (split_head attr rest Hattr). cbn [rbind].
    rewrite (split_partition dq _ dq_nonempty).
    destruct (partition dq (before attr rest)) as [[a2 tail] |]; [| reflexivity].
    change (item (a2 :: split dq tail) 1) with (item (split dq tail) 0).
    now rewrite (split_head dq tail dq_nonempty). }
  split; [exact Hscan |]. split; [| split].
  - intros a rest. apply partition_sound.
  - intros a rest b tail Ha Hb. split; [now apply partition_sound |].
    rewrite Hscan. unfold scan_attr. now rewrite Ha, Hb.
  - rewrite Hscan. unfold scan_attr.
    rewrite <- (partition_none attr raw Hattr).
    destruct (partition attr raw) as [[a rest] |].
    + destruct (partition dq (before attr rest)) as [[b tail] |] eqn:Hq.
      * split; [discriminate |].
        intros [H | (a' & rest' & [= <- <-] & H)]; [discriminate |].
        apply (partition_none dq _ dq_nonempty) in H. congruence.
      * split; [| reflexivity]. intros _. right. exists a, rest.
        split; [reflexivity |]. now apply (partition_none dq _ dq_nonempty).
    + split; [now left | reflexivity].
Qed.

Lemma get_attr_scan_witness :
  get_attr (sample_sidx "x/2.m4s") "earliest_presentation_time" = Ok "5000"
  /\ get_attr ("<SegmentIndexBox timescale=" +:+ dq +:+ "1000 gap") "timescale"
     = Ok "1000 gap"
  /\ get_attr "<SegmentIndexBox timescale=1000>" "timescale" = Raise IndexError
  /\ get_attr "<SegmentIndexBox reference_ID=1>" "timescale" = Raise IndexError.
Proof.
  split; [| split; [| split]].
  - rewrite (proj1 (get_attr_scan (sample_sidx "x/2.m4s") "earliest_presentation_time"
                      ltac:(discriminate))).
    reflexivity.
  - apply (proj1 (proj2 (proj2 (get_attr_scan
                                  ("<SegmentIndexBox timescale=" +:+ dq +:+ "1000 gap")
                                  "timescale" ltac:(discriminate))))
             "<SegmentIndexBox " (String "=" (dq +:+ "1000 gap")) "=" "1000 gap");
      reflexivity.
  - apply (proj2 (proj2 (proj2 (get_attr_scan "<SegmentIndexBox timescale=1000>"
                                  "timescale" ltac:(discriminate))))).
    right. exists "<SegmentIndexBox ", "=1000>". split; reflexivity.
  - apply (proj2 (proj2 (proj2 (get_attr_scan "<SegmentIndexBox reference_ID=1>"
                                  "timescale" ltac:(discriminate))))).
    left. reflexivity.
Defined.

(** ** Lines of a manifest fragment *)

Section LineProps.
Implicit Types (s p c : string) (ch : ascii) (ls ps : list string).













End LineProps.



(** ** The order of the rank identifiers *)

Section RankOrder.
Implicit Types (l rates : list Z) (r x y : Z).

Lemma count_below_mono l r1 r2 :
  r1 <= r2 ->
  (length (filter (fun y => (y < r1)%Z) l) <= length (filter (fun y => (y < r2)%Z) l))%nat.
Proof.
  intros Hle. induction l as [| x l IH]; [reflexivity |].
  rewrite !filter_cons.
  destruct (decide (x < r1)), (decide (x < r2)); simpl; lia.
Qed.

Lemma count_below_strict l r1 r2 :
  r1 < r2 -> r1 ∈ l ->
  (length (filter (fun y => (y < r1)%Z) l) < length (filter (fun y => (y < r2)%Z) l))%nat.
Proof.
  intros Hlt. induction l as [| x l IH]; [intros H; inversion H |].
  intros Hin. rewrite !filter_cons.
  pose proof (count_below_mono l r1 r2 ltac:(lia)) as Hmono.
  apply elem_of_cons in Hin as [<- | Hin].
  - destruct (decide (r1 < r1)); [lia |].
    destruct (decide (r1 < r2)); [simpl; lia | lia].
  - specialize (IH Hin).
    destruct (decide (x < r1)), (decide (x < r2)); simpl; lia.
Qed.

Lemma rank_member rates r k : rank rates r = Ok k -> r ∈ rates.
Proof.
  intros H. destruct (decide (r ∈ rates)) as [Hr | Hr]; [exact Hr |].
  rewrite (rank_absent rates r Hr) in H. discriminate.
Qed.

Lemma count_below_zero l r :
  length (filter (fun y => y < r) l) = O <-> forall y, y ∈ l -> r <= y.
Proof.
  induction l as [| x l IH].
  - split; [intros _ y Hy; inversion Hy | reflexivity].
  - rewrite filter_cons. destruct (decide (x < r)) as [Hx | Hx]; simpl.
    + split; [discriminate |]. intros H. specialize (H x (list_elem_of_here _ _)). lia.
    + rewrite IH. split.
      * intros H y Hy. apply elem_of_cons in Hy as [-> | Hy]; [lia | now apply H].
      * intros H y Hy. apply H. now right.
Qed.

Lemma count_not_below_top l r :
  NoDup l -> r ∈ l -> (forall y, y ∈ l -> y <= r) ->
  length (filter (fun y => y < r) l) = (length l - 1)%nat.
Proof.
  induction 1 as [| x l Hx Hnd IH]; [intros H; inversion H |].
  intros Hin Htop. rewrite filter_cons.
  destruct (decide (x = r)) as [-> | Hne].
  - destruct (decide (r < r)); [lia |]. simpl. rewrite Nat.sub_0_r.
    clear IH Hin. induction l as [| y l IHl]; [reflexivity |].
    apply not_elem_of_cons in Hx as [Hy Hx].
    apply NoDup_cons in Hnd as [_ Hnd].
    rewrite filter_cons_True.
    + simpl. f_equal. apply IHl; [exact Hx | exact Hnd |].
      intros z Hz. apply elem_of_cons in Hz as [-> | Hz]; [apply Htop; left |].
      apply Htop. right. now right.
    + assert (y <= r) by (apply Htop; right; left). lia.
  - apply elem_of_cons in Hin as [-> | Hin]; [contradiction |].
    assert (x <= r) by (apply Htop; left).
    destruct (decide (x < r)); [| lia]. simpl.
    rewrite IH; [| exact Hin | intros y Hy; apply Htop; now right].
    apply list_elem_of_lookup in Hin as [i Hi]. apply lookup_lt_Some in Hi. lia.
Qed.

End RankOrder.

(** X3: the rank identifiers follow the bitrates: of two requested bitrates
    the lower one gets the lower rank; rank 0 goes to the lowest requested
    bitrate and to no other; and when no bitrate is repeated the highest
    one, which is the quality reference, gets rank [n - 1]. *)
Theorem rank_follows_bitrate (rates : list Z) :
  (forall r1 r2 k1 k2,
     rank rates r1 = Ok k1 -> rank rates r2 = Ok k2 -> (r1 < r2 <-> (k1 < k2)%nat))
  /\ (forall r, rank rates r = Ok O <-> r ∈ rates /\ forall y, y ∈ rates -> r <= y)
  /\ (forall r, NoDup rates -> max_of rates = Ok r ->
                rank rates r = Ok (length rates - 1)%nat).
Proof.
  split; [| split].
  - intros r1 r2 k1 k2 H1 H2.
    pose proof (rank_member _ _ _ H1) as Hr1. pose proof (rank_member _ _ _ H2) as Hr2.
    rewrite (rank_count rates r1 Hr1) in H1. rewrite (rank_count rates r2 Hr2) in H2.
    injection H1 as <-. injection H2 as <-. split.
    + intros Hlt. now apply count_below_strict.
    + intros Hk. destruct (decide (r1 < r2)) as [Hlt | Hge]; [exact Hlt |].
      pose proof (count_below_mono rates r2 r1 ltac:(lia)). lia.
  - intros r. split.
    + intros H. pose proof (rank_member _ _ _ H) as Hr. split; [exact Hr |].
      rewrite (rank_count rates r Hr) in H. injection H as H.
      now apply count_below_zero.
    + intros [Hr Hmin]. rewrite (rank_count rates r Hr). f_equal.
      now apply count_below_zero.
  - intros r Hnd Hmax.
    assert (r ∈ rates /\ forall y, y ∈ rates -> y <= r) as [Hr Htop].
    { destruct rates as [| x l]; [discriminate |]. simpl in Hmax. injection Hmax as <-.
      clear Hnd. revert x. induction l as [| y l IH]; intros x; simpl.
      - split; [left |]. intros z Hz. apply elem_of_cons in Hz as [-> | Hz]; [lia | inversion Hz].
      - destruct (IH (Z.max x y)) as [Hin Htop]. split.
        + apply elem_of_cons in Hin as [Heq | Hin]; [| right; now right].
          rewrite Heq. destruct (Z.max_spec x y) as [[_ ->] | [_ ->]]; [right; left | left].
        + intros z Hz. apply elem_of_cons in Hz as [-> | Hz].
          * specialize (Htop (Z.max x y) (list_elem_of_here _ _)). lia.
          * apply elem_of_cons in Hz as [-> | Hz].
            -- specialize (Htop (Z.max x y) (list_elem_of_here _ _)). lia.
            -- apply Htop. now right. }
    rewrite (rank_count rates r Hr). f_equal. now apply count_not_below_top.
Qed.

Lemma rank_follows_bitrate_witness :
  (rank [600; 300; 1200] 300 = Ok O)
  /\ rank [600; 300; 1200] 1200 = Ok 2%nat
  /\ (300 < 1200 <-> (0 < 2)%nat).
Proof.
  destruct (rank_follows_bitrate [600; 300; 1200]) as (Horder & Hzero & Htop).
  split; [| split].
  - apply Hzero. split.
    + refine (bool_decide_unpack _ _). vm_compute. exact I.
    + intros y Hy. repeat (apply elem_of_cons in Hy as [-> | Hy]); try lia. inversion Hy.
  - apply Htop.
    + refine (bool_decide_unpack _ _). vm_compute. exact I.
    + reflexivity.
  - apply (Horder 300 1200); reflexivity.
Defined.

(** ** Paths of the representations *)

Section PathProps.
Implicit Types (s t : string).

Lemma length_append s t : String.length (s +:+ t) = (String.length s + String.length t)%nat.
Proof. induction s as [| c s IH]; [reflexivity |]. simpl. now rewrite IH. Qed.

Lemma append_cancel_r s1 s2 t : s1 +:+ t = s2 +:+ t -> s1 = s2.
Proof.
  revert s2. induction s1 as [| c s1 IH]; intros [| c2 s2] H.
  - reflexivity.
  - apply (f_equal String.length) in H. rewrite !length_append in H. simpl in H. lia.
  - apply (f_equal String.length) in H. rewrite !length_append in H. simpl in H. lia.
  - change (String c (s1 +:+ t) = String c2 (s2 +:+ t)) in H.
    injection H as -> H. f_equal. now apply IH.
Qed.

End PathProps.

(** X4: two different bitrates never share a file or a directory: the
    encoded file, the segment directory and the manifest fragment of a
    bitrate are different from those of any other bitrate. *)
Theorem distinct_bitrates_distinct_paths (out_dir video_name tracks_dir : string)
    (r1 r2 : Z) :
  r1 <> r2 ->
  rep_path out_dir r1 <> rep_path out_dir r2
  /\ segment_dir_of video_name r1 <> segment_dir_of video_name r2
  /\ manifest_path tracks_dir r1 <> manifest_path tracks_dir r2.
Proof.
  intros Hne. split; [| split]; intros H; apply Hne.
  - unfold rep_path, path_join in H.
    destruct (decide (out_dir = EmptyString)).
    + apply String.app_inj in H. apply append_cancel_r in H. now apply pretty_Z_inj.
    + destruct (ends_with_slash out_dir).
      * do 2 apply String.app_inj in H. apply append_cancel_r in H. now apply pretty_Z_inj.
      * do 3 apply String.app_inj in H. apply append_cancel_r in H. now apply pretty_Z_inj.
  - unfold segment_dir_of in H. do 3 apply String.app_inj in H. now apply pretty_Z_inj.
  - unfold manifest_path in H. do 2 apply String.app_inj in H.
    apply append_cancel_r in H. now apply pretty_Z_inj.
Qed.

Lemma distinct_bitrates_distinct_paths_witness :
  rep_path "videos/v/tmp" 300 <> rep_path "videos/v/tmp" 3000
  /\ segment_dir_of "v" 300 <> segment_dir_of "v" 3000
  /\ manifest_path "videos/v/tracks" 300 <> manifest_path "videos/v/tracks" 3000.
Proof.
  apply (distinct_bitrates_distinct_paths "videos/v/tmp" "v" "videos/v/tracks" 300 3000).
  lia.
Defined.

(** ** Results and failures of the encoding step *)

Section TranscodeResults.
Context {World : Type} (os : OS World).
Implicit Types (s : state World) (rates : list Z) (out_map : gmap Z string).

Lemma bind_raise_inv {A B} (m : M World A) (k : A -> M World B) s e s' :
  bind m k s = (Raise e, s') ->
  m s = (Raise e, s') \/ exists a s1, m s = (Ok a, s1) /\ k a s1 = (Raise e, s').
Proof.
  unfold bind. destruct (m s) as [[a | e0] s1]; intros H.
  - right. now exists a, s1.
  - left. now injection H as <- <-.
Qed.

Lemma run_cmd_raise_inv cmd s e s' :
  run_cmd os cmd s = (Raise e, s') ->
  e = CalledProcessError cmd /\ log s' = (cmd, None) :: log s.
Proof.
  unfold run_cmd. destruct (sh os cmd (world s)) as [[o |] w]; [discriminate |].
  now intros [= <- <-].
Qed.

Lemma transcode_one_ok_inv src out_dir fps gop out_map r s out_map' s' :
  transcode_one os src out_dir fps gop out_map r s = (Ok out_map', s') ->
  out_map' = <[r := rep_path out_dir r]> out_map.
Proof.
  unfold transcode_one, bind, is_file.
  destruct (isfile os (rep_path out_dir r) (world s)).
  - now intros [= <- _].
  - destruct (run_cmd os _ _) as [[o | e] s1]; [| discriminate]. now intros [= <- _].
Qed.

Lemma transcode_one_raise_inv src out_dir fps gop out_map r s e s' :
  transcode_one os src out_dir fps gop out_map r s = (Raise e, s') ->
  isfile os (rep_path out_dir r) (world s) = false
  /\ e = CalledProcessError (encode_cmd src (rep_path out_dir r) fps gop r)
  /\ log s' = (encode_cmd src (rep_path out_dir r) fps gop r, None) :: log s.
Proof.
  unfold transcode_one, bind, is_file.
  destruct (isfile os (rep_path out_dir r) (world s)); [discriminate |].
  destruct (run_cmd os _ s) as [[o | e0] s1] eqn:E; [discriminate |].
  intros [= <- <-]. split; [reflexivity |]. now apply run_cmd_raise_inv.
Qed.

Lemma transcode_loop_ok src out_dir fps gop rates out_map s out_map' s' :
  for_each rates (transcode_one os src out_dir fps gop) out_map s = (Ok out_map', s') ->
  forall r, out_map' !! r
            = if decide (r ∈ rates) then Some (rep_path out_dir r) else out_map !! r.
Proof.
  revert out_map s. induction rates as [| x rates IH]; intros out_map s H r.
  - injection H as <- _. destruct (decide (r ∈ [])) as [Hr | _]; [inversion Hr | reflexivity].
  - simpl in H. apply bind_ok_inv in H as (m1 & s1 & Hone & Hrest).
    apply transcode_one_ok_inv in Hone. subst m1.
    rewrite (IH _ _ Hrest r).
    destruct (decide (r ∈ rates)) as [Hr | Hr].
    + destruct (decide (r ∈ x :: rates)) as [_ | Hn]; [reflexivity |].
      exfalso. apply Hn. now right.
    + destruct (decide (r = x)) as [-> | Hne].
      * rewrite lookup_insert_eq.
        destruct (decide (x ∈ x :: rates)) as [_ | Hn]; [reflexivity |].
        exfalso. apply Hn. left.
      * rewrite lookup_insert_ne by congruence.
        destruct (decide (r ∈ x :: rates)) as [Hin | _]; [| reflexivity].
        apply elem_of_cons in Hin as [-> | Hin]; contradiction.
Qed.

Lemma transcode_one_ok_log src out_dir fps gop out_map r s out_map' s' :
  transcode_one os src out_dir fps gop out_map r s = (Ok out_map', s') ->
  exists new,
    log s' = new ++ log s
    /\ Forall (fun c => is_Some c.2
                       /\ c.1 = encode_cmd src (rep_path out_dir r) fps gop r) new.
Proof.
  unfold transcode_one, bind, is_file.
  destruct (isfile os (rep_path out_dir r) (world s)).
  - intros [= _ <-]. now exists [].
  - destruct (run_cmd os _ s) as [[o | e] s1] eqn:E; [| discriminate].
    intros [= _ <-]. apply run_cmd_ok_inv in E.
    exists [(encode_cmd src (rep_path out_dir r) fps gop r, Some o)].
    split; [exact E |]. repeat constructor. simpl. eauto.
Qed.

(** A loop that raises has stopped at the encoder command of one bitrate;
    what was run before it succeeded and belongs to the bitrates listed
    before that one. *)
Lemma transcode_loop_raise src out_dir fps gop rates out_map s e s' :
  for_each rates (transcode_one os src out_dir fps gop) out_map s = (Raise e, s') ->
  exists done r rest new,
    rates = done ++ r :: rest
    /\ e = CalledProcessError (encode_cmd src (rep_path out_dir r) fps gop r)
    /\ log s' = (encode_cmd src (rep_path out_dir r) fps gop r, None) :: new ++ log s
    /\ Forall (fun c => is_Some c.2
                       /\ exists x, x ∈ done
                            /\ c.1 = encode_cmd src (rep_path out_dir x) fps gop x) new.
Proof.
  revert out_map s. induction rates as [| x rates IH]; intros out_map s H.
  - discriminate.
  - cbn [for_each] in H. apply bind_raise_inv in H as [H | (m1 & s1 & Hone & H)].
    + apply transcode_one_raise_inv in H as (_ & -> & Hlog).
      exists [], x, rates, []. repeat split; [exact Hlog | constructor].
    + destruct (IH _ _ H) as (done & r & rest & new & -> & He & Hlog & Hall).
      apply transcode_one_ok_log in Hone as (n1 & Hn1 & Hall1).
      exists (x :: done), r, rest, (new ++ n1).
      split; [reflexivity |]. split; [exact He |]. split.
      * now rewrite Hlog, Hn1, <- app_assoc.
      * apply Forall_app. split.
        { eapply Forall_impl; [exact Hall |].
          intros c (Hc & y & Hy & Hcmd). split; [exact Hc |].
          exists y. split; [now right | exact Hcmd]. }
        eapply Forall_impl; [exact Hall1 |].
        intros c (Hc & Hcmd). split; [exact Hc |]. exists x. split; [left | exact Hcmd].
Qed.

End TranscodeResults.

(** X5: when [transcode_h264_reps] returns, the dictionary it returns has
    exactly the requested bitrates as keys, and each one is mapped to
    [rep_<rate>.mp4] in the output directory, whether the file was found or
    was encoded during the call. *)
Theorem transcode_returns_every_bitrate {World : Type} (os : OS World)
    (src_mp4 out_dir : string) (rates : list Z) (fps seg_s : Z)
    (s s' : state World) (out_map : gmap Z string) :
  transcode_h264_reps os src_mp4 out_dir rates fps seg_s s = (Ok out_map, s') ->
  forall r, out_map !! r = if decide (r ∈ rates) then Some (rep_path out_dir r) else None.
Proof.
  unfold transcode_h264_reps. intros H r.
  apply bind_ok_inv in H as (u & s1 & _ & H).
  rewrite (transcode_loop_ok os _ _ _ _ _ _ _ _ _ H r).
  destruct (decide (r ∈ rates)); [reflexivity | apply lookup_empty].
Qed.

Lemma transcode_returns_every_bitrate_witness :
  (transcode_h264_reps sample_os "in.mp4" "videos/v/tmp" [300; 600] 24 5 sample_fresh).1
  = Ok (<[600 := "videos/v/tmp/rep_600.mp4"]> {[ 300 := "videos/v/tmp/rep_300.mp4" ]})
  /\ (<[600 := "videos/v/tmp/rep_600.mp4"]> {[ 300 := "videos/v/tmp/rep_300.mp4" ]}
        : gmap Z string) !! 600
     = (if decide (600 ∈ [300; 600]) then Some (rep_path "videos/v/tmp" 600) else None)
  /\ (<[600 := "videos/v/tmp/rep_600.mp4"]> {[ 300 := "videos/v/tmp/rep_300.mp4" ]}
        : gmap Z string) !! 900
     = (if decide (900 ∈ [300; 600]) then Some (rep_path "videos/v/tmp" 900) else None).
Proof.
  split; [vm_compute; reflexivity |].
  split;
    apply (transcode_returns_every_bitrate sample_os "in.mp4" "videos/v/tmp" [300; 600] 24 5
             sample_fresh
             (transcode_h264_reps sample_os "in.mp4" "videos/v/tmp" [300; 600] 24 5
                sample_fresh).2);
    vm_compute; reflexivity.
Defined.

(** X6: when [transcode_h264_reps] raises [CalledProcessError], the command
    that failed is the encoder command of a requested bitrate and it is the
    last command run; the commands run before it in this call all succeeded
    and are encoder commands of bitrates listed before that one: the
    bitrates listed after it were not attempted. *)
Theorem transcode_stops_at_failed_encoder {World : Type} (os : OS World)
    (src_mp4 out_dir : string) (rates : list Z) (fps seg_s : Z)
    (s s' : state World) (cmd : string) :
  transcode_h264_reps os src_mp4 out_dir rates fps seg_s s
  = (Raise (CalledProcessError cmd), s') ->
  exists done r rest new,
    rates = done ++ r :: rest
    /\ cmd = encode_cmd src_mp4 (rep_path out_dir r) fps (fps * seg_s) r
    /\ log s' = (cmd, None) :: new ++ log s
    /\ Forall (fun c => is_Some c.2
                       /\ exists x, x ∈ done
                            /\ c.1 = encode_cmd src_mp4 (rep_path out_dir x) fps
                                       (fps * seg_s) x) new.
Proof.
  unfold transcode_h264_reps. intros H.
  apply bind_raise_inv in H as [H | (u & s1 & Hdir & H)].
  - unfold ensure_dir in H.
    destruct (makedirs os out_dir (world s)); discriminate.
  - assert (log s1 = log s) as Hsame.
    { unfold ensure_dir in Hdir.
      destruct (makedirs os out_dir (world s)); [| discriminate]. now injection Hdir as _ <-. }
    apply (transcode_loop_raise os) in H
      as (done & r & rest & new & Hrates & He & Hlog & Hall).
    injection He as ->. exists done, r, rest, new.
    split; [exact Hrates |]. split; [reflexivity |]. split; [| exact Hall].
    now rewrite Hlog, Hsame.
Qed.

Lemma transcode_stops_at_failed_encoder_witness :
  exists done r rest new,
    [300; 600; 1200] = done ++ r :: rest
    /\ encode_cmd "in.mp4" "videos/v/tmp/rep_600.mp4" 24 120 600
       = encode_cmd "in.mp4" (rep_path "videos/v/tmp" r) 24 (24 * 5) r
    /\ log (transcode_h264_reps sample_os_failing "in.mp4" "videos/v/tmp"
              [300; 600; 1200] 24 5 sample_fresh).2
       = (encode_cmd "in.mp4" "videos/v/tmp/rep_600.mp4" 24 120 600, None)
         :: new ++ log sample_fresh
    /\ Forall (fun c => is_Some c.2
                       /\ exists x, x ∈ done
                            /\ c.1 = encode_cmd "in.mp4" (rep_path "videos/v/tmp" x) 24
                                       (24 * 5) x) new.
Proof.
  apply (transcode_stops_at_failed_encoder sample_os_failing "in.mp4" "videos/v/tmp"
           [300; 600; 1200] 24 5 sample_fresh).
  vm_compute. reflexivity.
Defined.

(** ** The commands of the segmentation step *)

Section SegmentTrace.
Context (L : PyLib) {World : Type} (os : OS World).
Implicit Types (s : state World) (acc si : gmap Z seg_entry).

Lemma ensure_dir_ok_inv p s u s' : ensure_dir os p s = (Ok u, s') -> log s' = log s.
Proof.
  unfold ensure_dir. destruct (makedirs os p (world s)); [| discriminate].
  now intros [= _ <-].
Qed.

Lemma rm_ok_inv p s u s' :
  rm os p s = (Ok u, s') -> exists out, log s' = (rm_cmd p, Some out) :: log s.
Proof.
  unfold rm. intros H. apply bind_ok_inv in H as (out & s1 & Hrun & H).
  injection H as _ <-. exists out. now apply run_cmd_ok_inv in Hrun.
Qed.

Lemma abs_path_ok_inv p s a s' :
  abs_path os p s = (Ok a, s') -> a = abspath os p (world s) /\ s' = s.
Proof. unfold abs_path. now intros [= <- <-]. Qed.

Lemma segment_loop_trace dir (l : list Z) acc s si s' :
  for_each l (segment_one L os dir) acc s = (Ok si, s') ->
  exists new,
    log s' = new ++ log s
    /\ rev (map fst new) = map (sidx_cmd dir) l
    /\ Forall (fun e => is_Some e.2) new.
Proof.
  revert acc s. induction l as [| x l IH]; intros acc s H.
  - injection H as _ <-. now exists [].
  - simpl in H. apply bind_ok_inv in H as (acc1 & s1 & Hone & Hrest).
    destruct (IH _ _ Hrest) as (new & Hnew & Hcmds & Hok).
    unfold segment_one in Hone.
    apply bind_ok_inv in Hone as (raw & s0 & Hraw & Hone).
    apply bind_ok_inv in Hone as (start & s0' & Hstart & Hone).
    apply lift_ok_inv in Hstart as [_ ->]. injection Hone as _ <-.
    apply run_cmd_ok_inv in Hraw.
    exists (new ++ [(sidx_cmd dir x, Some raw)]). split; [| split].
    + now rewrite Hnew, Hraw, <- app_assoc.
    + rewrite map_app, rev_app_distr, Hcmds. reflexivity.
    + apply Forall_app. split; [exact Hok |]. repeat constructor. simpl. eauto.
Qed.

Lemma run_cmd_ok_state cmd s out s' :
  run_cmd os cmd s = (Ok out, s') ->
  s' = State (sh os cmd (world s)).2 ((cmd, Some out) :: log s).
Proof.
  unfold run_cmd. destruct (sh os cmd (world s)) as [[o |] w]; [| discriminate].
  now intros [= <- <-].
Qed.

Lemma rm_ok_state p s u s' :
  rm os p s = (Ok u, s') ->
  exists out, s' = State (sh os (rm_cmd p) (world s)).2 ((rm_cmd p, Some out) :: log s).
Proof.
  unfold rm. intros H. apply bind_ok_inv in H as (out & s1 & Hrun & H).
  injection H as _ <-. exists out. now apply run_cmd_ok_state.
Qed.

Lemma ensure_dir_ok_state p s u s' :
  ensure_dir os p s = (Ok u, s') ->
  exists w, makedirs os p (world s) = Some w /\ s' = State w (log s).
Proof.
  unfold ensure_dir. destruct (makedirs os p (world s)) as [w |]; [| discriminate].
  intros [= _ <-]. now exists w.
Qed.

(** What a call of [segment_rep] that returns has gone through: the two
    removals and the two directory creations, MP4Box on the absolute path
    taken in the world they left, the moves, the removal, the count, and
    then the loop over the chunks. *)
Lemma segment_rep_ok_inv video_name rep_mp4 rate seg_s s si s' :
  segment_rep L os video_name rep_mp4 rate seg_s s = (Ok si, s') ->
  let segment_dir := segment_dir_of video_name rate in
  let tmp := "videos/" +:+ video_name +:+ "/tmp/mp4box_" +:+ pretty rate in
  exists o1 w2 o3 w4 o6 o7 o8 o9 o10 count segments s11,
    makedirs os segment_dir (sh os (rm_cmd segment_dir) (world s)).2 = Some w2
    /\ makedirs os tmp (sh os (rm_cmd tmp) w2).2 = Some w4
    /\ log s11
       = [ (count_cmd segment_dir, Some count);
           (rm_cmd tmp, Some o10);
           ("mv " +:+ quoted tmp +:+ "/*.m4s " +:+ quoted (segment_dir +:+ "/"), Some o9);
           ("mv " +:+ quoted (tmp +:+ "/init.mp4") +:+ " "
              +:+ quoted (segment_dir +:+ "/init.mp4"), Some o8);
           ("mv " +:+ quoted tmp +:+ "/*_dash.mpd "
              +:+ quoted (segment_dir +:+ "/intermediate_dash.mpd"), Some o7);
           (dash_cmd tmp (seg_s * 1000) (abspath os rep_mp4 w4), Some o6);
           (rm_cmd tmp, Some o3);
           (rm_cmd segment_dir, Some o1) ] ++ log s
    /\ int_of_str L count = Some segments
    /\ for_each (range1 segments) (segment_one L os segment_dir) ∅ s11 = (Ok si, s').
Proof.
  intros H segment_dir tmp. unfold segment_rep in H.
  fold segment_dir in H. fold tmp in H.
  apply bind_ok_inv in H as (? & s1 & H1 & H). apply rm_ok_state in H1 as (o1 & ->).
  apply bind_ok_inv in H as (? & s2 & H2 & H).
  apply ensure_dir_ok_state in H2 as (w2 & Hw2 & ->). cbn [world log] in *.
  apply bind_ok_inv in H as (? & s3 & H3 & H). apply rm_ok_state in H3 as (o3 & ->).
  apply bind_ok_inv in H as (? & s4 & H4 & H).
  apply ensure_dir_ok_state in H4 as (w4 & Hw4 & ->). cbn [world log] in *.
  apply bind_ok_inv in H as (rep_abs & s5 & H5 & H).
  apply abs_path_ok_inv in H5 as [-> ->]. cbn [world log] in *.
  apply bind_ok_inv in H as (o6 & s6 & H6 & H). apply run_cmd_ok_inv in H6.
  apply bind_ok_inv in H as (o7 & s7 & H7 & H). apply run_cmd_ok_inv in H7.
  apply bind_ok_inv in H as (o8 & s8 & H8 & H). apply run_cmd_ok_inv in H8.
  apply bind_ok_inv in H as (o9 & s9 & H9 & H). apply run_cmd_ok_inv in H9.
  apply bind_ok_inv in H as (? & s10 & H10 & H). apply rm_ok_inv in H10 as (o10 & H10).
  apply bind_ok_inv in H as (count & s11 & H11 & H). apply run_cmd_ok_inv in H11.
  apply bind_ok_inv in H as (segments & s12 & H12 & H).
  apply lift_ok_inv in H12 as [H12 ->]. apply of_option_ok_inv in H12.
  exists o1, w2, o3, w4, o6, o7, o8, o9, o10, count, segments, s11.
  split; [exact Hw2 |]. split; [exact Hw4 |]. split; [| split; [exact H12 | exact H]].
  rewrite H11, H10, H9, H8, H7, H6. reflexivity.
Qed.

End SegmentTrace.

(** X7: a call of [segment_rep] that returns has run, in this order and
    each with success: the removal of the segment directory, the removal of
    the scratch directory, MP4Box with the segment duration in milliseconds
    on the absolute path of the representation (taken in the world left by
    the two removals and the two directory creations), the three moves, the
    removal of the scratch directory, the count of the chunks, and one index
    box command per chunk from 1 to the count; nothing else.  When the count
    is zero no index box is read and the result is empty. *)
Theorem segment_rep_commands (L : PyLib) {World : Type} (os : OS World)
    (video_name rep_mp4 : string) (rate seg_s : Z) (s s' : state World)
    (si : gmap Z seg_entry) :
  segment_rep L os video_name rep_mp4 rate seg_s s = (Ok si, s') ->
  let segment_dir := segment_dir_of video_name rate in
  let tmp := "videos/" +:+ video_name +:+ "/tmp/mp4box_" +:+ pretty rate in
  exists new w2 w4 count segments,
    makedirs os segment_dir (sh os (rm_cmd segment_dir) (world s)).2 = Some w2
    /\ makedirs os tmp (sh os (rm_cmd tmp) w2).2 = Some w4
    /\ log s' = new ++ log s
    /\ Forall (fun e => is_Some e.2) new
    /\ In (count_cmd segment_dir, Some count) new
    /\ int_of_str L count = Some segments
    /\ rev (map fst new)
       = [ rm_cmd segment_dir;
           rm_cmd tmp;
           dash_cmd tmp (seg_s * 1000) (abspath os rep_mp4 w4);
           "mv " +:+ quoted tmp +:+ "/*_dash.mpd "
             +:+ quoted (segment_dir +:+ "/intermediate_dash.mpd");
           "mv " +:+ quoted (tmp +:+ "/init.mp4") +:+ " "
             +:+ quoted (segment_dir +:+ "/init.mp4");
           "mv " +:+ quoted tmp +:+ "/*.m4s " +:+ quoted (segment_dir +:+ "/");
           rm_cmd tmp;
           count_cmd segment_dir ]
         ++ map (sidx_cmd segment_dir) (range1 segments)
    /\ (segments <= 0 -> si = ∅).
Proof.
  intros H segment_dir tmp.
  destruct (segment_rep_ok_inv L os _ _ _ _ _ _ _ H)
    as (o1 & w2 & o3 & w4 & o6 & o7 & o8 & o9 & o10 & count & segments & s11
        & Hw2 & Hw4 & Hlog & Hcount & Hloop).
  fold segment_dir in Hw2, Hw4, Hlog, Hloop. fold tmp in Hw4, Hlog.
  destruct (segment_loop_trace L os _ _ _ _ _ _ Hloop) as (new & Hnew & Hcmds & Hok).
  destruct (segment_loop L os _ _ _ _ _ _ Hloop) as (_ & Hdom & _).
  exists (new ++ [ (count_cmd segment_dir, Some count);
                   (rm_cmd tmp, Some o10);
                   ("mv " +:+ quoted tmp +:+ "/*.m4s " +:+ quoted (segment_dir +:+ "/"),
                    Some o9);
                   ("mv " +:+ quoted (tmp +:+ "/init.mp4") +:+ " "
                      +:+ quoted (segment_dir +:+ "/init.mp4"), Some o8);
                   ("mv " +:+ quoted tmp +:+ "/*_dash.mpd "
                      +:+ quoted (segment_dir +:+ "/intermediate_dash.mpd"), Some o7);
                   (dash_cmd tmp (seg_s * 1000) (abspath os rep_mp4 w4), Some o6);
                   (rm_cmd tmp, Some o3);
                   (rm_cmd segment_dir, Some o1) ]),
         w2, w4, count, segments.
  split; [exact Hw2 |]. split; [exact Hw4 |].
  split; [| split; [| split; [| split; [exact Hcount | split]]]].
  - rewrite Hnew, Hlog, <- app_assoc. reflexivity.
  - apply Forall_app. split; [exact Hok |]. repeat constructor; simpl; eauto.
  - apply in_or_app. right. left. reflexivity.
  - rewrite map_app, rev_app_distr, Hcmds. reflexivity.
  - intros Hzero. apply map_eq. intros n. rewrite lookup_empty.
    destruct (si !! n) as [e |] eqn:E; [| reflexivity]. exfalso.
    assert (is_Some (si !! n)) as Hn by eauto.
    apply Hdom in Hn as [[e0 He0] | Hn].
    + now rewrite lookup_empty in He0.
    + unfold range1 in Hn. apply elem_of_seqZ in Hn. lia.
Qed.

Lemma segment_rep_commands_witness :
  exists new count segments,
    log (segment_rep sample_lib sample_os "v" "videos/v/tmp/rep_300.mp4" 300 5
           sample_fresh).2 = new ++ log sample_fresh
    /\ Forall (fun e => is_Some e.2) new
    /\ In (count_cmd (segment_dir_of "v" 300), Some count) new
    /\ int_of_str sample_lib count = Some segments
    /\ rev (map fst new)
       = [ rm_cmd (segment_dir_of "v" 300);
           rm_cmd "videos/v/tmp/mp4box_300";
           dash_cmd "videos/v/tmp/mp4box_300" (5 * 1000) "/work/videos/v/tmp/rep_300.mp4";
           "mv " +:+ quoted "videos/v/tmp/mp4box_300" +:+ "/*_dash.mpd "
             +:+ quoted (segment_dir_of "v" 300 +:+ "/intermediate_dash.mpd");
           "mv " +:+ quoted ("videos/v/tmp/mp4box_300" +:+ "/init.mp4") +:+ " "
             +:+ quoted (segment_dir_of "v" 300 +:+ "/init.mp4");
           "mv " +:+ quoted "videos/v/tmp/mp4box_300" +:+ "/*.m4s "
             +:+ quoted (segment_dir_of "v" 300 +:+ "/");
           rm_cmd "videos/v/tmp/mp4box_300";
           count_cmd (segment_dir_of "v" 300) ]
         ++ map (sidx_cmd (segment_dir_of "v" 300)) (range1 segments).
Proof.
  destruct (segment_rep_commands sample_lib sample_os "v" "videos/v/tmp/rep_300.mp4" 300 5
              sample_fresh
              (segment_rep sample_lib sample_os "v" "videos/v/tmp/rep_300.mp4" 300 5
                 sample_fresh).2
              (sample_starts [(1, 0%float); (2, 5%float)]))
    as (new & w2 & w4 & count & segments & _ & _ & Hlog & Hok & Hcount & Hint & Hcmds & _).
  - vm_compute. reflexivity.
  - exists new, count, segments.
    split; [exact Hlog |]. split; [exact Hok |]. split; [exact Hcount |].
    split; [exact Hint | exact Hcmds].
Defined.

(** ** Dimensions and failures of the manifest merge *)

Section ManifestInfo.
Context (L : PyLib) {World : Type} (os : OS World).
Implicit Types (s : state World) (cs : list element) (info : gmap Z dims).

(** The node that the loop over the children leaves in [representation] is
    the last child whose tag contains "Representation". *)
Lemma find_representation_last cs i0 found j :
  find_representation cs i0 found = Some j ->
  (found = Some j /\ Forall (fun c => is_representation c = false) cs)
  \/ exists k c,
       j = (i0 + k)%nat /\ cs !! k = Some c /\ is_representation c = true
       /\ forall k' c', (k < k')%nat -> cs !! k' = Some c' -> is_representation c' = false.
Proof.
  revert i0 found. induction cs as [| c cs IH]; intros i0 found H.
  - left. now split.
  - simpl in H. destruct (IH _ _ H) as [[Hfound Hnone] | (k & c' & -> & Hk & Hrep & Hlast)].
    + destruct (is_representation c) eqn:Hc.
      * right. injection Hfound as <-. exists O, c.
        split; [lia |]. split; [reflexivity |]. split; [exact Hc |].
        intros k' c' Hlt Hk'. destruct k' as [| k']; [lia |]. simpl in Hk'.
        rewrite Forall_forall in Hnone. apply Hnone.
        apply list_elem_of_lookup. eauto.
      * left. split; [exact Hfound |]. now constructor.
    + right. exists (S k), c'. split; [lia |]. split; [exact Hk |]. split; [exact Hrep |].
      intros k' c'' Hlt Hk'. destruct k' as [| k']; [lia |]. simpl in Hk'.
      apply (Hlast k' c''); [lia | exact Hk'].
Qed.

(** A successful step of the merge has read the width and the height of
    the last representation node under [tree[1][0]] into [info]. *)
Lemma merge_fragment_ok_inv rates manifest rate tree base info base' info' :
  merge_fragment L rates manifest rate tree (base, info) = Ok (base', info') ->
  exists period root i found w h,
    subelement tree 1 = Ok period
    /\ subelement period 0 = Ok root
    /\ children_of root !! i = Some found
    /\ is_representation found = true
    /\ (forall j c, (i < j)%nat -> children_of root !! j = Some c ->
                    is_representation c = false)
    /\ int_attr L "width" found = Ok w
    /\ int_attr L "height" found = Ok h
    /\ info' = <[rate := Dims w h]> info.
Proof.
  unfold merge_fragment. intros H.
  apply rbind_ok_inv in H as (period & Hperiod & H).
  apply rbind_ok_inv in H as (root & Hroot & H).
  destruct (find_representation (children_of root) 0 None) as [i |] eqn:Hfind;
    [| discriminate].
  apply rbind_ok_inv in H as (found & Hfound & H).
  apply rbind_ok_inv in H as (pl & Hpl & H).
  apply rbind_ok_inv in H as (w & Hw & H).
  apply rbind_ok_inv in H as (h & Hh & H).
  rewrite int_attr_set_id in Hw, Hh by discriminate.
  apply of_option_ok_inv in Hfound.
  apply find_representation_last in Hfind
    as [[Hnone _] | (k & c & Hi & Hk & Hrep & Hlast)]; [discriminate |].
  simpl in Hi. subst k. rewrite Hfound in Hk. injection Hk as <-.
  exists period, root, i, found, w, h.
  repeat (split; [assumption |]).
  destruct base as [b |].
  - apply rbind_ok_inv in H as (? & _ & H). apply rbind_ok_inv in H as (? & _ & H).
    now injection H as _ <-.
  - now injection H as _ <-.
Qed.

Lemma manifest_loop_info tracks_dir rates (l : list Z) acc s st s' :
  for_each l (manifest_one L os tracks_dir rates) acc s = (Ok st, s') ->
  (forall r, r ∉ l -> st.2 !! r = acc.2 !! r)
  /\ (forall r, r ∈ l ->
        exists tree s0 s1 period root i found w h,
          load_fragment L os (manifest_path tracks_dir r) s0 = (Ok tree, s1)
          /\ subelement tree 1 = Ok period
          /\ subelement period 0 = Ok root
          /\ children_of root !! i = Some found
          /\ is_representation found = true
          /\ (forall j c, (i < j)%nat -> children_of root !! j = Some c ->
                          is_representation c = false)
          /\ int_attr L "width" found = Ok w
          /\ int_attr L "height" found = Ok h
          /\ st.2 !! r = Some (Dims w h)).
Proof.
  revert acc s. induction l as [| x l IH]; intros acc s H.
  - injection H as <- _. split; [reflexivity | intros r Hr; inversion Hr].
  - simpl in H. apply bind_ok_inv in H as (acc1 & s1 & Hone & Hrest).
    destruct (IH _ _ Hrest) as (Hout & Hin).
    unfold manifest_one in Hone.
    apply bind_ok_inv in Hone as (tree & s0 & Hload & Hone).
    apply lift_ok_inv in Hone as [Hmerge ->].
    destruct acc as [base info]. destruct acc1 as [base1 info1].
    apply merge_fragment_ok_inv in Hmerge
      as (period & root & i & found & w & h & H1 & H2 & H3 & H4 & H5 & H6 & H7 & ->).
    split.
    + intros r Hr. apply not_elem_of_cons in Hr as [Hne Hr].
      rewrite (Hout r Hr). simpl. now rewrite lookup_insert_ne by congruence.
    + intros r Hr. destruct (decide (r ∈ l)) as [Hl | Hl]; [now apply Hin |].
      apply elem_of_cons in Hr as [-> | Hr]; [| contradiction].
      exists tree, s, s0, period, root, i, found, w, h.
      repeat (split; [assumption |]).
      rewrite (Hout x Hl). simpl. apply lookup_insert_eq.
Qed.

Lemma load_fragment_log manifest s tree s' :
  load_fragment L os manifest s = (Ok tree, s') -> log s' = log s.
Proof.
  unfold load_fragment. intros H.
  apply bind_ok_inv in H as (content & s1 & H1 & H).
  unfold read in H1. injection H1 as _ <-.
  apply bind_ok_inv in H as (? & s2 & H2 & H).
  unfold write in H2. destruct (write_file os _ _ (world s)); [| discriminate].
  injection H2 as _ <-.
  apply bind_ok_inv in H as (text & s3 & H3 & H).
  unfold read in H3. injection H3 as _ <-.
  now apply lift_ok_inv in H as [_ ->].
Qed.

End ManifestInfo.

(** X8: the dictionary that [build_common_manifest] returns has exactly the
    requested bitrates as keys; the entry of a bitrate holds the integer
    [width] and [height] attributes of the last node tagged as a
    representation under [tree[1][0]] of the fragment loaded for it. *)
Theorem manifest_info_dimensions (L : PyLib) {World : Type} (os : OS World)
    (video_name : string) (rates : list Z) (s s' : state World) (info : gmap Z dims) :
  build_common_manifest L os video_name rates s = (Ok info, s') ->
  (forall r, r ∉ rates -> info !! r = None)
  /\ (forall r, r ∈ rates ->
        exists tree s0 s1 period root i found w h,
          load_fragment L os
            (manifest_path ("videos/" +:+ video_name +:+ "/tracks") r) s0 = (Ok tree, s1)
          /\ subelement tree 1 = Ok period
          /\ subelement period 0 = Ok root
          /\ children_of root !! i = Some found
          /\ is_representation found = true
          /\ (forall j c, (i < j)%nat -> children_of root !! j = Some c ->
                          is_representation c = false)
          /\ int_attr L "width" found = Ok w
          /\ int_attr L "height" found = Ok h
          /\ info !! r = Some (Dims w h)).
Proof.
  unfold build_common_manifest. intros H.
  apply bind_ok_inv in H as (st & s1 & Hloop & H).
  apply bind_ok_inv in H as (? & s2 & _ & H).
  destruct (fst st) as [base |] eqn:Hbase.
  - apply bind_ok_inv in H as (? & s3 & _ & H). injection H as <- _.
    unfold merge_manifests in Hloop.
    destruct (manifest_loop_info L os _ _ _ _ _ _ _ Hloop) as (Hout & Hin).
    split; [| exact Hin].
    intros r Hr. rewrite (Hout r Hr). apply lookup_empty.
  - apply bind_ok_inv in H as (? & s3 & _ & H). discriminate.
Qed.

Lemma manifest_info_dimensions_witness :
  let run := build_common_manifest sample_lib sample_os "v" [600; 300] sample_fresh in
  run.1 = Ok (<[300 := Dims 640 360]> {[ 600 := Dims 1280 720 ]})
  /\ (<[300 := Dims 640 360]> {[ 600 := Dims 1280 720 ]} : gmap Z dims) !! 1200 = None
  /\ exists tree s0 s1 period root i found,
       load_fragment sample_lib sample_os (manifest_path "videos/v/tracks" 600) s0
       = (Ok tree, s1)
       /\ subelement tree 1 = Ok period
       /\ subelement period 0 = Ok root
       /\ children_of root !! i = Some found
       /\ int_attr sample_lib "width" found = Ok 1280
       /\ int_attr sample_lib "height" found = Ok 720.
Proof.
  cbv zeta. split; [vm_compute; reflexivity |].
  destruct (manifest_info_dimensions sample_lib sample_os "v" [600; 300] sample_fresh
              (build_common_manifest sample_lib sample_os "v" [600; 300] sample_fresh).2
              (<[300 := Dims 640 360]> {[ 600 := Dims 1280 720 ]}))
    as (Hout & Hin).
  - vm_compute. reflexivity.
  - split.
    + apply Hout. intros Hr.
      repeat (apply elem_of_cons in Hr as [Hr | Hr]; [discriminate Hr |]). inversion Hr.
    + destruct (Hin 600) as (tree & s0 & s1 & period & root & i & found & w & h
                             & H1 & H2 & H3 & H4 & _ & _ & H7 & H8 & H9).
      { left. }
      exists tree, s0, s1, period, root, i, found.
      repeat (split; [assumption |]).
      assert (Dims w h = Dims 1280 720) as Hd.
      { apply (f_equal (fun o => default (Dims 0 0) o)) in H9. exact (eq_sym H9). }
      injection Hd as -> ->. now split.
Defined.

(** X9: a fragment whose [tree[1][0]] has no child tagged as a
    representation stops the merge with a [RuntimeError] that names the
    fragment file, and a fragment whose root has fewer than two children
    stops it with an [IndexError]; when this happens at the first bitrate
    [build_common_manifest] has run no command: the merged manifest is
    neither removed nor written. *)
Theorem manifest_fragment_failures (L : PyLib) {World : Type} (os : OS World)
    (video_name : string) (rates : list Z) (r : Z) (tree : element)
    (s s1 : state World) :
  load_fragment L os (manifest_path ("videos/" +:+ video_name +:+ "/tracks") r) s
  = (Ok tree, s1) ->
  (forall period root,
     subelement tree 1 = Ok period -> subelement period 0 = Ok root ->
     Forall (fun c => is_representation c = false) (children_of root) ->
     build_common_manifest L os video_name (r :: rates) s
     = (Raise (RuntimeError
                 ("Could not find Representation in "
                  +:+ manifest_path ("videos/" +:+ video_name +:+ "/tracks") r)), s1)
     /\ log s1 = log s)
  /\ (children_of tree !! 1%nat = None ->
      build_common_manifest L os video_name (r :: rates) s = (Raise IndexError, s1)
      /\ log s1 = log s).
Proof.
  intros Hload. pose proof (load_fragment_log L os _ _ _ _ Hload) as Hlog.
  split.
  - intros period root Hperiod Hroot Hnone. split; [| exact Hlog].
    unfold build_common_manifest, merge_manifests. cbn [for_each].
    unfold bind at 1 2, manifest_one at 1, bind at 1. rewrite Hload.
    unfold lift, merge_fragment. rewrite Hperiod. cbn [rbind]. rewrite Hroot. cbn [rbind].
    rewrite find_representation_none; [reflexivity |].
    induction Hnone as [| c cs Hc _ IH]; [reflexivity |]. simpl. now rewrite Hc.
  - intros Hshort. split; [| exact Hlog].
    unfold build_common_manifest, merge_manifests. cbn [for_each].
    unfold bind at 1 2, manifest_one at 1, bind at 1. rewrite Hload.
    unfold lift, merge_fragment, subelement at 1, item. now rewrite Hshort.
Qed.

Lemma manifest_fragment_failures_witness :
  let lib := {| int_of_str := int_of_str sample_lib;
                float_of_str := float_of_str sample_lib;
                repr_str := repr_str sample_lib;
                str_float := str_float sample_lib;
                xml_parse := fun _ =>
                  Some (Element "MPD" [] EmptyString EmptyString
                          [ Element "ProgramInformation" [] EmptyString EmptyString [];
                            Element "Period" [] EmptyString EmptyString
                              [ Element "AdaptationSet" [] EmptyString EmptyString
                                  [ Element "SegmentTemplate" [] EmptyString EmptyString []
                                  ] ] ]);
                xml_tostring := xml_tostring sample_lib;
                json_loads := json_loads sample_lib;
                json_dumps := json_dumps sample_lib |} in
  build_common_manifest lib sample_os "v" [300; 600] sample_fresh
  = (Raise (RuntimeError
              "Could not find Representation in videos/v/tracks/video_300/intermediate_dash.mpd"),
     sample_fresh).
Proof.
  intros lib.
  refine (proj1 (proj1 (manifest_fragment_failures lib sample_os "v" [600] 300 _
                          sample_fresh sample_fresh _) _ _ _ _ _)).
  - reflexivity.
  - reflexivity.
  - reflexivity.
  - repeat constructor.
Defined.

(** ** Failures of the score extraction *)

Section ExtractFailures.
Context (L : PyLib).

Lemma float_of_Z_raises (z : Z) (e : exn) : float_of_Z z = Raise e -> e = OverflowError.
Proof.
  unfold float_of_Z. destruct (PrimFloat.is_infinity _); [| discriminate].
  now intros [= <-].
Qed.

Lemma py_float_raises (v : json) (e : exn) :
  py_float L v = Raise e -> e = TypeError \/ e = ValueError \/ e = OverflowError.
Proof.
  destruct v; simpl; intros H; try discriminate.
  - injection H as <-. now left.
  - right. right. now apply float_of_Z_raises in H.
  - destruct (float_of_str L s); [discriminate |]. injection H as <-. now right; left.
  - injection H as <-. now left.
  - injection H as <-. now left.
Qed.

Lemma py_float_number_raises (v : json) (e : exn) :
  is_number v = true -> py_float L v = Raise e -> e = OverflowError.
Proof.
  destruct v; simpl; intros Hn H; try discriminate.
  now apply float_of_Z_raises in H.
Qed.

Lemma score_values_numbers (v : json) :
  Forall (fun c => is_number c = true) (score_values v).
Proof.
  induction v as [| b | z | f | s | l IH | kvs IH] using json_nested_ind;
    try (simpl; constructor).
  - simpl. induction IH as [| y l' Hy _ IHl]; [constructor |].
    apply Forall_app. now split.
  - simpl. induction IH as [| [k val] l' Hy _ IHl]; [constructor |].
    simpl in Hy. apply Forall_app. split; [| exact IHl].
    destruct (is_score_key k && is_number val) eqn:Hk; [| exact Hy].
    apply andb_true_iff in Hk as [_ Hk]. now repeat constructor.
Qed.

Lemma schema_raises (sch : json -> option (result float)) (v : json) (r : result float) :
  (sch = schema_aggregate L \/ sch = schema_pooled L \/ sch = schema_metrics L) ->
  sch v = Some r -> exists x, r = py_float L x.
Proof.
  intros [-> | [-> | ->]] H.
  - unfold schema_aggregate in H. destruct v as [| | | | | | kvs]; try discriminate.
    destruct (dict_get "aggregate" kvs) as [[| | | | | | agg] |]; try discriminate.
    destruct (dict_get "VMAF_score" agg) as [x |]; [injection H as <-; eauto |].
    destruct (dict_get "VMAF" agg) as [x |]; [injection H as <-; eauto | discriminate].
  - unfold schema_pooled in H. destruct v as [| | | | | | kvs]; try discriminate.
    destruct (dict_get "pooled_metrics" kvs) as [[| | | | | | pm] |]; try discriminate.
    destruct (dict_get "vmaf" pm) as [[| | | | | | vv] |]; try discriminate.
    destruct (first_present _ vv) as [x |]; [injection H as <-; eauto | discriminate].
  - unfold schema_metrics in H. destruct v as [| | | | | | kvs]; try discriminate.
    destruct (dict_get "metrics" kvs) as [[| | | | | | m] |]; try discriminate.
    destruct (dict_get "vmaf" m) as [[| | | | | | vv] |]; try discriminate.
    destruct (dict_get "mean" vv) as [x |]; [injection H as <-; eauto | discriminate].
Qed.

End ExtractFailures.

(** X10: [extract_vmaf_score] raises [KeyError] only when no schema applies
    and the report holds no numeric value under a score key, and the message
    then describes the top level of that report.  It raises [TypeError] or
    [ValueError] only when one of the three schemas applies and the value
    found there is not a number: the fallback search converts numbers
    only. *)
Theorem extract_vmaf_score_failures (L : PyLib) (v : json) :
  (forall msg,
     extract_vmaf_score L v = Raise (KeyError msg) ->
     msg = no_score_message L v
     /\ schema_aggregate L v = None /\ schema_pooled L v = None
     /\ schema_metrics L v = None /\ score_values v = [])
  /\ (forall e,
        extract_vmaf_score L v = Raise e -> e = TypeError \/ e = ValueError ->
        exists x,
          is_number x = false
          /\ py_float L x = Raise e
          /\ (schema_aggregate L v = Some (py_float L x)
              \/ (schema_aggregate L v = None /\ schema_pooled L v = Some (py_float L x))
              \/ (schema_aggregate L v = None /\ schema_pooled L v = None
                  /\ schema_metrics L v = Some (py_float L x)))).
Proof.
  assert (forall x e, py_float L x = Raise e -> e = TypeError \/ e = ValueError ->
                      is_number x = false) as Hnot.
  { intros x e Hx He. destruct (is_number x) eqn:Hn; [| reflexivity].
    apply (py_float_number_raises L x e Hn) in Hx. subst e.
    destruct He; discriminate. }
  split.
  - intros msg H. unfold extract_vmaf_score in H.
    destruct (schema_aggregate L v) as [r |] eqn:H1.
    { destruct (schema_raises L _ v _ (or_introl eq_refl) H1) as (x & ->).
      apply (py_float_raises L x) in H as [H | [H | H]]; discriminate. }
    destruct (schema_pooled L v) as [r |] eqn:H2.
    { destruct (schema_raises L _ v _ (or_intror (or_introl eq_refl)) H2) as (x & ->).
      apply (py_float_raises L x) in H as [H | [H | H]]; discriminate. }
    destruct (schema_metrics L v) as [r |] eqn:H3.
    { destruct (schema_raises L _ v _ (or_intror (or_intror eq_refl)) H3) as (x & ->).
      apply (py_float_raises L x) in H as [H | [H | H]]; discriminate. }
    rewrite walk_first_score in H. unfold first_score in H.
    pose proof (score_values_numbers v) as Hnum.
    destruct (score_values v) as [| c cs] eqn:Hc.
    + simpl in H. injection H as <-. repeat split; reflexivity.
    + inversion Hnum as [| ? ? Hcnum _]; subst.
      destruct (py_float L c) as [f | e0] eqn:Hf; [discriminate |].
      simpl in H. injection H as ->.
      apply (py_float_number_raises L c _ Hcnum) in Hf. discriminate.
  - intros e H He. unfold extract_vmaf_score in H.
    destruct (schema_aggregate L v) as [r |] eqn:H1.
    { destruct (schema_raises L _ v _ (or_introl eq_refl) H1) as (x & ->).
      exists x. split; [now apply (Hnot x e) |]. split; [exact H | now left]. }
    destruct (schema_pooled L v) as [r |] eqn:H2.
    { destruct (schema_raises L _ v _ (or_intror (or_introl eq_refl)) H2) as (x & ->).
      exists x. split; [now apply (Hnot x e) |]. split; [exact H |]. right. now left. }
    destruct (schema_metrics L v) as [r |] eqn:H3.
    { destruct (schema_raises L _ v _ (or_intror (or_intror eq_refl)) H3) as (x & ->).
      exists x. split; [now apply (Hnot x e) |]. split; [exact H |]. right. now right. }
    exfalso. rewrite walk_first_score in H. unfold first_score in H.
    pose proof (score_values_numbers v) as Hnum.
    destruct (score_values v) as [| c cs] eqn:Hc.
    + simpl in H. injection H as <-. destruct He; discriminate.
    + inversion Hnum as [| ? ? Hcnum _]; subst.
      destruct (py_float L c) as [f | e0] eqn:Hf; [discriminate |].
      simpl in H. injection H as ->.
      apply (py_float_number_raises L c _ Hcnum) in Hf. subst e.
      destruct He; discriminate.
Qed.

Lemma extract_vmaf_score_failures_witness :
  (exists x,
      is_number x = false
      /\ py_float sample_lib x = Raise TypeError
      /\ schema_aggregate sample_lib
           (JDict [("aggregate", JDict [("VMAF_score", JNull)]); ("vmaf", JFloat 90)])
         = Some (py_float sample_lib x))
  /\ schema_aggregate sample_lib (JDict [("frames", JList [])]) = None
  /\ score_values (JDict [("frames", JList [])]) = [].
Proof.
  split.
  - destruct (proj2 (extract_vmaf_score_failures sample_lib
                       (JDict [("aggregate", JDict [("VMAF_score", JNull)]);
                               ("vmaf", JFloat 90)]))
                TypeError eq_refl (or_introl eq_refl))
      as (x & Hx & Hf & [H | [[H _] | [H _]]]); [| discriminate H | discriminate H].
    now exists x.
  - destruct (proj1 (extract_vmaf_score_failures sample_lib (JDict [("frames", JList [])]))
                (no_score_message sample_lib (JDict [("frames", JList [])])) eq_refl)
      as (_ & H1 & _ & _ & H2).
    now split.
Defined.

(** ** The start of the quality step *)

Section VmafStart.
Context (L : PyLib) {World : Type} (os : OS World).
Implicit Types (s : state World) (rates : list Z).

Lemma max_of_spec (l : list Z) (m : Z) :
  max_of l = Ok m -> m ∈ l /\ forall y, y ∈ l -> y <= m.
Proof.
  destruct l as [| x l]; [discriminate |]. simpl. intros [= <-].
  revert x. induction l as [| y l IH]; intros x; simpl.
  - split; [left |]. intros z Hz.
    apply elem_of_cons in Hz as [-> | Hz]; [lia | inversion Hz].
  - destruct (IH (Z.max x y)) as [Hin Htop]. split.
    + apply elem_of_cons in Hin as [Heq | Hin]; [| right; now right].
      rewrite Heq. destruct (Z.max_spec x y) as [[_ ->] | [_ ->]]; [right; left | left].
    + pose proof (Htop (Z.max x y) (list_elem_of_here _ _)) as Hmax.
      intros z Hz. apply elem_of_cons in Hz as [-> | Hz]; [lia |].
      apply elem_of_cons in Hz as [-> | Hz]; [lia |]. apply Htop. now right.
Qed.

Lemma logs_convert_to_yuv P video_name mp4 w h tag :
  (forall out, P (convert_cmd video_name mp4 w h tag, out)) ->
  logs P (convert_to_yuv os video_name mp4 w h tag).
Proof.
  intros HP. unfold convert_to_yuv.
  apply logs_bind; [apply logs_ensure_dir | intros _].
  apply logs_bind; [apply logs_run_cmd; exact HP | intros _; apply logs_ret].
Qed.

Lemma logs_score_segment w h cur_yuv ref_yuv rate segments seg_info seg :
  logs (fun _ => True) (score_segment L os w h cur_yuv ref_yuv rate segments seg_info seg).
Proof.
  unfold score_segment.
  apply logs_bind; [apply logs_lift | intros si].
  apply logs_bind; [apply logs_lift | intros [ss t]].
  repeat first [logs_step | apply logs_run_cmd; intros; exact I].
Qed.

Lemma logs_score_rate video_name reps w h biggest ref_yuv seg_info rate :
  logs (fun _ => True) (score_rate L os video_name reps w h biggest ref_yuv seg_info rate).
Proof.
  unfold score_rate. apply logs_bind.
  - destruct (decide (rate = biggest)); [apply logs_ret |].
    apply logs_bind; [apply logs_lift | intros rep].
    apply logs_convert_to_yuv. intros; exact I.
  - intros cur_yuv. repeat logs_step.
    apply logs_for_each. intros acc x _. apply logs_score_segment.
Qed.

(** The checks of [compute_vmaf] in their order, and what follows them. *)
Lemma compute_vmaf_unfold video_name rates reps seg_info info :
  exists K : Z -> dims -> string -> M World (gmap Z (gmap Z seg_entry)),
    (forall b d y, logs (fun _ => True) (K b d y))
    /\ forall s,
         compute_vmaf L os video_name rates reps seg_info info s
         = if isfile os ("videos/" +:+ video_name +:+ "/vmaf.json") (world s)
           then (Ok seg_info, s)
           else if negb (isfile os vmaf_bin (world s))
           then (Raise (RuntimeError ("VMAF binary not found at " +:+ vmaf_bin)), s)
           else if negb (isfile os vmaf_model (world s))
           then (Raise (RuntimeError
                          ("VMAF model not found at " +:+ vmaf_model +:+ ". "
                           +:+ "List models with: ls -la ./deps/vmaf/model")), s)
           else match max_of rates with
                | Raise e => (Raise e, s)
                | Ok b =>
                    match lookup_key b info with
                    | Raise e => (Raise e, s)
                    | Ok d =>
                        match lookup_key b reps with
                        | Raise e => (Raise e, s)
                        | Ok rep =>
                            bind (convert_to_yuv os video_name rep (width d) (height d)
                                    ("video_" +:+ pretty b))
                              (K b d) s
                        end
                    end
                end.
Proof.
  exists (fun b d ref_yuv =>
            let! seg_info' :=
              for_each rates
                (score_rate L os video_name reps (width d) (height d) b ref_yuv) seg_info in
            let! _ := rm os ("videos/" +:+ video_name +:+ "/yuv") in
            let! _ := write os ("videos/" +:+ video_name +:+ "/vmaf.json")
                        (json_dumps L seg_info') in
            ret seg_info').
  split.
  - intros b d y.
    apply logs_bind; [apply logs_for_each; intros; apply logs_score_rate | intros ?].
    apply logs_bind; [apply logs_rm; intros; exact I | intros _].
    repeat logs_step.
  - intros s. unfold compute_vmaf, bind at 1, is_file.
    destruct (isfile os _ (world s)); [reflexivity |].
    unfold bind at 1. destruct (isfile os vmaf_bin (world s)); [| reflexivity].
    cbn [negb]. unfold bind at 1. destruct (isfile os vmaf_model (world s)); [| reflexivity].
    cbn [negb]. unfold bind at 1, lift at 1. destruct (max_of rates) as [b | e]; [| reflexivity].
    unfold bind at 1, lift at 1. destruct (lookup_key b info) as [d | e]; [| reflexivity].
    unfold bind at 1, lift at 1. destruct (lookup_key b reps) as [rep | e]; reflexivity.
Qed.

Lemma convert_first video_name mp4 w h tag {B} (K : string -> M World B) s :
  (forall y, logs (fun _ => True) (K y)) ->
  log (bind (convert_to_yuv os video_name mp4 w h tag) K s).2 = log s
  \/ exists out rest,
       log (bind (convert_to_yuv os video_name mp4 w h tag) K s).2
       = rest ++ (convert_cmd video_name mp4 w h tag, out) :: log s.
Proof.
  intros HK. unfold convert_to_yuv, bind, ensure_dir, run_cmd, ret.
  destruct (makedirs os _ (world s)) as [w1 |]; [| now left].
  right. cbn [log world].
  destruct (sh os _ w1) as [[o |] w2]; cbn [log].
  - destruct (HK ("videos/" +:+ video_name +:+ "/yuv/" +:+ tag +:+ ".yuv")
                (State w2 ((convert_cmd video_name mp4 w h tag, Some o) :: log s)))
      as (new & Hnew & _).
    exists (Some o), new. exact Hnew.
  - now exists None, [].
Qed.

End VmafStart.

(** X11: [compute_vmaf] runs no command and writes nothing when the VMAF
    binary or the model file is missing: it raises [RuntimeError] with the
    expected path.  Whenever it does run a command, [vmaf.json] was absent,
    and the first command converts the representation of the largest
    requested bitrate, the reference, to raw video at the frame size
    recorded for that bitrate. *)
Theorem compute_vmaf_start (L : PyLib) {World : Type} (os : OS World)
    (video_name : string) (rates : list Z) (reps : gmap Z string)
    (seg_info : gmap Z (gmap Z seg_entry)) (info : gmap Z dims) (s : state World) :
  (isfile os ("videos/" +:+ video_name +:+ "/vmaf.json") (world s) = false ->
   isfile os vmaf_bin (world s) = false ->
   compute_vmaf L os video_name rates reps seg_info info s
   = (Raise (RuntimeError ("VMAF binary not found at " +:+ vmaf_bin)), s))
  /\ (isfile os ("videos/" +:+ video_name +:+ "/vmaf.json") (world s) = false ->
      isfile os vmaf_bin (world s) = true ->
      isfile os vmaf_model (world s) = false ->
      compute_vmaf L os video_name rates reps seg_info info s
      = (Raise (RuntimeError ("VMAF model not found at " +:+ vmaf_model +:+ ". "
                              +:+ "List models with: ls -la ./deps/vmaf/model")), s))
  /\ (forall new,
        log (compute_vmaf L os video_name rates reps seg_info info s).2 = new ++ log s ->
        new <> [] ->
        isfile os ("videos/" +:+ video_name +:+ "/vmaf.json") (world s) = false
        /\ exists b d rep out,
             max_of rates = Ok b
             /\ b ∈ rates
             /\ (forall r, r ∈ rates -> r <= b)
             /\ info !! b = Some d
             /\ reps !! b = Some rep
             /\ last new
                = Some (convert_cmd video_name rep (width d) (height d)
                          ("video_" +:+ pretty b), out)).
Proof.
  destruct (compute_vmaf_unfold L os video_name rates reps seg_info info) as (K & HK & Heq).
  split; [| split].
  - intros Hout Hbin. now rewrite Heq, Hout, Hbin.
  - intros Hout Hbin Hmodel. now rewrite Heq, Hout, Hbin, Hmodel.
  - intros new Hnew Hne. rewrite Heq in Hnew.
    assert (forall x : state World, log x = new ++ log x -> False) as Hsame.
    { intros x Hx. apply Hne. apply (app_inv_tail (log x)). now rewrite <- Hx. }
    destruct (isfile os _ (world s)); [now apply Hsame in Hnew |].
    split; [reflexivity |].
    destruct (isfile os vmaf_bin (world s)); [| now apply Hsame in Hnew].
    destruct (isfile os vmaf_model (world s)); [| now apply Hsame in Hnew].
    cbn [negb] in Hnew.
    destruct (max_of rates) as [b |] eqn:Hb; [| now apply Hsame in Hnew].
    destruct (lookup_key b info) as [d |] eqn:Hd; [| now apply Hsame in Hnew].
    destruct (lookup_key b reps) as [rep |] eqn:Hrep; [| now apply Hsame in Hnew].
    apply of_option_ok_inv in Hd, Hrep.
    destruct (max_of_spec rates b Hb) as [Hin Htop].
    destruct (convert_first os video_name rep (width d) (height d)
                ("video_" +:+ pretty b) (K b d) s (HK b d)) as [Hnone | (out & rest & Hlog)].
    + rewrite Hnone in Hnew. now apply Hsame in Hnew.
    + rewrite Hlog in Hnew.
      assert (new = rest ++ [(convert_cmd video_name rep (width d) (height d)
                                ("video_" +:+ pretty b), out)]) as ->.
      { apply (app_inv_tail (log s)). rewrite <- Hnew, <- app_assoc. reflexivity. }
      exists b, d, rep, out.
      split; [reflexivity |]. repeat (split; [assumption |]). apply last_snoc.
Qed.

Lemma compute_vmaf_start_witness :
  compute_vmaf sample_lib sample_os "v" [300; 600] ∅ ∅ ∅ (State [] [])
  = (Raise (RuntimeError "VMAF binary not found at ./deps/vmaf/libvmaf/build/tools/vmafossexec"),
     State [] [])
  /\ exists out,
       last (log (compute_vmaf sample_lib sample_os "v" [300; 600]
                    {[ 600 := "videos/v/tmp/rep_600.mp4" ]} ∅
                    {[ 600 := Dims 1280 720 ]} sample_fresh).2)
       = Some (convert_cmd "v" "videos/v/tmp/rep_600.mp4" 1280 720 "video_600", out).
Proof.
  split.
  - apply (proj1 (compute_vmaf_start sample_lib sample_os "v" [300; 600] ∅ ∅ ∅ (State [] [])));
      reflexivity.
  - destruct (proj2 (proj2 (compute_vmaf_start sample_lib sample_os "v" [300; 600]
                              {[ 600 := "videos/v/tmp/rep_600.mp4" ]} ∅
                              {[ 600 := Dims 1280 720 ]} sample_fresh))
                (log (compute_vmaf sample_lib sample_os "v" [300; 600]
                        {[ 600 := "videos/v/tmp/rep_600.mp4" ]} ∅
                        {[ 600 := Dims 1280 720 ]} sample_fresh).2))
      as (_ & b & d & rep & out & Hb & _ & _ & Hd & Hrep & Hlast).
    + now rewrite app_nil_r.
    + vm_compute. discriminate.
    + exists out. rewrite Hlast.
      injection Hb as <-. 
      assert (d = Dims 1280 720) as -> by (apply (inj Some); rewrite <- Hd; reflexivity).
      assert (rep = "videos/v/tmp/rep_600.mp4") as ->
        by (apply (inj Some); rewrite <- Hrep; reflexivity).
      reflexivity.
Defined.

(** ** The scores written by the quality step *)

Section VmafScores.
Context (L : PyLib) {World : Type} (os : OS World).
Implicit Types (s : state World) (a b c : gmap Z (gmap Z seg_entry)).

Lemma keeps_refl a : keeps a a.
Proof. repeat split; auto. Qed.

Lemma keeps_trans a b c : keeps a b -> keeps b c -> keeps a c.
Proof.
  intros (H1 & H2 & H3) (K1 & K2 & K3). split; [| split].
  - intros rate seg. now rewrite K1, H1.
  - intros rate. now rewrite K2, H2.
  - intros rate seg Hs. now apply K3, H3.
Qed.

Lemma window_ok_entry (si : gmap Z seg_entry) segments seg r :
  window si segments seg = Ok r -> is_Some (si !! seg).
Proof.
  unfold window, lookup_key. destruct (si !! seg) as [e |]; [eauto | discriminate].
Qed.

Lemma score_segment_keeps w h cur_yuv ref_yuv rate segments a seg s b s' :
  score_segment L os w h cur_yuv ref_yuv rate segments a seg s = (Ok b, s') ->
  keeps a b /\ scored b rate seg.
Proof.
  unfold score_segment. intros H.
  apply bind_ok_inv in H as (si & s0 & Hsi & H).
  apply lift_ok_inv in Hsi as [Hsi ->]. apply of_option_ok_inv in Hsi.
  apply bind_ok_inv in H as ([ss t] & s0 & Hwin & H).
  apply lift_ok_inv in Hwin as [Hwin ->].
  apply window_ok_entry in Hwin as [e He].
  do 5 (apply bind_ok_inv in H as (? & ? & _ & H)).
  apply bind_ok_inv in H as (score & ? & _ & H).
  apply bind_ok_inv in H as (? & ? & _ & H). injection H as <- _.
  assert (forall rate' seg',
             seg_entry_at (<[rate := alter (set_vmaf score) seg si]> a) rate' seg'
             = if decide (rate = rate' /\ seg = seg')
               then Some (set_vmaf score e)
               else seg_entry_at a rate' seg') as Hat.
  { intros rate' seg'. unfold seg_entry_at. rewrite lookup_insert.
    destruct (decide (rate = rate')) as [<- | Hr].
    - rewrite Hsi, lookup_alter.
      destruct (decide (seg = seg')) as [<- | Hs].
      + rewrite He. now destruct (decide (rate = rate /\ seg = seg)) as [_ | []].
      + destruct (decide (rate = rate /\ seg = seg')) as [[_ ?] | _]; [contradiction | reflexivity].
    - destruct (decide (rate = rate' /\ seg = seg')) as [[? _] | _]; [contradiction | reflexivity]. }
  assert (seg_entry_at a rate seg = Some e) as Hae.
  { unfold seg_entry_at. now rewrite Hsi. }
  split; [split; [| split] |].
  - intros rate' seg'. rewrite Hat.
    destruct (decide (rate = rate' /\ seg = seg')) as [[<- <-] | _]; [| reflexivity].
    now rewrite Hae.
  - intros rate'. rewrite lookup_insert.
    destruct (decide (rate = rate')) as [<- | _]; [| tauto].
    rewrite Hsi. split; eauto.
  - intros rate' seg' (e' & He' & Hv). unfold scored. rewrite Hat.
    destruct (decide (rate = rate' /\ seg = seg')) as [_ | _].
    + exists (set_vmaf score e). split; [reflexivity | simpl; eauto].
    + now exists e'.
  - unfold scored. rewrite Hat.
    destruct (decide (rate = rate /\ seg = seg)) as [_ | []]; [| now split].
    exists (set_vmaf score e). split; [reflexivity | simpl; eauto].
Qed.

Lemma score_segments_keeps w h cur_yuv ref_yuv rate segments (l : list Z) a s b s' :
  for_each l (score_segment L os w h cur_yuv ref_yuv rate segments) a s = (Ok b, s') ->
  keeps a b /\ forall seg, seg ∈ l -> scored b rate seg.
Proof.
  revert a s. induction l as [| x l IH]; intros a s H.
  - injection H as <- _. split; [apply keeps_refl | intros seg Hs; inversion Hs].
  - simpl in H. apply bind_ok_inv in H as (a1 & s1 & Hone & Hrest).
    apply score_segment_keeps in Hone as [Hk1 Hx].
    destruct (IH _ _ Hrest) as [Hk2 Hl].
    split; [now apply (keeps_trans a a1 b) |].
    intros seg Hs. apply elem_of_cons in Hs as [-> | Hs]; [| now apply Hl].
    now apply (proj2 (proj2 Hk2)).
Qed.

Lemma keeps_entry a b rate seg e :
  keeps a b -> seg_entry_at b rate seg = Some e -> is_Some (seg_entry_at a rate seg).
Proof.
  intros (H1 & _ & _) He. specialize (H1 rate seg). rewrite He in H1.
  destruct (seg_entry_at a rate seg); [eauto | discriminate].
Qed.

Lemma score_rate_keeps video_name reps w h biggest ref_yuv a rate s b s' :
  score_rate L os video_name reps w h biggest ref_yuv a rate s = (Ok b, s') ->
  keeps a b
  /\ (exists si k e, a !! rate = Some si /\ si !! k = Some e)
  /\ forall seg e, 1 <= seg -> seg_entry_at b rate seg = Some e -> is_Some (vmaf e).
Proof.
  unfold score_rate. intros H.
  apply bind_ok_inv in H as (cur_yuv & s1 & _ & H).
  apply bind_ok_inv in H as (si & s2 & Hsi & H).
  apply lift_ok_inv in Hsi as [Hsi ->]. apply of_option_ok_inv in Hsi.
  apply bind_ok_inv in H as (segments & s2 & Hmax & H).
  apply lift_ok_inv in Hmax as [Hmax ->].
  apply max_of_spec in Hmax as [Hin Htop].
  apply score_segments_keeps in H as [Hk Hl].
  split; [exact Hk |]. split.
  - apply elem_of_keys in Hin as [e He]. now exists si, segments, e.
  - intros seg e Hseg He.
    destruct (keeps_entry _ _ _ _ _ Hk He) as [e0 He0].
    unfold seg_entry_at in He0. rewrite Hsi in He0.
    assert (seg <= segments) as Hle.
    { apply Htop, elem_of_keys. eauto. }
    destruct (Hl seg) as (e' & He' & Hv).
    { unfold range1. apply elem_of_seqZ. lia. }
    rewrite He in He'. now injection He' as <-.
Qed.

Lemma score_rates_keeps video_name reps w h biggest ref_yuv (rates : list Z) a s b s' :
  for_each rates (score_rate L os video_name reps w h biggest ref_yuv) a s = (Ok b, s') ->
  keeps a b
  /\ forall rate, rate ∈ rates ->
       (exists si k e, a !! rate = Some si /\ si !! k = Some e)
       /\ forall seg e, 1 <= seg -> seg_entry_at b rate seg = Some e -> is_Some (vmaf e).
Proof.
  revert a s. induction rates as [| x rates IH]; intros a s H.
  - injection H as <- _. split; [apply keeps_refl | intros rate Hr; inversion Hr].
  - simpl in H. apply bind_ok_inv in H as (a1 & s1 & Hone & Hrest).
    apply score_rate_keeps in Hone as (Hk1 & Hne & Hx).
    destruct (IH _ _ Hrest) as [Hk2 Hl].
    split; [now apply (keeps_trans a a1 b) |].
    intros rate Hr. destruct (decide (rate ∈ rates)) as [Hin | Hin].
    + destruct (Hl rate Hin) as ((si1 & k & e1 & Hsi1 & Hk) & Hscores).
      split; [| exact Hscores].
      assert (seg_entry_at a1 rate k = Some e1) as He1.
      { unfold seg_entry_at. now rewrite Hsi1. }
      destruct (keeps_entry _ _ _ _ _ Hk1 He1) as [e0 He0].
      unfold seg_entry_at in He0. destruct (a !! rate) as [si |]; [| discriminate].
      now exists si, k, e0.
    + apply elem_of_cons in Hr as [-> | Hr]; [| contradiction].
      split; [exact Hne |].
      intros seg e Hseg He.
      destruct (keeps_entry _ _ _ _ _ Hk2 He) as [e1 He1].
      destruct (proj2 (proj2 Hk2) x seg) as (e' & He' & Hv).
      { exists e1. split; [exact He1 | now apply (Hx seg)]. }
      rewrite He in He'. now injection He' as <-.
Qed.

End VmafScores.

(** X12: a call of [compute_vmaf] that returns leaves the bitrates, the
    segment numbers and the start times of [seg_info] as they were.  When
    [vmaf.json] was absent, every requested bitrate had at least one
    segment, every segment numbered 1 or more of every requested bitrate
    now has a score, and the dictionary written to [vmaf.json] is the
    updated one. *)
Theorem compute_vmaf_scores (L : PyLib) {World : Type} (os : OS World)
    (video_name : string) (rates : list Z) (reps : gmap Z string)
    (seg_info seg_info' : gmap Z (gmap Z seg_entry)) (info : gmap Z dims)
    (s s' : state World) :
  compute_vmaf L os video_name rates reps seg_info info s = (Ok seg_info', s') ->
  (forall rate seg,
     start_time <$> seg_entry_at seg_info' rate seg
     = start_time <$> seg_entry_at seg_info rate seg)
  /\ (forall rate, is_Some (seg_info' !! rate) <-> is_Some (seg_info !! rate))
  /\ (isfile os ("videos/" +:+ video_name +:+ "/vmaf.json") (world s) = false ->
      (forall rate, rate ∈ rates ->
         (exists si k e, seg_info !! rate = Some si /\ si !! k = Some e)
         /\ forall seg e, 1 <= seg -> seg_entry_at seg_info' rate seg = Some e ->
                          is_Some (vmaf e))
      /\ exists w,
           write_file os ("videos/" +:+ video_name +:+ "/vmaf.json")
             (json_dumps L seg_info') w = Some (world s')).
Proof.
  intros H. unfold compute_vmaf in H.
  apply bind_ok_inv in H as (d & s1 & Hd & H).
  unfold is_file in Hd. injection Hd as <- <-.
  destruct (isfile os _ (world s)) eqn:Hout.
  { injection H as <- _. split; [reflexivity |]. split; [reflexivity | discriminate]. }
  apply bind_ok_inv in H as (has_bin & s1 & _ & H).
  destruct has_bin; [| discriminate H]. cbn [negb] in H.
  apply bind_ok_inv in H as (has_model & s2 & _ & H).
  destruct has_model; [| discriminate H]. cbn [negb] in H.
  do 4 (apply bind_ok_inv in H as (? & ? & _ & H)).
  apply bind_ok_inv in H as (seg1 & s3 & Hloop & H).
  apply bind_ok_inv in H as (? & s4 & _ & H).
  apply bind_ok_inv in H as (? & s5 & Hwrite & H). injection H as <- <-.
  apply score_rates_keeps in Hloop as ((H1 & H2 & _) & Hrates).
  split; [exact H1 |]. split; [exact H2 |]. intros _. split; [exact Hrates |].
  unfold write in Hwrite.
  destruct (write_file os _ _ (world s4)) as [w |] eqn:E; [| discriminate].
  injection Hwrite as _ <-. now exists (world s4).
Qed.

Lemma compute_vmaf_scores_witness :
  let seg_info : gmap Z (gmap Z seg_entry) :=
    {[ 600 := sample_starts [(1, 0%float); (2, 5%float)] ]} in
  let run := compute_vmaf sample_lib sample_os "v" [600]
               {[ 600 := "videos/v/tmp/rep_600.mp4" ]} seg_info
               {[ 600 := Dims 1280 720 ]} sample_fresh in
  exists seg_info',
    run.1 = Ok seg_info'
    /\ (start_time <$> seg_entry_at seg_info' 600 2) = Some 5%float
    /\ forall seg e, 1 <= seg -> seg_entry_at seg_info' 600 seg = Some e -> is_Some (vmaf e).
Proof.
  intros seg_info run.
  destruct run as [[seg_info' | e] s'] eqn:E; [| vm_compute in E; discriminate E].
  destruct (compute_vmaf_scores sample_lib sample_os "v" [600]
              {[ 600 := "videos/v/tmp/rep_600.mp4" ]} seg_info seg_info'
              {[ 600 := Dims 1280 720 ]} sample_fresh s' E)
    as (Hstart & _ & Hscores).
  exists seg_info'. split; [reflexivity |]. split.
  - rewrite Hstart. reflexivity.
  - destruct (Hscores eq_refl) as (Hrates & _).
    apply (Hrates 600). left.
Defined.

(** ** A run without quality scoring *)

(** Closes a goal [preparation_command ... (cmd, out)] for a command of the
    segmentation step. *)
Ltac preparation :=
  intros; unfold preparation_command;
  solve [ right; left; reflexivity
        | do 2 right; left; reflexivity
        | do 3 right; left; reflexivity
        | do 4 right; left; reflexivity
        | do 5 right; reflexivity ].

Section RunProps.
Context (L : PyLib) {World : Type} (os : OS World).

Lemma logs_load_fragment P manifest : logs P (load_fragment L os manifest).
Proof. unfold load_fragment. repeat logs_step. Qed.

Lemma logs_prepare_segment_rep src out_dir rates fps gop video_name rep_mp4 rate seg_s :
  logs (preparation_command src out_dir rates fps gop)
    (segment_rep L os video_name rep_mp4 rate seg_s).
Proof.
  unfold segment_rep.
  apply logs_bind; [apply logs_rm; preparation | intros _].
  apply logs_bind; [apply logs_ensure_dir | intros _].
  apply logs_bind; [apply logs_rm; preparation | intros _].
  apply logs_bind; [apply logs_ensure_dir | intros _].
  apply logs_bind; [apply logs_abs_path | intros rep_abs].
  apply logs_bind; [apply logs_run_cmd; preparation | intros _].
  apply logs_bind; [apply logs_run_cmd; preparation | intros _].
  apply logs_bind; [apply logs_run_cmd; preparation | intros _].
  apply logs_bind; [apply logs_run_cmd; preparation | intros _].
  apply logs_bind; [apply logs_rm; preparation | intros _].
  apply logs_bind; [apply logs_run_cmd; preparation | intros out].
  apply logs_bind; [apply logs_lift | intros segments].
  apply logs_for_each. intros acc seg _. unfold segment_one.
  apply logs_bind; [apply logs_run_cmd; preparation | intros raw].
  repeat logs_step.
Qed.

Lemma logs_prepare_manifest src out_dir rates fps gop video_name rates' :
  logs (preparation_command src out_dir rates fps gop)
    (build_common_manifest L os video_name rates').
Proof.
  unfold build_common_manifest, merge_manifests.
  apply logs_bind.
  - apply logs_for_each. intros acc rate _. unfold manifest_one.
    apply logs_bind; [apply logs_load_fragment | intros tree; apply logs_lift].
  - intros st. apply logs_bind; [apply logs_rm; preparation | intros _].
    destruct (fst st); repeat logs_step.
Qed.

Lemma prefix_head_differs (a b s : string) (ca cb : ascii) :
  ca <> cb -> String.prefix (String ca a) s = true -> String.prefix (String cb b) s = false.
Proof.
  intros Hne H. destruct s as [| c s]; [discriminate |]. simpl in *.
  destruct (ascii_dec ca c) as [<- | _]; [| discriminate].
  destruct (ascii_dec cb ca) as [-> | _]; [contradiction | reflexivity].
Qed.

End RunProps.

(** A command known to start with another tool's name starts neither with
    the quality tool nor with an encoder call. *)
Ltac other_tool H :=
  split; [| split];
  [ unfold vmaf_bin; eapply prefix_head_differs; [| exact H]; discriminate
  | eapply prefix_head_differs; [| exact H]; discriminate
  | let Hf := fresh "Hf" in
    intros Hf;
    erewrite prefix_head_differs in Hf; [discriminate | | exact H]; discriminate ].

(** X13: without the quality flag, [run] only issues the encoder command of
    a requested bitrate (with the keyframe interval [fps * segment]) and the
    removal, MP4Box, move, listing and index box commands of the
    segmentation and merge steps; it never starts the quality tool, never
    cuts raw video and never converts a representation to raw video. *)
Theorem run_without_scoring (L : PyLib) {World : Type} (os : OS World) (args : Args) :
  arg_vmaf args = false ->
  logs (preparation_command (arg_input args) ("videos/" +:+ arg_video args +:+ "/tmp")
          (arg_rates args) (arg_fps args) (arg_fps args * arg_segment args))
    (run L os args)
  /\ logs (fun e => String.prefix vmaf_bin e.1 = false
                    /\ String.prefix "ffmpeg -y -s:v" e.1 = false
                    /\ (String.prefix "ffmpeg" e.1 = true ->
                        exists r, r ∈ arg_rates args
                          /\ e.1 = encode_cmd (arg_input args)
                                     (rep_path ("videos/" +:+ arg_video args +:+ "/tmp") r)
                                     (arg_fps args) (arg_fps args * arg_segment args) r))
       (run L os args).
Proof.
  intros Hflag.
  assert (logs (preparation_command (arg_input args)
                  ("videos/" +:+ arg_video args +:+ "/tmp")
                  (arg_rates args) (arg_fps args) (arg_fps args * arg_segment args))
            (run L os args)) as Hrun.
  { unfold run. rewrite Hflag.
    apply logs_bind; [apply logs_ensure_dir | intros _].
    apply logs_bind; [apply logs_ensure_dir | intros _].
    apply logs_bind; [apply logs_ensure_dir | intros _].
    apply logs_bind.
    { unfold transcode_h264_reps.
      apply logs_bind; [apply logs_ensure_dir | intros _].
      apply logs_for_each. intros acc r Hr.
      eapply logs_weaken; [| apply logs_transcode_one].
      intros e He. left. now exists r. }
    intros reps. apply logs_bind.
    { apply logs_for_each. intros acc r _. unfold segment_all.
      apply logs_bind; [apply logs_lift | intros rep].
      apply logs_bind; [apply logs_prepare_segment_rep | intros si; apply logs_ret]. }
    intros seg_info_all.
    apply logs_bind; [apply logs_prepare_manifest | intros info; apply logs_ret]. }
  split; [exact Hrun |].
  eapply logs_weaken; [| exact Hrun].
  intros e [(r & Hr & He) | [H | [H | [H | [H | H]]]]].
  - rewrite He. split; [reflexivity |]. split; [reflexivity |]. intros _. now exists r.
  - other_tool H.
  - other_tool H.
  - other_tool H.
  - other_tool H.
  - other_tool H.
Qed.

Lemma run_without_scoring_witness :
  exists new,
    log (run sample_lib sample_os
           {| arg_video := "v"; arg_input := "in.mp4"; arg_segment := 5;
              arg_fps := 24; arg_rates := [300; 600]; arg_vmaf := false |}
           sample_fresh).2 = new ++ log sample_fresh
    /\ Forall (fun e => String.prefix vmaf_bin e.1 = false
                        /\ String.prefix "ffmpeg -y -s:v" e.1 = false
                        /\ (String.prefix "ffmpeg" e.1 = true ->
                            exists r, r ∈ [300; 600]
                              /\ e.1 = encode_cmd "in.mp4" (rep_path "videos/v/tmp" r)
                                         24 (24 * 5) r))
         new.
Proof.
  exact (proj2 (run_without_scoring sample_lib sample_os
                  {| arg_video := "v"; arg_input := "in.mp4"; arg_segment := 5;
                     arg_fps := 24; arg_rates := [300; 600]; arg_vmaf := false |}
                  eq_refl) sample_fresh).
Defined.

(** * The quality windows and the re-run, over the whole pipeline *)

(** ** The windows cut by the quality step *)

Section WindowTrace.
Context (L : PyLib) {World : Type} (os : OS World).
Implicit Types (s : state World) (a b base : gmap Z (gmap Z seg_entry))
  (si : gmap Z seg_entry).

Lemma Ok_inj {A} (x y : A) : Ok x = Ok y -> x = y.
Proof. now intros [= ->]. Qed.

(** The window depends on the start times only. *)
Lemma window_same_starts si si' segments n :
  (forall k, start_time <$> si' !! k = start_time <$> si !! k) ->
  window si' segments n = window si segments n.
Proof.
  intros H. unfold window, lookup_key.
  pose proof (H n) as Hn. pose proof (H (n + 1)) as Hn1. pose proof (H (n - 1)) as Hn0.
  destruct (si' !! n) as [e' |], (si !! n) as [e |]; simpl in Hn;
    try discriminate; [| reflexivity].
  apply (inj Some) in Hn. simpl. rewrite Hn.
  destruct (decide (n < segments)).
  - destruct (si' !! (n + 1)) as [e1' |], (si !! (n + 1)) as [e1 |]; simpl in Hn1;
      try discriminate; [| reflexivity].
    apply (inj Some) in Hn1. simpl. now rewrite Hn1.
  - simpl. destruct (si' !! (n - 1)) as [e0' |], (si !! (n - 1)) as [e0 |]; simpl in Hn0;
      try discriminate; [| reflexivity].
    apply (inj Some) in Hn0. simpl. now rewrite Hn0.
Qed.

Lemma keeps_lookup base a rate si :
  keeps base a -> base !! rate = Some si ->
  exists si', a !! rate = Some si'
              /\ forall k, start_time <$> si' !! k = start_time <$> si !! k.
Proof.
  intros (H1 & H2 & _) Hsi.
  destruct (proj2 (H2 rate)) as [si' Hsi']; [eauto |].
  exists si'. split; [exact Hsi' |]. intros k.
  specialize (H1 rate k). unfold seg_entry_at in H1. now rewrite Hsi, Hsi' in H1.
Qed.

Lemma write_ok_inv p c s u s' : write os p c s = (Ok u, s') -> log s' = log s.
Proof.
  unfold write. destruct (write_file os p c (world s)); [| discriminate].
  now intros [= _ <-].
Qed.

Lemma convert_to_yuv_ok_inv video_name mp4 w h tag s y s' :
  convert_to_yuv os video_name mp4 w h tag s = (Ok y, s') ->
  y = "videos/" +:+ video_name +:+ "/yuv/" +:+ tag +:+ ".yuv"
  /\ exists out, log s' = (convert_cmd video_name mp4 w h tag, Some out) :: log s.
Proof.
  unfold convert_to_yuv. intros H.
  apply bind_ok_inv in H as (? & s1 & H1 & H). apply ensure_dir_ok_inv in H1.
  apply bind_ok_inv in H as (out & s2 & H2 & H). apply run_cmd_ok_inv in H2.
  injection H as <- <-. split; [reflexivity |]. exists out. now rewrite H2, H1.
Qed.

(** One pass of the inner loop: the window is computed from the current
    dictionary and the four commands of the segment are run with it. *)
Lemma score_segment_trace w h cur_yuv ref_yuv rate segments a seg s b s' :
  score_segment L os w h cur_yuv ref_yuv rate segments a seg s = (Ok b, s') ->
  exists si win new,
    a !! rate = Some si
    /\ window si segments seg = Ok win
    /\ log s' = new ++ log s
    /\ rev (map fst new) = segment_commands L w h cur_yuv ref_yuv win.
Proof.
  unfold score_segment. intros H.
  apply bind_ok_inv in H as (si & s0 & Hsi & H).
  apply lift_ok_inv in Hsi as [Hsi ->]. apply of_option_ok_inv in Hsi.
  apply bind_ok_inv in H as ([ss t] & s0 & Hwin & H).
  apply lift_ok_inv in Hwin as [Hwin ->].
  apply bind_ok_inv in H as (o1 & s1 & H1 & H). apply run_cmd_ok_inv in H1.
  apply bind_ok_inv in H as (o2 & s2 & H2 & H). apply run_cmd_ok_inv in H2.
  apply bind_ok_inv in H as (o3 & s3 & H3 & H). apply run_cmd_ok_inv in H3.
  apply bind_ok_inv in H as (text & s4 & H4 & H). unfold read in H4. injection H4 as _ <-.
  apply bind_ok_inv in H as (v & s5 & H5 & H). apply lift_ok_inv in H5 as [_ ->].
  apply bind_ok_inv in H as (score & s6 & H6 & H). apply lift_ok_inv in H6 as [_ ->].
  apply bind_ok_inv in H as (o7 & s7 & H7 & H). apply run_cmd_ok_inv in H7.
  injection H as _ <-.
  exists si, (ss, t),
    [ ("rm -f cut1.yuv cut2.yuv vmaf_out.json || true", Some o7);
      (vmaf_cmd w h, Some o3);
      (cut_cmd L w h ref_yuv ss t "cut2.yuv", Some o2);
      (cut_cmd L w h cur_yuv ss t "cut1.yuv", Some o1) ].
  split; [exact Hsi |]. split; [exact Hwin |]. split; [| reflexivity].
  now rewrite H7, H3, H2, H1.
Qed.

(** The inner loop over the segments [l] of one representation, against the
    start times [si] that the representation had when scoring began. *)
Lemma score_segments_trace w h cur_yuv ref_yuv rate segments base si (l : list Z) a s b s' :
  keeps base a -> base !! rate = Some si ->
  for_each l (score_segment L os w h cur_yuv ref_yuv rate segments) a s = (Ok b, s') ->
  exists ws new,
    Forall2 (fun n win => window si segments n = Ok win) l ws
    /\ log s' = new ++ log s
    /\ rev (map fst new) = concat (map (segment_commands L w h cur_yuv ref_yuv) ws).
Proof.
  intros Hk Hsi. revert a s Hk. induction l as [| x l IH]; intros a s Hk H.
  - injection H as _ <-. exists [], []. split; [constructor | now split].
  - cbn [for_each] in H. apply bind_ok_inv in H as (a1 & s1 & Hone & Hrest).
    destruct (score_segment_keeps L os _ _ _ _ _ _ _ _ _ _ _ Hone) as [Hk1 _].
    destruct (score_segment_trace _ _ _ _ _ _ _ _ _ _ _ Hone)
      as (si' & win & n1 & Hsi' & Hwin & Hlog1 & Hc1).
    destruct (keeps_lookup base a rate si Hk Hsi) as (si'' & Hsi'' & Hstarts).
    rewrite Hsi' in Hsi''. injection Hsi'' as <-.
    rewrite (window_same_starts si si' segments x Hstarts) in Hwin.
    destruct (IH a1 s1 (keeps_trans base a a1 Hk Hk1) Hrest) as (ws & n2 & HF & Hlog2 & Hc2).
    exists (win :: ws), (n2 ++ n1). split; [now constructor |]. split.
    + now rewrite Hlog2, Hlog1, app_assoc.
    + rewrite map_app, rev_app_distr, Hc1, Hc2. reflexivity.
Qed.

(** One pass of the outer loop: the segment count is the number of chunks,
    and the segments 1 to that count are cut in turn. *)
Lemma score_rate_trace video_name reps w h biggest base a rate si (count : Z) s b s' :
  keeps base a -> base !! rate = Some si ->
  (forall k, is_Some (si !! k) <-> 1 <= k <= count) ->
  score_rate L os video_name reps w h biggest (yuv_path video_name biggest) a rate s
  = (Ok b, s') ->
  exists ws new pre,
    Forall2 (fun n win => window si count n = Ok win) (seqZ 1 count) ws
    /\ log s' = new ++ log s
    /\ rev (map fst new)
       = pre ++ concat (map (segment_commands L w h (yuv_path video_name rate)
                               (yuv_path video_name biggest)) ws).
Proof.
  unfold score_rate. intros Hk Hsi Hdom H.
  apply bind_ok_inv in H as (cur_yuv & s1 & Hcur & H).
  assert (cur_yuv = yuv_path video_name rate /\ exists pre1, log s1 = pre1 ++ log s)
    as [-> [pre1 Hpre1]].
  { destruct (decide (rate = biggest)) as [-> | Hne].
    - injection Hcur as <- <-. split; [reflexivity | now exists []].
    - apply bind_ok_inv in Hcur as (rep & s0 & Hrep & Hcur).
      apply lift_ok_inv in Hrep as [_ ->].
      apply convert_to_yuv_ok_inv in Hcur as [-> [out Hlog]].
      split; [reflexivity |]. now exists [(convert_cmd video_name rep w h
                                             ("video_" +:+ pretty rate), Some out)]. }
  apply bind_ok_inv in H as (si' & s2 & Hsi' & H).
  apply lift_ok_inv in Hsi' as [Hsi' ->]. apply of_option_ok_inv in Hsi'.
  apply bind_ok_inv in H as (segments & s2 & Hmax & H).
  apply lift_ok_inv in Hmax as [Hmax ->].
  destruct (keeps_lookup base a rate si Hk Hsi) as (si'' & Hsi'' & Hstarts).
  rewrite Hsi' in Hsi''. injection Hsi'' as <-.
  assert (forall k, is_Some (si' !! k) <-> 1 <= k <= count) as Hdom'.
  { intros k. rewrite <- Hdom. specialize (Hstarts k).
    destruct (si' !! k), (si !! k); simpl in Hstarts; try discriminate;
      split; intros [? ?]; try discriminate; eauto. }
  assert (segments = count) as ->.
  { destruct (max_of_spec _ _ Hmax) as [Hin _].
    apply elem_of_keys, Hdom' in Hin.
    rewrite (max_of_keys_count si' count) in Hmax by (try lia; exact Hdom').
    now apply Ok_inj in Hmax. }
  destruct (score_segments_trace _ _ _ _ _ _ base si _ _ _ _ _ Hk Hsi H)
    as (ws & n2 & HF & Hlog2 & Hc2).
  exists ws, (n2 ++ pre1), (rev (map fst pre1)).
  split; [exact HF |]. split.
  - now rewrite Hlog2, Hpre1, app_assoc.
  - now rewrite map_app, rev_app_distr, Hc2.
Qed.

(** The outer loop: the commands of every requested representation form one
    block of the commands of the loop. *)
Lemma score_rates_trace video_name reps w h biggest base rate si (count : Z)
    (rates : list Z) a s b s' :
  keeps base a -> base !! rate = Some si ->
  (forall k, is_Some (si !! k) <-> 1 <= k <= count) ->
  rate ∈ rates ->
  for_each rates (score_rate L os video_name reps w h biggest (yuv_path video_name biggest))
    a s = (Ok b, s') ->
  exists ws new before after,
    Forall2 (fun n win => window si count n = Ok win) (seqZ 1 count) ws
    /\ log s' = new ++ log s
    /\ rev (map fst new)
       = before
         ++ concat (map (segment_commands L w h (yuv_path video_name rate)
                           (yuv_path video_name biggest)) ws)
         ++ after.
Proof.
  intros Hk Hsi Hdom. revert a s Hk.
  induction rates as [| x rates IH]; intros a s Hk Hrate H; [inversion Hrate |].
  cbn [for_each] in H. apply bind_ok_inv in H as (a1 & s1 & Hone & Hrest).
  destruct (decide (rate = x)) as [<- | Hne].
  - destruct (score_rate_trace _ _ _ _ _ base _ _ si count _ _ _ Hk Hsi Hdom Hone)
      as (ws & n1 & pre & HF & Hlog1 & Hc1).
    destruct (logs_for_each (fun _ => True) rates
                (score_rate L os video_name reps w h biggest (yuv_path video_name biggest))
                (fun acc y _ => logs_score_rate L os _ _ _ _ _ _ acc y) a1 s1)
      as (n2 & Hlog2 & _).
    rewrite Hrest in Hlog2. cbn [snd] in Hlog2.
    exists ws, (n2 ++ n1), pre, (rev (map fst n2)).
    split; [exact HF |]. split.
    + now rewrite Hlog2, Hlog1, app_assoc.
    + now rewrite map_app, rev_app_distr, Hc1, <- app_assoc.
  - apply elem_of_cons in Hrate as [-> | Hrate]; [contradiction |].
    destruct (score_rate_keeps L os _ _ _ _ _ _ _ _ _ _ _ Hone) as (Hk1 & _).
    destruct (IH a1 s1 (keeps_trans base a a1 Hk Hk1) Hrate Hrest)
      as (ws & n2 & before & after & HF & Hlog2 & Hc2).
    destruct (logs_score_rate L os video_name reps w h biggest
                (yuv_path video_name biggest) a x s) as (n1 & Hlog1 & _).
    rewrite Hone in Hlog1. cbn [snd] in Hlog1.
    exists ws, (n2 ++ n1), (rev (map fst n1) ++ before), after.
    split; [exact HF |]. split.
    + now rewrite Hlog2, Hlog1, app_assoc.
    + now rewrite map_app, rev_app_distr, Hc2, <- app_assoc.
Qed.

End WindowTrace.

(** C4: in [compute_vmaf], a representation with [s] segments is cut in [s]
    windows, one per segment from 1 to [s] and in that order; the window of
    a segment [n] with [1 <= n < s] starts at [start(n)] and lasts
    [start(n+1) - start(n)], and the window of the last segment lasts
    [start(s) - start(s-1)].  The four commands of every segment carry that
    offset and that duration, and they form one block of the commands that
    the call has run. *)
Theorem window_durations (L : PyLib) {World : Type} (os : OS World) :
  (forall (si : gmap Z seg_entry) (s n : Z) (a b : seg_entry),
     1 <= n < s -> si !! n = Some a -> si !! (n + 1) = Some b ->
     window si s n = Ok (start_time a, (start_time b - start_time a)%float))
  /\ (forall (si : gmap Z seg_entry) (s : Z) (a b : seg_entry),
        si !! s = Some a -> si !! (s - 1) = Some b ->
        window si s s = Ok (start_time a, (start_time a - start_time b)%float))
  /\ (forall (video_name : string) (rates : list Z) (reps : gmap Z string)
             (seg_info seg_info' : gmap Z (gmap Z seg_entry)) (info : gmap Z dims)
             (st st' : state World),
        isfile os ("videos/" +:+ video_name +:+ "/vmaf.json") (world st) = false ->
        compute_vmaf L os video_name rates reps seg_info info st = (Ok seg_info', st') ->
        exists biggest d new,
          max_of rates = Ok biggest
          /\ info !! biggest = Some d
          /\ log st' = new ++ log st
          /\ forall rate si s,
               rate ∈ rates -> seg_info !! rate = Some si ->
               (forall k, is_Some (si !! k) <-> 1 <= k <= s) ->
               exists (ws : list (float * float)) before after,
                 length ws = Z.to_nat s
                 /\ (forall n a b,
                       1 <= n < s -> si !! n = Some a -> si !! (n + 1) = Some b ->
                       ws !! Z.to_nat (n - 1)
                       = Some (start_time a, (start_time b - start_time a)%float))
                 /\ (forall a b,
                       si !! s = Some a -> si !! (s - 1) = Some b ->
                       ws !! Z.to_nat (s - 1)
                       = Some (start_time a, (start_time a - start_time b)%float))
                 /\ rev (map fst new)
                    = before
                      ++ concat (map (segment_commands L (width d) (height d)
                                        (yuv_path video_name rate)
                                        (yuv_path video_name biggest)) ws)
                      ++ after).
Proof.
  split; [intros si s n a b; apply window_inner |].
  split; [intros si s a b; apply window_last |].
  intros video_name rates reps seg_info seg_info' info st st' Hout H.
  unfold compute_vmaf in H.
  apply bind_ok_inv in H as (done_before & s0 & Hd & H).
  unfold is_file in Hd. injection Hd as <- <-. rewrite Hout in H.
  apply bind_ok_inv in H as (has_bin & s0 & Hb & H).
  unfold is_file in Hb. injection Hb as <- <-.
  destruct (isfile os vmaf_bin (world st)); [| discriminate H]. cbn [negb] in H.
  apply bind_ok_inv in H as (has_model & s0 & Hm & H).
  unfold is_file in Hm. injection Hm as <- <-.
  destruct (isfile os vmaf_model (world st)); [| discriminate H]. cbn [negb] in H.
  apply bind_ok_inv in H as (biggest & s0 & Hmax & H).
  apply lift_ok_inv in Hmax as [Hmax ->].
  apply bind_ok_inv in H as (d & s0 & Hdims & H).
  apply lift_ok_inv in Hdims as [Hdims ->]. apply of_option_ok_inv in Hdims.
  apply bind_ok_inv in H as (ref_rep & s0 & Href & H).
  apply lift_ok_inv in Href as [_ ->].
  apply bind_ok_inv in H as (ref_yuv & s1 & Hconv & H).
  apply convert_to_yuv_ok_inv in Hconv as [-> [oc Hlog1]].
  apply bind_ok_inv in H as (seg1 & s2 & Hloop & H).
  apply bind_ok_inv in H as (? & s3 & Hrm & H). apply rm_ok_inv in Hrm as (orm & Hlog3).
  apply bind_ok_inv in H as (? & s4 & Hwrite & H). apply write_ok_inv in Hwrite.
  injection H as _ <-.
  change ("videos/" +:+ video_name +:+ "/yuv/" +:+ ("video_" +:+ pretty biggest) +:+ ".yuv")
    with (yuv_path video_name biggest) in Hloop.
  destruct (logs_for_each (fun _ => True) rates
              (score_rate L os video_name reps (width d) (height d) biggest
                 (yuv_path video_name biggest))
              (fun acc y _ => logs_score_rate L os _ _ _ _ _ _ acc y) seg_info s1)
    as (nloop & Hlog2 & _).
  rewrite Hloop in Hlog2. cbn [snd] in Hlog2.
  exists biggest, d,
    ((rm_cmd ("videos/" +:+ video_name +:+ "/yuv"), Some orm) :: nloop
     ++ [(convert_cmd video_name ref_rep (width d) (height d) ("video_" +:+ pretty biggest),
          Some oc)]).
  split; [exact Hmax |]. split; [exact Hdims |]. split.
  { rewrite Hwrite, Hlog3, Hlog2, Hlog1. cbn [app]. now rewrite <- app_assoc. }
  intros rate si s Hrate Hsi Hdom.
  destruct (score_rates_trace L os video_name reps (width d) (height d) biggest seg_info
              rate si s rates seg_info s1 seg1 s2 (keeps_refl seg_info) Hsi Hdom Hrate Hloop)
    as (ws & new & before & after & HF & Hnew & Hcmds).
  assert (new = nloop) as ->.
  { apply (app_inv_tail (log s1)). now rewrite <- Hnew, <- Hlog2. }
  exists ws,
    (convert_cmd video_name ref_rep (width d) (height d) ("video_" +:+ pretty biggest)
     :: before),
    (after ++ [rm_cmd ("videos/" +:+ video_name +:+ "/yuv")]).
  split; [| split; [| split]].
  - apply Forall2_length in HF. now rewrite length_seqZ in HF.
  - intros n a b Hn Ha Hb.
    destruct (Forall2_lookup_l _ _ _ (Z.to_nat (n - 1)) n HF) as (win & Hwin & Hw).
    { rewrite lookup_seqZ_lt by lia. f_equal. lia. }
    rewrite (window_inner si s n a b Hn Ha Hb) in Hw. apply Ok_inj in Hw. now subst win.
  - intros a b Ha Hb.
    assert (1 <= s) as Hs.
    { destruct (proj1 (Hdom s)); [eauto | lia]. }
    destruct (Forall2_lookup_l _ _ _ (Z.to_nat (s - 1)) s HF) as (win & Hwin & Hw).
    { rewrite lookup_seqZ_lt by lia. f_equal. lia. }
    rewrite (window_last si s a b Ha Hb) in Hw. apply Ok_inj in Hw. now subst win.
  - cbn [map fst rev]. rewrite map_app, rev_app_distr. cbn [map fst rev app].
    rewrite Hcmds. now rewrite <- !app_assoc.
Qed.

Lemma window_durations_witness :
  let starts := sample_starts [(1, 0%float); (2, 5%float); (3, 10.5%float)] in
  exists new before after,
    log (compute_vmaf sample_lib sample_os "v" [300; 600]
           (<[600 := "videos/v/tmp/rep_600.mp4"]> {[ 300 := "videos/v/tmp/rep_300.mp4" ]})
           (<[600 := starts]> {[ 300 := starts ]})
           (<[600 := Dims 1280 720]> {[ 300 := Dims 640 360 ]}) sample_fresh).2
    = new ++ log sample_fresh
    /\ rev (map fst new)
       = before
         ++ concat (map (segment_commands sample_lib 1280 720 (yuv_path "v" 300)
                           (yuv_path "v" 600))
                      [ (0%float, 5%float); (5%float, 5.5%float);
                        (10.5%float, 5.5%float) ])
         ++ after
    /\ cut_cmd sample_lib 1280 720 (yuv_path "v" 300) 10.5%float 5.5%float "cut1.yuv"
       = "ffmpeg -y -s:v 1280x720 -r 10 -i " +:+ quoted "videos/v/yuv/video_300.yuv"
         +:+ " -ss 10.5 -t 5.5 -pix_fmt yuv420p cut1.yuv".
Proof.
  intros starts.
  destruct (compute_vmaf sample_lib sample_os "v" [300; 600]
              (<[600 := "videos/v/tmp/rep_600.mp4"]> {[ 300 := "videos/v/tmp/rep_300.mp4" ]})
              (<[600 := starts]> {[ 300 := starts ]})
              (<[600 := Dims 1280 720]> {[ 300 := Dims 640 360 ]}) sample_fresh)
    as [[seg_info' | e] st'] eqn:E; [| vm_compute in E; discriminate E].
  destruct (proj2 (proj2 (window_durations sample_lib sample_os))
              "v" _ _ _ _ _ sample_fresh _ eq_refl E)
    as (biggest & d & new & Hmax & Hd & Hlog & Hrates).
  injection Hmax as <-.
  assert (d = Dims 1280 720) as -> by (apply (inj Some); rewrite <- Hd; reflexivity).
  destruct (Hrates 300 starts 3) as (ws & before & after & Hlen & Hinner & Hlast & Hcmds).
  { left. }
  { reflexivity. }
  { apply sample_starts_dom3. }
  exists new, before, after. split; [exact Hlog |]. split; [| reflexivity].
  destruct ws as [| w1 [| w2 [| w3 [| w4 ws]]]]; try discriminate Hlen.
  pose proof (Hinner 1 (SegEntry 0 None) (SegEntry 5 None) ltac:(lia) eq_refl eq_refl) as H1.
  pose proof (Hinner 2 (SegEntry 5 None) (SegEntry 10.5 None) ltac:(lia) eq_refl eq_refl)
    as H2.
  pose proof (Hlast (SegEntry 10.5 None) (SegEntry 5 None) eq_refl eq_refl) as H3.
  apply (inj Some) in H1, H2, H3. subst w1 w2 w3. exact Hcmds.
Defined.

(** ** Re-running the pipeline *)

Section RerunProps.
Context (L : PyLib) {World : Type} (os : OS World).
Implicit Types (s : state World).







End RerunProps.



